(** * Smart Toolbox: the reader-device protocol engine of [index.js]

    A shallow embedding of the serial-protocol core of [index.js]
    (CRC-16/CCITT engine, frame reassembler, handshake, scan decoder,
    flush and inventory reload) together with the properties its
    specification states about it.

    Conventions.
    - A Node [Buffer] is a [list byte]; a JavaScript number that the
      code only uses as an integer is a [Z], with the truncations the
      code performs written out.
    - A JavaScript string is a [string]; the hexadecimal renderings the
      protocol code compares are ASCII.
    - The two scan tables and the read-tag table are JavaScript [Map]s
      whose iteration order is observable (it fixes the order of the
      update records and the tie-break of read-tag mode): they are
      insertion-ordered association lists ([JsMap]).  The inventory
      index is only ever looked up, filled and cleared: it is a [gmap].
    - The closure variables of [main] are the fields of [State]; code
      that can throw returns an [Outcome]. *)

From Stdlib Require Import ZArith List String Ascii Bool Lia.
From Stdlib.Strings Require Import Byte.
From stdpp Require Import base gmap strings.
Import ListNotations.

Local Open Scope string_scope.
Local Open Scope Z_scope.

(** ** Bytes and buffers *)

Definition byte : Type := Byte.byte.

Definition byteZ (b : byte) : Z := Z.of_N (Byte.to_N b).

(** The byte holding [z mod 256]. *)
Definition byteOfZ (z : Z) : byte :=
  match Byte.of_N (Z.to_N (z mod 256)) with
  | Some b => b
  | None => Byte.x00
  end.

(** JavaScript index clamping of [Buffer.prototype.slice]. *)
Definition clampIndex (len i : Z) : Z :=
  if i <? 0 then Z.max (len + i) 0 else Z.min i len.

(** [buf.slice(start, stop)]. *)
Definition slice {A : Type} (start stop : Z) (l : list A) : list A :=
  let len := Z.of_nat (length l) in
  let s := clampIndex len start in
  let e := clampIndex len stop in
  firstn (Z.to_nat (e - s)) (skipn (Z.to_nat s) l).

(** [buf.slice(start)]. *)
Definition sliceFrom {A : Type} (start : Z) (l : list A) : list A :=
  slice start (Z.of_nat (length l)) l.

(** ** Hexadecimal rendering: [buf.toString('hex')], [Buffer.from(s, 'hex')] *)

Definition hexDigit (n : N) : ascii :=
  match n with
  | 0 => "0" | 1 => "1" | 2 => "2" | 3 => "3" | 4 => "4" | 5 => "5"
  | 6 => "6" | 7 => "7" | 8 => "8" | 9 => "9" | 10 => "a" | 11 => "b"
  | 12 => "c" | 13 => "d" | 14 => "e" | _ => "f"
  end%N%char.

Fixpoint toHex (buf : list byte) : string :=
  match buf with
  | [] => EmptyString
  | b :: rest =>
      String (hexDigit (Byte.to_N b / 16))
        (String (hexDigit (Byte.to_N b mod 16)) (toHex rest))
  end.

Definition hexVal (c : ascii) : option N :=
  let n := N_of_ascii c in
  if ((48 <=? n) && (n <=? 57))%N then Some (n - 48)%N
  else if ((97 <=? n) && (n <=? 102))%N then Some (n - 87)%N
  else if ((65 <=? n) && (n <=? 70))%N then Some (n - 55)%N
  else None.

(** Decoding stops at the first pair that is not two hex digits. *)
Fixpoint fromHex (s : string) : list byte :=
  match s with
  | String a (String b rest) =>
      match hexVal a, hexVal b with
      | Some x, Some y => byteOfZ (Z.of_N (16 * x + y)) :: fromHex rest
      | _, _ => []
      end
  | _ => []
  end.

(** [s.toUpperCase()], on the ASCII range (it is applied to hex only). *)
Definition upperChar (c : ascii) : ascii :=
  let n := N_of_ascii c in
  if ((97 <=? n) && (n <=? 122))%N then ascii_of_N (n - 32) else c.

Fixpoint toUpperCase (s : string) : string :=
  match s with
  | EmptyString => EmptyString
  | String c rest => String (upperChar c) (toUpperCase rest)
  end.

(** ** Constants *)

Module Constants.
Definition MODE_AUTO : string := "auto".
Definition MODE_INVENTORY : string := "inventory".
Definition MODE_INTERACTIVE : string := "interactive".
Definition MODE_READ_TAG : string := "read-tag".

Definition HEADER_BYTE : Z := 0xFF.

Definition CMD_START_APP : Z := 0x04.
Definition CMD_GET_RUNNING_STAGE : Z := 0x0C.
Definition CMD_RFID_INVENTORY : Z := 0x21.
Definition CMD_MULTI_TAG_INVENTORY : Z := 0xAA.

Definition STAGE_BOOTLOADER : Z := 0x11.
Definition STAGE_APP : Z := 0x12.

Definition STATUS_SUCCESS : Z := 0x0000.

Definition HEX_START_APP : string := "ff00041d0b".
Definition HEX_GET_RUNNING_STAGE : string := "ff000c1d03".
Definition HEX_SCAN_START : string :=
  "ff13aa4d6f64756c6574656368aa480000000000f2bbe1cb".
Definition HEX_SCAN_STOP : string := "ff0eaa4d6f64756c6574656368aa49f3bb".

Definition TSV_ITEM_ID_PLACEHOLDER : string := "N/A".
End Constants.

(** ** CRC-16/CCITT engine (class [CRC]) *)

Module CRC.

Definition MSG_CRC_INIT : Z := 0xFFFF.
Definition MSG_CCITT_CRC_POLY : Z := 0x1021.

Record t : Type := mk { init_value : Z; poly_value : Z; value : Z }.

Definition reset (c : t) : t :=
  {| init_value := init_value c; poly_value := poly_value c;
     value := init_value c |}.

(** [new CRC(poly_value, init_value)]. *)
Definition make (poly init : Z) : t :=
  reset {| init_value := init; poly_value := poly; value := 0 |}.

(** [new CRC()]. *)
Definition new : t := make MSG_CCITT_CRC_POLY MSG_CRC_INIT.

(** One turn of the [for] loop of [crc8]; the loop state is
    [this.value] and [dcdBitMask]. *)
Definition crc8_turn (v : Z) (st : t * Z) : t * Z :=
  let (c, dcdBitMask) := st in
  let xorFlag := Z.land (value c) 0x8000 in
  let value1 := Z.land (Z.shiftl (value c) 1) 0xFFFF in
  let bit := if Z.land v dcdBitMask =? dcdBitMask then 1 else 0 in
  let value2 := Z.lor value1 bit in
  let value3 :=
    if xorFlag >? 0 then Z.lxor value2 (poly_value c) else value2 in
  ({| init_value := init_value c; poly_value := poly_value c;
      value := value3 |},
   Z.shiftr dcdBitMask 1).

Definition crc8 (v : Z) (c : t) : t :=
  fst (Nat.iter 8 (crc8_turn v) (c, 0x80)).

(** [calculate(data)]: the value returned and the object afterwards. *)
Definition calculate_obj (data : list byte) (c : t) : t :=
  fold_left (fun c b => crc8 (byteZ b) c) data (reset c).

Definition calculate (data : list byte) : Z :=
  value (calculate_obj data new).

End CRC.

(** The reference definition of CRC-16/CCITT in the words of the
    specification: register 0xFFFF; per input bit, most significant
    first, shift the 16-bit register left by one truncated to 16 bits,
    OR in the bit, and XOR with 0x1021 when the bit shifted out was set. *)
Module CrcReference.

Definition bit_step (reg : Z) (bit : bool) : Z :=
  let shifted := (2 * reg) mod 2 ^ 16 in
  let merged := Z.lor shifted (Z.b2z bit) in
  if Z.testbit reg 15 then Z.lxor merged 0x1021 else merged.

Definition bits_msb_first (b : byte) : list bool :=
  map (Z.testbit (byteZ b)) [7; 6; 5; 4; 3; 2; 1; 0].

Definition byte_step (reg : Z) (b : byte) : Z :=
  fold_left bit_step (bits_msb_first b) reg.

Definition crc16 (data : list byte) : Z := fold_left byte_step data 0xFFFF.

End CrcReference.

(** ** JavaScript strings: [split], [trim], [parseInt], [indexOf]

    Strings are modelled on code units below 256, so the white space
    [trim] removes is tab, line feed, vertical tab, form feed, carriage
    return, space and no-break space. *)

Definition isWhiteSpace (c : ascii) : bool :=
  let n := N_of_ascii c in
  (((9 <=? n) && (n <=? 13)) || (n =? 32) || (n =? 160))%N.

Fixpoint trimStart (s : string) : string :=
  match s with
  | EmptyString => EmptyString
  | String c rest => if isWhiteSpace c then trimStart rest else s
  end.

Fixpoint trimEnd (s : string) : string :=
  match s with
  | EmptyString => EmptyString
  | String c rest =>
      match trimEnd rest with
      | EmptyString => if isWhiteSpace c then EmptyString else String c EmptyString
      | kept => String c kept
      end
  end.

Definition trim (s : string) : string := trimEnd (trimStart s).

(** [s.split(sep)] for a one-character separator. *)
Fixpoint split (sep : ascii) (s : string) : list string :=
  match s with
  | EmptyString => [EmptyString]
  | String c rest =>
      if Ascii.eqb c sep then EmptyString :: split sep rest
      else match split sep rest with
           | piece :: pieces => String c piece :: pieces
           | [] => [String c EmptyString]
           end
  end.

(** [arr.indexOf(x)]: the first position of [x], or -1. *)
Fixpoint indexOf (x : string) (arr : list string) : Z :=
  match arr with
  | [] => -1
  | y :: rest =>
      if String.eqb y x then 0
      else let i := indexOf x rest in if i <? 0 then -1 else i + 1
  end.

(** [arr[i]] for an index the code has checked against -1. *)
Definition at_index {A : Type} (arr : list A) (i : Z) : option A :=
  if i <? 0 then None else nth_error arr (Z.to_nat i).

Definition digitVal (c : ascii) : option Z :=
  let n := N_of_ascii c in
  if ((48 <=? n) && (n <=? 57))%N then Some (Z.of_N (n - 48)) else None.

(** The longest prefix of decimal digits, read as a number; [None]
    when there is no digit. *)
Fixpoint readDigits (acc : option Z) (s : string) : option Z :=
  match s with
  | EmptyString => acc
  | String c rest =>
      match digitVal c with
      | Some d =>
          readDigits (Some (10 * (match acc with Some a => a | None => 0 end) + d))
            rest
      | None => acc
      end
  end.

(** [parseInt(x, 10)]; [None] stands for [NaN], and the argument is
    [None] when the array element is [undefined]. *)
Definition parseInt (x : option string) : option Z :=
  match x with
  | None => None
  | Some s =>
      match trimStart s with
      | String "-" rest => option_map Z.opp (readDigits None rest)
      | String "+" rest => readDigits None rest
      | rest => readDigits None rest
      end
  end.

(** ** JavaScript [Map] with its insertion order *)

Module JsMap.

Definition t (V : Type) : Type := list (string * V).

Definition empty {V : Type} : t V := [].

Fixpoint get {V : Type} (k : string) (m : t V) : option V :=
  match m with
  | [] => None
  | (k', v) :: rest => if String.eqb k k' then Some v else get k rest
  end.

(** [m.set(k, v)]: an existing key keeps its place, a new one goes last. *)
Fixpoint set {V : Type} (k : string) (v : V) (m : t V) : t V :=
  match m with
  | [] => [(k, v)]
  | (k', v') :: rest =>
      if String.eqb k k' then (k, v) :: rest else (k', v') :: set k v rest
  end.

Definition keys {V : Type} (m : t V) : list string := map fst m.

End JsMap.

(** ** Exceptions and outcomes *)

Inductive Exn : Type := TypeError | RangeError | ReferenceError | OtherError.

(** How a call ends: it returns, or an exception leaves it; either way
    the assignments made so far stay. *)
Inductive Outcome (S A : Type) : Type :=
| Returned (a : A) (s : S)
| Thrown (e : Exn) (s : S).

Arguments Returned {S A} a s.
Arguments Thrown {S A} e s.

Definition stateOf {S A : Type} (o : Outcome S A) : S :=
  match o with Returned _ s => s | Thrown _ s => s end.

Definition returns {S A : Type} (o : Outcome S A) : bool :=
  match o with Returned _ _ => true | Thrown _ _ => false end.

(** ** The closure state of [main] *)

Record ScanEntry : Type := { count : Z; timestamp : string }.

(** An inventory row; [id] is [None] when [parseInt] gave [NaN]. *)
Record Item : Type := { id : option Z; epc : string; item : string }.

Record Update : Type :=
  { u_id : option Z; u_timestamp : string; u_epc : string; u_item : string;
    u_count : Z }.

(** What [JSON.stringify] is applied to before [client.send]. *)
Inductive Message : Type :=
| MsgEpc (epc : string)
| MsgUpdates (updates : list Update).

(** A WebSocket subscriber: its [readyState] and what was sent to it,
    oldest first. *)
Record Client : Type := { readyState : Z; received : list Message }.

Inductive Callback : Type := CbLogScannedTags | CbHandshakeTimeout.

(** A pending [setTimeout] or [setInterval]. *)
Record Timer : Type :=
  { handle : nat; callback : Callback; delay : Z; repeating : bool }.

Record State : Type :=
  { mode : string;
    inventoryMode : bool;
    refreshPeriod : Z;
    isDbgLogEnabled : bool;
    autoModeState : Z;
    isScanning : bool;
    refreshIntervalId : option nat;
    scannedTagsCumulative : JsMap.t ScanEntry;
    scannedTagsRefresh : JsMap.t ScanEntry;
    inventoryData : gmap string Item;
    wsClients : list Client;
    readTagScans : JsMap.t Z;
    (* the environment: packets given to [port.write] (oldest first),
       pending timers, the next timer handle, the clock *)
    portWrites : list (list byte);
    timers : list Timer;
    nextHandle : nat;
    now : string }.

Definition set_autoModeState (v : Z) (s : State) : State :=
  {| mode := mode s; inventoryMode := inventoryMode s;
     refreshPeriod := refreshPeriod s; isDbgLogEnabled := isDbgLogEnabled s;
     autoModeState := v; isScanning := isScanning s;
     refreshIntervalId := refreshIntervalId s;
     scannedTagsCumulative := scannedTagsCumulative s;
     scannedTagsRefresh := scannedTagsRefresh s;
     inventoryData := inventoryData s; wsClients := wsClients s;
     readTagScans := readTagScans s; portWrites := portWrites s;
     timers := timers s; nextHandle := nextHandle s; now := now s |}.

Definition set_isScanning (v : bool) (s : State) : State :=
  {| mode := mode s; inventoryMode := inventoryMode s;
     refreshPeriod := refreshPeriod s; isDbgLogEnabled := isDbgLogEnabled s;
     autoModeState := autoModeState s; isScanning := v;
     refreshIntervalId := refreshIntervalId s;
     scannedTagsCumulative := scannedTagsCumulative s;
     scannedTagsRefresh := scannedTagsRefresh s;
     inventoryData := inventoryData s; wsClients := wsClients s;
     readTagScans := readTagScans s; portWrites := portWrites s;
     timers := timers s; nextHandle := nextHandle s; now := now s |}.

Definition set_refreshIntervalId (v : option nat) (s : State) : State :=
  {| mode := mode s; inventoryMode := inventoryMode s;
     refreshPeriod := refreshPeriod s; isDbgLogEnabled := isDbgLogEnabled s;
     autoModeState := autoModeState s; isScanning := isScanning s;
     refreshIntervalId := v;
     scannedTagsCumulative := scannedTagsCumulative s;
     scannedTagsRefresh := scannedTagsRefresh s;
     inventoryData := inventoryData s; wsClients := wsClients s;
     readTagScans := readTagScans s; portWrites := portWrites s;
     timers := timers s; nextHandle := nextHandle s; now := now s |}.

Definition set_scannedTagsCumulative (v : JsMap.t ScanEntry) (s : State) : State :=
  {| mode := mode s; inventoryMode := inventoryMode s;
     refreshPeriod := refreshPeriod s; isDbgLogEnabled := isDbgLogEnabled s;
     autoModeState := autoModeState s; isScanning := isScanning s;
     refreshIntervalId := refreshIntervalId s; scannedTagsCumulative := v;
     scannedTagsRefresh := scannedTagsRefresh s;
     inventoryData := inventoryData s; wsClients := wsClients s;
     readTagScans := readTagScans s; portWrites := portWrites s;
     timers := timers s; nextHandle := nextHandle s; now := now s |}.

Definition set_scannedTagsRefresh (v : JsMap.t ScanEntry) (s : State) : State :=
  {| mode := mode s; inventoryMode := inventoryMode s;
     refreshPeriod := refreshPeriod s; isDbgLogEnabled := isDbgLogEnabled s;
     autoModeState := autoModeState s; isScanning := isScanning s;
     refreshIntervalId := refreshIntervalId s;
     scannedTagsCumulative := scannedTagsCumulative s;
     scannedTagsRefresh := v; inventoryData := inventoryData s;
     wsClients := wsClients s; readTagScans := readTagScans s;
     portWrites := portWrites s; timers := timers s;
     nextHandle := nextHandle s; now := now s |}.

Definition set_inventoryData (v : gmap string Item) (s : State) : State :=
  {| mode := mode s; inventoryMode := inventoryMode s;
     refreshPeriod := refreshPeriod s; isDbgLogEnabled := isDbgLogEnabled s;
     autoModeState := autoModeState s; isScanning := isScanning s;
     refreshIntervalId := refreshIntervalId s;
     scannedTagsCumulative := scannedTagsCumulative s;
     scannedTagsRefresh := scannedTagsRefresh s; inventoryData := v;
     wsClients := wsClients s; readTagScans := readTagScans s;
     portWrites := portWrites s; timers := timers s;
     nextHandle := nextHandle s; now := now s |}.

Definition set_wsClients (v : list Client) (s : State) : State :=
  {| mode := mode s; inventoryMode := inventoryMode s;
     refreshPeriod := refreshPeriod s; isDbgLogEnabled := isDbgLogEnabled s;
     autoModeState := autoModeState s; isScanning := isScanning s;
     refreshIntervalId := refreshIntervalId s;
     scannedTagsCumulative := scannedTagsCumulative s;
     scannedTagsRefresh := scannedTagsRefresh s;
     inventoryData := inventoryData s; wsClients := v;
     readTagScans := readTagScans s; portWrites := portWrites s;
     timers := timers s; nextHandle := nextHandle s; now := now s |}.

Definition set_readTagScans (v : JsMap.t Z) (s : State) : State :=
  {| mode := mode s; inventoryMode := inventoryMode s;
     refreshPeriod := refreshPeriod s; isDbgLogEnabled := isDbgLogEnabled s;
     autoModeState := autoModeState s; isScanning := isScanning s;
     refreshIntervalId := refreshIntervalId s;
     scannedTagsCumulative := scannedTagsCumulative s;
     scannedTagsRefresh := scannedTagsRefresh s;
     inventoryData := inventoryData s; wsClients := wsClients s;
     readTagScans := v; portWrites := portWrites s; timers := timers s;
     nextHandle := nextHandle s; now := now s |}.

Definition set_portWrites (v : list (list byte)) (s : State) : State :=
  {| mode := mode s; inventoryMode := inventoryMode s;
     refreshPeriod := refreshPeriod s; isDbgLogEnabled := isDbgLogEnabled s;
     autoModeState := autoModeState s; isScanning := isScanning s;
     refreshIntervalId := refreshIntervalId s;
     scannedTagsCumulative := scannedTagsCumulative s;
     scannedTagsRefresh := scannedTagsRefresh s;
     inventoryData := inventoryData s; wsClients := wsClients s;
     readTagScans := readTagScans s; portWrites := v; timers := timers s;
     nextHandle := nextHandle s; now := now s |}.

Definition set_timers (v : list Timer) (s : State) : State :=
  {| mode := mode s; inventoryMode := inventoryMode s;
     refreshPeriod := refreshPeriod s; isDbgLogEnabled := isDbgLogEnabled s;
     autoModeState := autoModeState s; isScanning := isScanning s;
     refreshIntervalId := refreshIntervalId s;
     scannedTagsCumulative := scannedTagsCumulative s;
     scannedTagsRefresh := scannedTagsRefresh s;
     inventoryData := inventoryData s; wsClients := wsClients s;
     readTagScans := readTagScans s; portWrites := portWrites s; timers := v;
     nextHandle := nextHandle s; now := now s |}.

Definition set_nextHandle (v : nat) (s : State) : State :=
  {| mode := mode s; inventoryMode := inventoryMode s;
     refreshPeriod := refreshPeriod s; isDbgLogEnabled := isDbgLogEnabled s;
     autoModeState := autoModeState s; isScanning := isScanning s;
     refreshIntervalId := refreshIntervalId s;
     scannedTagsCumulative := scannedTagsCumulative s;
     scannedTagsRefresh := scannedTagsRefresh s;
     inventoryData := inventoryData s; wsClients := wsClients s;
     readTagScans := readTagScans s; portWrites := portWrites s;
     timers := timers s; nextHandle := v; now := now s |}.
(** The closure state as [main] sets it up, for a given [--mode],
    [--refresh-period], [--dbg] and clock reading. *)
Definition initialState (m : string) (period : Z) (dbg : bool) (clock : string)
  : State :=
  {| mode := m;
     inventoryMode := String.eqb m Constants.MODE_INVENTORY;
     refreshPeriod := period;
     isDbgLogEnabled := dbg;
     autoModeState := 0;
     isScanning := false;
     refreshIntervalId := None;
     scannedTagsCumulative := JsMap.empty;
     scannedTagsRefresh := JsMap.empty;
     inventoryData := ∅;
     wsClients := [];
     readTagScans := JsMap.empty;
     portWrites := [];
     timers := [];
     nextHandle := 1;
     now := clock |}.

(** A computation over the closure state that may throw. *)
Definition M (A : Type) : Type := State -> Outcome State A.

Definition ret {A : Type} (a : A) : M A := fun s => Returned a s.

Definition throw {A : Type} (e : Exn) : M A := fun s => Thrown e s.

Definition bind {A B : Type} (c : M A) (k : A -> M B) : M B :=
  fun s => match c s with
           | Returned a s' => k a s'
           | Thrown e s' => Thrown e s'
           end.

Definition gets {A : Type} (f : State -> A) : M A := fun s => Returned (f s) s.

Definition modify (f : State -> State) : M unit := fun s => Returned tt (f s).

Notation "x <- c ;; k" := (bind c (fun x => k))
  (at level 90, c at level 89, right associativity).
Notation "c ;;; k" := (bind c (fun _ => k))
  (at level 90, right associativity).

(** ** Timers *)

Definition setTimer (cb : Callback) (ms : Z) (rep : bool) : M nat :=
  fun s =>
    let h := nextHandle s in
    Returned h
      (set_nextHandle (S h)
         (set_timers
            (timers s ++
             [{| handle := h; callback := cb; delay := ms; repeating := rep |}])
            s)).

Definition setInterval (cb : Callback) (ms : Z) : M nat := setTimer cb ms true.

Definition setTimeout (cb : Callback) (ms : Z) : M nat := setTimer cb ms false.

Definition clearInterval (h : nat) : M unit :=
  modify (fun s =>
    set_timers (filter (fun t => negb (Nat.eqb (handle t) h)) (timers s)) s).

(** ** Sending to subscribers *)

(** [wsClients.forEach(client => { if (client.readyState === 1)
    client.send(JSON.stringify(msg)) })]. *)
Definition sendIfOpen (msg : Message) (c : Client) : Client :=
  if readyState c =? 1
  then {| readyState := readyState c; received := received c ++ [msg] |}
  else c.

Definition broadcast (msg : Message) : M unit :=
  modify (fun s => set_wsClients (map (sendIfOpen msg) (wsClients s)) s).

(** ** [logScannedTags]: the flush *)

(** The body of [scannedTagsRefresh.forEach]: one record for an
    identifier the inventory knows, none otherwise. *)
Definition updateFor (inv : gmap string Item) (entry : string * ScanEntry)
  : list Update :=
  let (epc, data) := entry in
  match inv !! epc with
  | Some it =>
      [{| u_id := id it; u_timestamp := timestamp data; u_epc := epc;
          u_item := item it; u_count := count data |}]
  | None => []
  end.

Definition inventoryUpdates (s : State) : list Update :=
  flat_map (updateFor (inventoryData s)) (scannedTagsRefresh s).

Definition logScannedTags : M unit :=
  updates <- gets inventoryUpdates ;;
  modify (set_scannedTagsRefresh JsMap.empty) ;;;
  match updates with
  | [] => ret tt
  | _ :: _ => broadcast (MsgUpdates updates)
  end.

(** ** [sendWithCrc] *)

(** [Buffer.alloc(2)] after [writeUInt16BE(v)]; a value outside
    0..65535 is a [RangeError]. *)
Definition writeUInt16BE (v : Z) : M (list byte) :=
  if (0 <=? v) && (v <=? 0xFFFF)
  then ret [byteOfZ (Z.shiftr v 8); byteOfZ (Z.land v 0xFF)]
  else throw RangeError.

Definition portWrite (packet : list byte) : M unit :=
  modify (fun s => set_portWrites (portWrites s ++ [packet]) s).

Definition sendWithCrc (data : list byte) : M unit :=
  let calculatedCrc := CRC.calculate (sliceFrom 1 data) in
  crcBuffer <- writeUInt16BE calculatedCrc ;;
  let packetToSend := (data ++ crcBuffer)%list in
  portWrite packetToSend ;;;
  let hexString := toHex data in
  if String.prefix Constants.HEX_SCAN_START hexString then
    modify (set_isScanning true) ;;;
    modify (set_scannedTagsCumulative JsMap.empty) ;;;
    modify (set_scannedTagsRefresh JsMap.empty) ;;;
    old <- gets refreshIntervalId ;;
    match old with Some h => clearInterval h | None => ret tt end ;;;
    period <- gets refreshPeriod ;;
    h <- setInterval CbLogScannedTags (period * 1000) ;;
    modify (set_refreshIntervalId (Some h))
  else if String.prefix Constants.HEX_SCAN_STOP hexString then
    scanning <- gets isScanning ;;
    if scanning then
      modify (set_isScanning false) ;;;
      old <- gets refreshIntervalId ;;
      match old with Some h => clearInterval h | None => ret tt end ;;;
      logScannedTags
    else ret tt
  else ret tt.

(** ** [parseResponse] *)

Definition APP_START_ACK : string :=
  "ff1404000000000000a4000300202205232205230000000010377c".

(** [mode === MODE_AUTO || mode === MODE_INVENTORY || mode === MODE_READ_TAG]. *)
Definition isAutoMode (m : string) : bool :=
  String.eqb m Constants.MODE_AUTO || String.eqb m Constants.MODE_INVENTORY
  || String.eqb m Constants.MODE_READ_TAG.

(** The scan of [readTagScans.entries()] for the highest count: the
    loop state is [mostFrequentEpc] and [maxCount]. *)
Definition mostFrequentTurn (acc : string * Z) (entry : string * Z)
  : string * Z :=
  let (mostFrequentEpc, maxCount) := acc in
  let (epc, count) := entry in
  if count >? maxCount then (epc, count) else (mostFrequentEpc, maxCount).

Definition mostFrequent (scans : JsMap.t Z) : string :=
  fst (fold_left mostFrequentTurn scans (EmptyString, 0)).

(** The identifier of a tag-read payload:
    [payload.slice(5, payload.length - 2).toString('hex').toUpperCase()]. *)
Definition epcHexOf (payload : list byte) : string :=
  toUpperCase (toHex (slice 5 (Z.of_nat (length payload) - 2) payload)).

(** The [read-tag] branch. *)
Definition readTagObserve (epcHex : string) : M unit :=
  scans <- gets readTagScans ;;
  let currentCount :=
    (match JsMap.get epcHex scans with Some c => c | None => 0 end) + 1 in
  modify (set_readTagScans (JsMap.set epcHex currentCount scans)) ;;;
  scans' <- gets readTagScans ;;
  broadcast (MsgEpc (mostFrequent scans')).

Definition bump (stamp : string) (e : option ScanEntry) : ScanEntry :=
  let entry :=
    match e with
    | Some entry => entry
    | None => {| count := 0; timestamp := EmptyString |}
    end in
  {| count := count entry + 1; timestamp := stamp |}.

(** The counting of a tag in auto and inventory mode. *)
Definition countObserve (epcHex : string) : M unit :=
  filtered <- gets inventoryMode ;;
  inv <- gets inventoryData ;;
  if filtered && negb (bool_decide (is_Some (inv !! epcHex))) then ret tt
  else
    stamp <- gets now ;;
    modify (fun s =>
      set_scannedTagsCumulative
        (JsMap.set epcHex
           (bump stamp (JsMap.get epcHex (scannedTagsCumulative s)))
           (scannedTagsCumulative s)) s) ;;;
    modify (fun s =>
      set_scannedTagsRefresh
        (JsMap.set epcHex
           (bump stamp (JsMap.get epcHex (scannedTagsRefresh s)))
           (scannedTagsRefresh s)) s).

Definition parseResponse (buffer : list byte) : M unit :=
  dbg <- gets isDbgLogEnabled ;;
  match buffer with
  | [] =>
      (* the debug line applies [.join] to the [null] that [match]
         gives on an empty string; otherwise the header check fails *)
      if dbg then throw TypeError else ret tt
  | header :: fields =>
      if negb (byteZ header =? Constants.HEADER_BYTE) then ret tt
      else
        match fields with
        | lengthByte :: commandByte :: statusHi :: statusLo :: _ =>
            let dataLength := byteZ lengthByte in
            let commandCode := byteZ commandByte in
            let statusCode := 256 * byteZ statusHi + byteZ statusLo in
            let payloadStartIndex := 5 in
            let payloadEndIndex := payloadStartIndex + dataLength in
            let payload := slice payloadStartIndex payloadEndIndex buffer in
            m <- gets mode ;;
            state <- gets autoModeState ;;
            scanning <- gets isScanning ;;
            if (commandCode =? Constants.CMD_START_APP)
               && String.eqb (toHex buffer) APP_START_ACK then
              if isAutoMode m then
                modify (set_autoModeState 2) ;;;
                sendWithCrc (fromHex Constants.HEX_SCAN_START)
              else ret tt
            else if commandCode =? Constants.CMD_GET_RUNNING_STAGE then
              let runningStage := option_map byteZ (head payload) in
              if bool_decide (runningStage = Some Constants.STAGE_APP) then
                if isAutoMode m && (state =? 1) then
                  modify (set_autoModeState 2) ;;;
                  sendWithCrc (fromHex Constants.HEX_SCAN_START)
                else ret tt
              else if bool_decide (runningStage = Some Constants.STAGE_BOOTLOADER)
              then
                if isAutoMode m && (state =? 1) then
                  modify (set_autoModeState 0) ;;;
                  sendWithCrc (fromHex Constants.HEX_START_APP)
                else ret tt
              else ret tt
            else if scanning
                    && ((commandCode =? Constants.CMD_RFID_INVENTORY)
                        || (commandCode =? Constants.CMD_MULTI_TAG_INVENTORY))
                    && (statusCode =? Constants.STATUS_SUCCESS) then
              let epcHex := epcHexOf payload in
              if String.eqb m Constants.MODE_READ_TAG then readTagObserve epcHex
              else countObserve epcHex
            else ret tt
        | _ =>
            (* [buffer.readUInt16BE(3)] on fewer than five bytes *)
            throw RangeError
        end
  end.

(** ** [startAutoMode] and its timeout *)

Definition startAutoMode : M unit :=
  sendWithCrc (fromHex Constants.HEX_START_APP) ;;;
  modify (set_autoModeState 1) ;;;
  _ <- setTimeout CbHandshakeTimeout 2000 ;;
  ret tt.

(** The arrow function given to [setTimeout]. *)
Definition handshakeTimeout : M unit :=
  state <- gets autoModeState ;;
  if state =? 1 then sendWithCrc (fromHex Constants.HEX_GET_RUNNING_STAGE)
  else ret tt.

Definition runCallback (cb : Callback) : M unit :=
  match cb with
  | CbLogScannedTags => logScannedTags
  | CbHandshakeTimeout => handshakeTimeout
  end.

(** The event loop runs the callback of the timer [h]; a timeout is
    spent by firing, an interval stays. *)
Definition fireTimer (h : nat) : M unit :=
  ts <- gets timers ;;
  match find (fun t => Nat.eqb (handle t) h) ts with
  | None => ret tt
  | Some t =>
      (if repeating t then ret tt else clearInterval h) ;;;
      runCallback (callback t)
  end.

(** ** [parseInventoryData]: inventory reload *)

(** The body of the [for] loop over the data rows; [i] is the row's
    position among the non-blank lines. *)
Definition loadRow (idIndex epcIndex itemIndex i : Z) (line : string)
  : M unit :=
  let values := split "," line in
  let rowId :=
    if negb (idIndex =? -1) then parseInt (at_index values idIndex)
    else Some i in
  match at_index values epcIndex with
  | None => throw TypeError          (* [undefined.trim()] *)
  | Some epcCell =>
      let epcKey := trim epcCell in
      itemName <-
        (if negb (itemIndex =? -1) then
           match at_index values itemIndex with
           | None => throw TypeError
           | Some itemCell => ret (trim itemCell)
           end
         else ret Constants.TSV_ITEM_ID_PLACEHOLDER) ;;
      if negb (String.eqb epcKey EmptyString) then
        modify (fun s =>
          set_inventoryData
            (<[epcKey := {| id := rowId; epc := epcKey; item := itemName |}]>
               (inventoryData s)) s)
      else ret tt
  end.

Fixpoint loadRows (idIndex epcIndex itemIndex i : Z) (rows : list string)
  : M unit :=
  match rows with
  | [] => ret tt
  | line :: rest =>
      loadRow idIndex epcIndex itemIndex i line ;;;
      loadRows idIndex epcIndex itemIndex (i + 1) rest
  end.

(** [csvData.split('\n').filter(line => line.trim() !== '')]. *)
Definition nonBlankLines (csvData : string) : list string :=
  filter (fun line => negb (String.eqb (trim line) EmptyString))
    (split "010" csvData).

Definition headersOf (headerLine : string) : list string :=
  map trim (split "," headerLine).

Definition parseInventoryData (csvData : string) : M unit :=
  modify (set_inventoryData ∅) ;;;
  match nonBlankLines csvData with
  | [] => ret tt
  | headerLine :: rows =>
      let headers := headersOf headerLine in
      let idIndex := indexOf "id" headers in
      let epcIndex := indexOf "EPC" headers in
      let itemIndex := indexOf "item" headers in
      if epcIndex =? -1 then ret tt
      else loadRows idIndex epcIndex itemIndex 1 rows
  end.

(** ** The frame reassembler: [port.on('data', ...)]

    The handler is given over the function it hands each frame to, so
    that it can be studied both with [parseResponse] and with a frame
    consumer that throws.  [W] is the closure state; the buffer is the
    handler's own variable [packetBuffer]. *)

Section DataHandler.

Context {W : Type}.
Variable debugOn : W -> bool.
Variable consume : list byte -> W -> Outcome W unit.

(** [emitted] records the frames handed to [consume], oldest first; the
    code keeps no such list, it is here to state what was emitted. *)
Record Port : Type :=
  { packetBuffer : list byte; closure : W; emitted : list (list byte) }.

Inductive LoopStep : Type :=
| Continue (p : Port)
| Break (p : Port)
| Escape (e : Exn) (p : Port).

(** [1 + 1 + 1 + 2 + dataLengthFromField + 2]. *)
Definition totalPacketLength (dataLengthFromField : Z) : Z :=
  1 + 1 + 1 + 2 + dataLengthFromField + 2.

(** The [catch] block: with debug logging on, its log line reads
    [packet], which is declared inside the [try] block and so is not in
    scope: a [ReferenceError] leaves the handler before the buffer is
    reset. *)
Definition catchBlock (buf : list byte) (w : W) (log : list (list byte))
  : LoopStep :=
  if debugOn w
  then Escape ReferenceError
         {| packetBuffer := buf; closure := w; emitted := log |}
  else Break {| packetBuffer := []; closure := w; emitted := log |}.

(** One turn of the [while] loop, entered with at least 5 bytes. *)
Definition loopBody (p : Port) : LoopStep :=
  let buf := packetBuffer p in
  if negb (bool_decide (option_map byteZ (head buf) = Some Constants.HEADER_BYTE))
  then Continue {| packetBuffer := sliceFrom 1 buf; closure := closure p;
                   emitted := emitted p |}
  else
    match nth_error buf 1 with
    | None => catchBlock buf (closure p) (emitted p)   (* [readUInt8(1)] *)
    | Some lengthByte =>
        let dataLengthFromField := byteZ lengthByte in
        let total := totalPacketLength dataLengthFromField in
        if Z.of_nat (length buf) <? total then Break p
        else
          let packet := slice 0 total buf in
          match consume packet (closure p) with
          | Returned _ w' =>
              Continue {| packetBuffer := sliceFrom total buf; closure := w';
                          emitted := emitted p ++ [packet] |}
          | Thrown _ w' => catchBlock buf w' (emitted p ++ [packet])
          end
    end.

(** The [while (packetBuffer.length >= 5)] loop; every turn that goes
    on shortens the buffer, so [fuel] equal to its length is enough. *)
Fixpoint loop (fuel : nat) (p : Port) : option (Outcome Port unit) :=
  if Z.of_nat (length (packetBuffer p)) <? 5 then Some (Returned tt p)
  else
    match fuel with
    | O => None
    | S fuel' =>
        match loopBody p with
        | Continue p' => loop fuel' p'
        | Break p' => Some (Returned tt p')
        | Escape e p' => Some (Thrown e p')
        end
    end.

(** The handler; [None] would mean the loop did not finish. *)
Definition onData (data : list byte) (p : Port)
  : option (Outcome Port unit) :=
  let p1 := {| packetBuffer := packetBuffer p ++ data; closure := closure p;
               emitted := emitted p |} in
  loop (length (packetBuffer p1)) p1.

(** Chunks arriving one after the other; an exception that leaves the
    handler ends the run. *)
Fixpoint feed (chunks : list (list byte)) (p : Port)
  : option (Outcome Port unit) :=
  match chunks with
  | [] => Some (Returned tt p)
  | data :: rest =>
      match onData data p with
      | Some (Returned _ p') => feed rest p'
      | other => other
      end
  end.

(** [p] with [data] appended to its buffer. *)
Definition received_more (data : list byte) (p : Port) : Port :=
  {| packetBuffer := packetBuffer p ++ data; closure := closure p;
     emitted := emitted p |}.

End DataHandler.

Arguments Port : clear implicits.

(** * The vocabulary of the statements, and concrete runs *)

(** The handler of [index.js]: the loop around [parseResponse]. *)
Definition portLoopBody : Port State -> LoopStep :=
  loopBody isDbgLogEnabled parseResponse.

Definition portOnData : list byte -> Port State -> option (Outcome (Port State) unit) :=
  onData isDbgLogEnabled parseResponse.

Definition portFeed : list (list byte) -> Port State -> option (Outcome (Port State) unit) :=
  feed isDbgLogEnabled parseResponse.

(** [let packetBuffer = Buffer.alloc(0)]. *)
Definition initialPort (s : State) : Port State :=
  {| packetBuffer := []; closure := s; emitted := [] |}.

(** The frames handed to the consumer by the end of a run. *)
Definition emittedFrames {W : Type} (r : option (Outcome (Port W) unit))
  : list (list byte) :=
  match r with
  | Some o => emitted (stateOf o)
  | None => []
  end.

(** A clock reading for the concrete runs. *)
Definition example_clock : string := "2025-01-01T00:00:00.000Z".

(** Nine buffered bytes: a complete frame of seven, then two more. *)
Definition example_port : Port State :=
  {| packetBuffer := fromHex "ff00210000abcdff01";
     closure := initialState "auto" 5 true example_clock;
     emitted := [] |}.




(** The packet [sendWithCrc(data)] gives to [port.write]. *)
Definition withCrc (data : list byte) : list byte :=
  data ++ [byteOfZ (Z.shiftr (CRC.calculate (tl data)) 8);
           byteOfZ (Z.land (CRC.calculate (tl data)) 0xFF)].

(** A reply to the running-stage query: command 0x0C, a payload of at
    least one byte whose first byte is the stage. *)
Definition stageReply (lengthByte statusHi statusLo stage : byte)
  (rest : list byte) : list byte :=
  Byte.xff :: lengthByte :: Byte.x0c :: statusHi :: statusLo :: stage :: rest.

(** The states of one run: start-up in auto mode, [startAutoMode], the
    timeout firing, then a running-stage reply that says "bootloader". *)
Definition auto_start : State := initialState "auto" 5 true example_clock.

Definition auto_requested : State := stateOf (startAutoMode auto_start).

Definition auto_queried : State := stateOf (fireTimer 1 auto_requested).

Definition bootloader_reply : list byte := fromHex "ff010c0000110000".

Definition application_reply : list byte := fromHex "ff010c0000120000".

Definition auto_after_bootloader : State :=
  stateOf (parseResponse bootloader_reply auto_queried).

(** Whether a handshake timeout is pending. *)
Definition timeoutArmed (s : State) : bool :=
  existsb (fun t => match callback t with
                    | CbHandshakeTimeout => true
                    | CbLogScannedTags => false
                    end) (timers s).

(** The table after one more observation of [id]. *)
Definition observe (ident : string) (scans : JsMap.t Z) : JsMap.t Z :=
  JsMap.set ident
    ((match JsMap.get ident scans with Some c => c | None => 0 end) + 1) scans.

(** The table of a session's observations, oldest first. *)
Definition tableOf (obs : list string) : JsMap.t Z :=
  fold_left (fun scans ident => observe ident scans) obs JsMap.empty.

(** How many times [ident] was observed. *)
Fixpoint occurrences (ident : string) (obs : list string) : Z :=
  match obs with
  | [] => 0
  | x :: rest =>
      (if String.eqb ident x then 1 else 0) + occurrences ident rest
  end.

(** The identifiers reported after each observation of [obs], starting
    from the table [scans]. *)
Fixpoint reportsFrom (scans : JsMap.t Z) (obs : list string) : list string :=
  match obs with
  | [] => []
  | ident :: rest =>
      let scans' := observe ident scans in
      mostFrequent scans' :: reportsFrom scans' rest
  end.

(** The test of the tag-read branch of [parseResponse] on the frame:
    header, one of the two tag-read commands, status success. *)
Definition isTagRead (frame : list byte) : bool :=
  match frame with
  | header :: _ :: commandByte :: statusHi :: statusLo :: _ =>
      (byteZ header =? Constants.HEADER_BYTE)
      && ((byteZ commandByte =? Constants.CMD_RFID_INVENTORY)
          || (byteZ commandByte =? Constants.CMD_MULTI_TAG_INVENTORY))
      && (256 * byteZ statusHi + byteZ statusLo =? Constants.STATUS_SUCCESS)
  | _ => false
  end.

(** [buffer.slice(5, 5 + buffer[1])]. *)
Definition payloadOf (frame : list byte) : list byte :=
  match frame with
  | _ :: lengthByte :: _ => slice 5 (5 + byteZ lengthByte) frame
  | _ => []
  end.

(** The identifier [parseResponse] reads in a tag-read frame. *)
Definition identifierOf (frame : list byte) : string :=
  epcHexOf (payloadOf frame).

(** Frames handled one after the other. *)
Definition handleAll (frames : list (list byte)) (s : State) : State :=
  fold_left (fun s frame => stateOf (parseResponse frame s)) frames s.

(** A read-tag session with one open subscriber, as the [read-tag]
    command of the web client opens it, and two tags. *)
Definition read_tag_session : State :=
  stateOf
    (sendWithCrc (fromHex Constants.HEX_SCAN_START)
       (set_wsClients [{| readyState := 1; received := [] |}]
          (initialState "read-tag" 5 true example_clock))).

(** Tag-read frames of the tags AAAAAAAA and BBBBBBBB: a payload of 5
    bytes, the 4 bytes of the tag and 2 more, then two CRC bytes. *)
Definition tag_frame_A : list byte :=
  fromHex "ff0b2100000000000000aaaaaaaa00000000".

Definition tag_frame_B : list byte :=
  fromHex "ff0b2100000000000000bbbbbbbb00000000".

(** The state a flush leaves: the window table is cleared and, when
    there is at least one record, every open subscriber is sent the
    batch; nothing else changes. *)
Definition afterFlush (s : State) : State :=
  match inventoryUpdates s with
  | [] => set_scannedTagsRefresh JsMap.empty s
  | _ :: _ =>
      set_wsClients
        (map (sendIfOpen (MsgUpdates (inventoryUpdates s))) (wsClients s))
        (set_scannedTagsRefresh JsMap.empty s)
  end.

(** The line feed that separates the rows of the inventory text. *)
Definition newline : string := String "010" EmptyString.

(** Auto (unfiltered) mode, one open subscriber, no inventory loaded;
    a scan is started and the tag AAAAAAAA is read once. *)
Definition unfiltered_scan : State :=
  stateOf
    (parseResponse tag_frame_A
       (stateOf
          (sendWithCrc (fromHex Constants.HEX_SCAN_START)
             (set_wsClients [{| readyState := 1; received := [] |}]
                (initialState "auto" 5 true example_clock))))).

(** Inventory mode with the inventory of one item, one open subscriber;
    a scan is started and the tag AAAAAAAA is read once. *)
Definition filtered_scan : State :=
  stateOf
    (parseResponse tag_frame_A
       (stateOf
          (sendWithCrc (fromHex Constants.HEX_SCAN_START)
             (set_wsClients [{| readyState := 1; received := [] |}]
                (stateOf
                   (parseInventoryData
                      ("id,EPC,item" ++ newline ++ "9,AAAAAAAA,soldering-iron")
                      (initialState "inventory" 5 true example_clock))))))).

(** An inventory of one item, and an inventory text whose header has
    no [EPC] column. *)
Definition good_csv : string :=
  "id,EPC,item" ++ newline ++ "9,E28069150000401F7AB919BB,soldering-iron".

Definition csv_without_epc : string := "id,item" ++ newline ++ "9,soldering-iron".

(** The index after a first, well-formed load. *)
Definition loaded_inventory : State :=
  stateOf (parseInventoryData good_csv (initialState "inventory" 5 true example_clock)).

(** A tag-read frame with an empty payload. *)
Definition empty_payload_frame : list byte := fromHex "ff002100000000".

(** The test [parseResponse] makes to recognise the acknowledgment of
    the app-start command: the command code and the whole frame, CRC
    bytes included, rendered in hex. *)
Definition isAppStartAck (frame : list byte) : bool :=
  match frame with
  | _ :: _ :: commandByte :: _ =>
      (byteZ commandByte =? Constants.CMD_START_APP)
      && String.eqb (toHex frame) APP_START_ACK
  | _ => false
  end.

(** The acknowledgment literal, and the same frame with its last CRC
    byte changed. *)
Definition ack_frame : list byte := fromHex APP_START_ACK.

Definition ack_frame_other_crc : list byte :=
  fromHex "ff1404000000000000a4000300202205232205230000000010377d".

(** * More of [index.js]: the inventory file, the web client's commands,
      runs of handlers *)

Definition set_mode (v : string) (s : State) : State :=
  {| mode := v; inventoryMode := inventoryMode s;
     refreshPeriod := refreshPeriod s; isDbgLogEnabled := isDbgLogEnabled s;
     autoModeState := autoModeState s; isScanning := isScanning s;
     refreshIntervalId := refreshIntervalId s;
     scannedTagsCumulative := scannedTagsCumulative s;
     scannedTagsRefresh := scannedTagsRefresh s;
     inventoryData := inventoryData s; wsClients := wsClients s;
     readTagScans := readTagScans s; portWrites := portWrites s;
     timers := timers s; nextHandle := nextHandle s; now := now s |}.

Definition set_now (v : string) (s : State) : State :=
  {| mode := mode s; inventoryMode := inventoryMode s;
     refreshPeriod := refreshPeriod s; isDbgLogEnabled := isDbgLogEnabled s;
     autoModeState := autoModeState s; isScanning := isScanning s;
     refreshIntervalId := refreshIntervalId s;
     scannedTagsCumulative := scannedTagsCumulative s;
     scannedTagsRefresh := scannedTagsRefresh s;
     inventoryData := inventoryData s; wsClients := wsClients s;
     readTagScans := readTagScans s; portWrites := portWrites s;
     timers := timers s; nextHandle := nextHandle s; now := v |}.

(** [loadInventory(filePath)]: [fileText] is what [fs.readFileSync]
    returns, [None] when it throws.  Whatever is thrown inside the [try]
    block is caught and only logged. *)
Definition loadInventory (fileText : option string) : M unit :=
  fun s =>
    match fileText with
    | None => Returned tt s
    | Some data =>
        match parseInventoryData data s with
        | Returned _ s' => Returned tt s'
        | Thrown _ s' => Returned tt s'
        end
    end.

(** JavaScript truthiness of a string that may be [undefined]. *)
Definition truthy (x : option string) : bool :=
  match x with
  | Some (String _ _) => true
  | _ => false
  end.

(** The branches of [ws.on('message', ...)] for the commands [start],
    [stop] and [read-tag]; [inventoryFilePath] is the closure variable
    of that name. *)
Definition wsStart (inventoryFilePath : option string) : M unit :=
  modify (set_mode (if truthy inventoryFilePath
                    then Constants.MODE_INVENTORY else Constants.MODE_AUTO)) ;;;
  modify (set_readTagScans JsMap.empty) ;;;
  sendWithCrc (fromHex Constants.HEX_SCAN_START).

Definition wsStop : M unit :=
  modify (set_readTagScans JsMap.empty) ;;;
  sendWithCrc (fromHex Constants.HEX_SCAN_STOP).

Definition wsReadTag : M unit :=
  modify (set_mode Constants.MODE_READ_TAG) ;;;
  modify (set_readTagScans JsMap.empty) ;;;
  sendWithCrc (fromHex Constants.HEX_SCAN_START).

(** [process.on('SIGINT', ...)]: the scan-stop command is sent; the
    process exits a second later, which ends the run. *)
Definition onSigint : M unit := sendWithCrc (fromHex Constants.HEX_SCAN_STOP).

(** What the event loop can run on the closure state: the handlers
    above, and the clock moving on. *)
Inductive Op : Type :=
| OpFrame (frame : list byte)
| OpTimer (h : nat)
| OpStartAutoMode
| OpLoadInventory (fileText : option string)
| OpParseInventory (csvData : string)
| OpWsStart (inventoryFilePath : option string)
| OpWsStop
| OpWsReadTag
| OpSigint
| OpClock (clock : string).

Definition runOp (op : Op) : M unit :=
  match op with
  | OpFrame frame => parseResponse frame
  | OpTimer h => fireTimer h
  | OpStartAutoMode => startAutoMode
  | OpLoadInventory fileText => loadInventory fileText
  | OpParseInventory csvData => parseInventoryData csvData
  | OpWsStart inventoryFilePath => wsStart inventoryFilePath
  | OpWsStop => wsStop
  | OpWsReadTag => wsReadTag
  | OpSigint => onSigint
  | OpClock clock => modify (set_now clock)
  end.

(** A run: each handler starts from the state the one before left,
    also when that one ended with an exception. *)
Definition runOps (ops : list Op) (s : State) : State :=
  fold_left (fun s op => stateOf (runOp op s)) ops s.

(** A frame as the reassembler cuts it: it starts with the header byte
    and has 5 + its length byte + 2 bytes. *)
Definition wellFramed (frame : list byte) : bool :=
  match frame with
  | header :: lengthByte :: _ =>
      (byteZ header =? Constants.HEADER_BYTE)
      && (Z.of_nat (length frame) =? totalPacketLength (byteZ lengthByte))
  | _ => false
  end.

(** A buffer the loop leaves alone: fewer than 5 bytes, or the start of
    a frame that is not complete yet. *)
Definition waiting (buf : list byte) : bool :=
  (Z.of_nat (length buf) <? 5)
  || match buf with
     | header :: lengthByte :: _ =>
         (byteZ header =? Constants.HEADER_BYTE)
         && (Z.of_nat (length buf) <? totalPacketLength (byteZ lengthByte))
     | _ => false
     end.

Definition notHeader (b : byte) : bool :=
  negb (byteZ b =? Constants.HEADER_BYTE).

(** Whether an observation of [ident] is counted outside read-tag
    mode: always without filtering, else when the index knows it. *)
Definition counted (s : State) (ident : string) : bool :=
  negb (inventoryMode s) || bool_decide (is_Some (inventoryData s !! ident)).

(** The count an identifier has in a scan table, 0 when absent. *)
Definition countIn (table : JsMap.t ScanEntry) (ident : string) : Z :=
  match JsMap.get ident table with
  | Some entry => count entry
  | None => 0
  end.

Definition isFlushTimer (t : Timer) : bool :=
  match callback t with
  | CbLogScannedTags => true
  | CbHandshakeTimeout => false
  end.

(** The handles of the pending flush intervals. *)
Definition flushHandles (s : State) : list nat :=
  map handle (filter isFlushTimer (timers s)).

(** The timers are as the code creates them (distinct handles below
    the next one, intervals for the flush and timeouts for the
    handshake), and the flush interval is pending exactly while a scan
    is on, under the handle [refreshIntervalId] holds. *)
Definition scheduled (s : State) : Prop :=
  List.NoDup (map handle (timers s)) /\
  Forall (fun t => (handle t < nextHandle s)%nat
                   /\ repeating t = isFlushTimer t) (timers s) /\
  match isScanning s, refreshIntervalId s with
  | true, Some h => flushHandles s = [h]
  | true, None => False
  | false, _ => flushHandles s = []
  end.

(** Every count is at least 1, and what the window table counts the
    cumulative table counts too, at least as high. *)
Definition windowWithinCumulative (s : State) : Prop :=
  (forall ident entry,
      JsMap.get ident (scannedTagsCumulative s) = Some entry -> 1 <= count entry) /\
  (forall ident entry,
      JsMap.get ident (scannedTagsRefresh s) = Some entry ->
      1 <= count entry <= countIn (scannedTagsCumulative s) ident).

(** The timers after [if (refreshIntervalId) clearInterval(refreshIntervalId)]. *)
Definition clearedTimers (s : State) : list Timer :=
  match refreshIntervalId s with
  | Some h => filter (fun t => negb (Nat.eqb (handle t) h)) (timers s)
  | None => timers s
  end.

(** What [sendWithCrc(data)] leaves, by the kind of command. *)
Definition afterSend (data : list byte) (s : State) : State :=
  let written := set_portWrites (portWrites s ++ [withCrc data]) s in
  let cleared := clearedTimers s in
  if String.prefix Constants.HEX_SCAN_START (toHex data) then
    set_refreshIntervalId (Some (nextHandle s))
      (set_nextHandle (S (nextHandle s))
         (set_timers
            (cleared ++
             [{| handle := nextHandle s; callback := CbLogScannedTags;
                 delay := refreshPeriod s * 1000; repeating := true |}])
            (set_scannedTagsRefresh JsMap.empty
               (set_scannedTagsCumulative JsMap.empty
                  (set_isScanning true written)))))
  else if String.prefix Constants.HEX_SCAN_STOP (toHex data) && isScanning s then
    afterFlush (set_timers cleared (set_isScanning false written))
  else written.

(** Whether [parseResponse] has a branch for the frame in the state
    [s]: the header byte, then the acknowledgment, a running-stage
    reply, or a tag read while scanning. *)
Definition reactsTo (s : State) (frame : list byte) : bool :=
  match frame with
  | header :: _ :: commandByte :: _ =>
      (byteZ header =? Constants.HEADER_BYTE)
      && (isAppStartAck frame
          || (byteZ commandByte =? Constants.CMD_GET_RUNNING_STAGE)
          || (isScanning s && isTagRead frame))
  | _ => false
  end.

(** A data row on which [parseInventoryData] throws: it has no cell
    under the [EPC] column, or none under the [item] column the header
    has. *)
Definition rowTooShort (epcIndex itemIndex : Z) (line : string) : bool :=
  match at_index (split "," line) epcIndex with
  | None => true
  | Some _ =>
      if itemIndex =? -1 then false
      else match at_index (split "," line) itemIndex with
           | None => true
           | Some _ => false
           end
  end.

(** The timers after [setTimeout(..., 2000)] of [startAutoMode]. *)
Definition withTimeout (s : State) : State :=
  set_nextHandle (S (nextHandle s))
    (set_timers
       (timers s ++
        [{| handle := nextHandle s; callback := CbHandshakeTimeout;
            delay := 2000; repeating := false |}]) s).

(** The state after [clearInterval(h)]. *)
Definition withoutTimer (h : nat) (s : State) : State :=
  set_timers (filter (fun t => negb (Nat.eqb (handle t) h)) (timers s)) s.

(** Inventory mode with the inventory of one item and one open
    subscriber, a scan just started. *)
Definition inventory_scan : State :=
  stateOf
    (sendWithCrc (fromHex Constants.HEX_SCAN_START)
       (set_wsClients [{| readyState := 1; received := [] |}]
          (stateOf
             (parseInventoryData
                ("id,EPC,item" ++ newline ++ "9,AAAAAAAA,soldering-iron")
                (initialState "inventory" 5 true example_clock))))).

(** What the operator asks for (the commands of the web client, the
    interrupt from the console), as opposed to what the device and the
    timers make the server run. *)
Definition fromOperator (op : Op) : bool :=
  match op with
  | OpWsStart _ | OpWsStop | OpWsReadTag | OpSigint => true
  | _ => false
  end.

(** The scan-start, scan-stop, app-start and running-stage commands. *)
Definition scanStart : list byte := fromHex Constants.HEX_SCAN_START.


Definition startApp : list byte := fromHex Constants.HEX_START_APP.

Definition getRunningStage : list byte := fromHex Constants.HEX_GET_RUNNING_STAGE.

(** [inventoryMode && !inventoryFilePath]: the test before each
    [process.exit(1)]. *)
Definition missingInventoryFile (filtered : bool)
  (inventoryFilePath : option string) : bool :=
  filtered && negb (truthy inventoryFilePath).

(** The start-up logic at the end of [main]; [None] stands for
    [process.exit(1)].  Both branches of its test of the mode call
    [startAutoMode]. *)
Definition startUp (inventoryFilePath fileText : option string)
  : State -> option (Outcome State unit) :=
  fun s =>
    if missingInventoryFile (inventoryMode s) inventoryFilePath then None
    else
      Some (((if truthy inventoryFilePath then loadInventory fileText else ret tt) ;;;
             m <- gets mode ;;
             if isAutoMode m then startAutoMode else startAutoMode) s).

(** [port.on('open', ...)]. *)
Definition onOpen (inventoryFilePath fileText : option string)
  : State -> option (Outcome State unit) :=
  fun s =>
    if missingInventoryFile (inventoryMode s) inventoryFilePath then None
    else
      Some (((if truthy inventoryFilePath then loadInventory fileText else ret tt) ;;;
             m <- gets mode ;;
             if isAutoMode m then startAutoMode else ret tt) s).

(** The handles of the pending handshake timeouts. *)
Definition timeoutHandles (s : State) : list nat :=
  map handle (filter (fun t => negb (isFlushTimer t)) (timers s)).

(** * The page: the message handler of [web-app/app.js] *)

(** An element of the page's [inventoryData]. *)
Record Row : Type :=
  { r_id : option Z; r_epc : string; r_item : string;
    r_count : Z; r_timestamp : option string }.

(** An entry of [itemSummary]. *)
Record Summary : Type := { s_count : Z; s_lastScanned : option string }.

(** What [JSON.parse(event.data)] gives for the three kinds of message. *)
Inductive Payload : Type :=
| InitialInventory (items : list Item)
| Updates (updates : list Update)
| Epc (epcText : string).

(** The two messages [index.js] sends with [wsClients.forEach], as the
    page parses them. *)
Definition parsed (msg : Message) : Payload :=
  match msg with
  | MsgEpc epcText => Epc epcText
  | MsgUpdates updates => Updates updates
  end.

(** The page: [inventoryData], the summary handed to the last
    [renderTables], the text of the last scanned EPC and whether its
    container is visible. *)
Record Page : Type :=
  { p_inventoryData : list Row;
    p_itemSummary : JsMap.t Summary;
    p_lastScannedEpc : string;
    p_readTagVisible : bool }.

(** [item.count = c; item.timestamp = t]. *)
Definition withScan (c : Z) (t : option string) (r : Row) : Row :=
  {| r_id := r_id r; r_epc := r_epc r; r_item := r_item r;
     r_count := c; r_timestamp := t |}.

(** [({...item, count: 0, timestamp: null})]. *)
Definition rowOfItem (it : Item) : Row :=
  {| r_id := id it; r_epc := epc it; r_item := item it;
     r_count := 0; r_timestamp := None |}.

(** The body of [data.updates.forEach]: the first element of
    [inventoryData] with the update's EPC, if any, takes its count and
    timestamp. *)
Fixpoint applyUpdate (update : Update) (rows : list Row) : list Row :=
  match rows with
  | [] => []
  | r :: rest =>
      if String.eqb (r_epc r) (u_epc update)
      then withScan (u_count update) (Some (u_timestamp update)) r :: rest
      else r :: applyUpdate update rest
  end.

(** The body of the [inventoryData.forEach] that builds [itemSummary].
    [None] stands for a comparison the model does not interpret:
    [item.timestamp > lastScanned] with a [null] timestamp. *)
Definition summaryTurn (acc : option (JsMap.t Summary)) (r : Row)
  : option (JsMap.t Summary) :=
  match acc with
  | None => None
  | Some itemSummary =>
      let currentItemSummary :=
        match JsMap.get (r_item r) itemSummary with
        | Some entry => entry
        | None => {| s_count := 0; s_lastScanned := None |}
        end in
      if r_count r >? 0 then
        if negb (truthy (s_lastScanned currentItemSummary)) then
          Some (JsMap.set (r_item r)
                  {| s_count := s_count currentItemSummary + 1;
                     s_lastScanned := r_timestamp r |} itemSummary)
        else
          match r_timestamp r, s_lastScanned currentItemSummary with
          | Some stamp, Some last =>
              Some (JsMap.set (r_item r)
                      {| s_count := s_count currentItemSummary + 1;
                         s_lastScanned :=
                           if String.ltb last stamp then Some stamp
                           else Some last |} itemSummary)
          | _, _ => None
          end
      else Some (JsMap.set (r_item r) currentItemSummary itemSummary)
  end.

Definition summarise (rows : list Row) : option (JsMap.t Summary) :=
  fold_left summaryTurn rows (Some JsMap.empty).

(** [ws.onmessage]. *)
Definition onMessage (data : Payload) (p : Page) : option Page :=
  match data with
  | InitialInventory items =>
      Some {| p_inventoryData := map rowOfItem items;
              p_itemSummary := JsMap.empty;
              p_lastScannedEpc := p_lastScannedEpc p;
              p_readTagVisible := p_readTagVisible p |}
  | Updates updates =>
      let cleared := map (withScan 0 None) (p_inventoryData p) in
      let rows := fold_left (fun rows update => applyUpdate update rows)
                    updates cleared in
      match summarise rows with
      | Some itemSummary =>
          Some {| p_inventoryData := rows;
                  p_itemSummary := itemSummary;
                  p_lastScannedEpc := p_lastScannedEpc p;
                  p_readTagVisible := false |}
      | None => None
      end
  | Epc epcText =>
      if truthy (Some epcText) then
        Some {| p_inventoryData := p_inventoryData p;
                p_itemSummary := p_itemSummary p;
                p_lastScannedEpc := epcText;
                p_readTagVisible := true |}
      else Some p
  end.

(** The page handling the messages a subscriber was sent, oldest
    first. *)
Definition onMessages (msgs : list Message) (p : Page) : option Page :=
  fold_left (fun acc msg =>
               match acc with
               | Some page => onMessage (parsed msg) page
               | None => None
               end) msgs (Some p).

(** What [update] does to one element of [inventoryData]. *)
Definition updateRow (update : Update) (r : Row) : Row :=
  if String.eqb (r_epc r) (u_epc update)
  then withScan (u_count update) (Some (u_timestamp update)) r
  else r.

(** How many elements of [inventoryData] with the item name [name]
    have a positive count. *)
Definition scannedOf (name : string) (rows : list Row) : Z :=
  Z.of_nat (length (List.filter
                      (fun r => String.eqb (r_item r) name && (r_count r >? 0))
                      rows)).

(** The count of an item name in a summary, 0 when absent. *)
Definition summaryCount (itemSummary : JsMap.t Summary) (name : string) : Z :=
  match JsMap.get name itemSummary with
  | Some entry => s_count entry
  | None => 0
  end.

(** A page with two items that still shows the counts of an earlier
    batch, and the placeholder of the read-tag field. *)
Definition example_page : Page :=
  {| p_inventoryData :=
       [{| r_id := Some 9; r_epc := "AAAAAAAA"; r_item := "soldering-iron";
           r_count := 7; r_timestamp := Some example_clock |};
        {| r_id := Some 10; r_epc := "CCCCCCCC"; r_item := "pliers";
           r_count := 3; r_timestamp := Some example_clock |}];
     p_itemSummary := JsMap.empty;
     p_lastScannedEpc := "Scanning...";
     p_readTagVisible := true |}.

(** What the batch [updates] leaves of one element of
    [inventoryData]: it is reset, then takes every update of its EPC. *)
Definition shownRow (updates : list Update) (r : Row) : Row :=
  fold_left (fun r update => updateRow update r) updates (withScan 0 None r).

(** A subscriber after [msgs] were sent to it with [sendIfOpen], oldest
    first. *)
Definition deliver (msgs : list Message) (c : Client) : Client :=
  if readyState c =? 1
  then {| readyState := readyState c; received := received c ++ msgs |}
  else c.

(** The last identifier of [reports] the page displays: the last one
    that is not empty, [shown] when there is none. *)
Definition lastShown (reports : list string) (shown : string) : string :=
  fold_left (fun text report => if truthy (Some report) then report else text)
    reports shown.

(** Every entry of the index is stored under its own EPC. *)
Definition keyedByEpc (s : State) : Prop :=
  forall (key : string) (it : Item),
    inventoryData s !! key = Some it -> epc it = key.

(** [Array.from(inventoryData.values())], the items of the
    [initialInventory] message a new connection and every upload are
    answered with.  The message lists them in the order of insertion,
    which the index as a finite map does not record: [items] is some
    enumeration of its entries. *)
Definition initialInventoryOf (s : State) (items : list Item) : Prop :=
  Permutation items (map snd (map_to_list (inventoryData s))).

(** * Properties *)

(** ** Bytes *)

Lemma byteZ_range (b : byte) : 0 <= byteZ b < 256.
Proof.
  unfold byteZ. pose proof (Byte.to_N_bounded b) as H.
  split; [apply N2Z.is_nonneg|]. apply (N2Z.inj_le _ 255) in H. lia.
Qed.

Lemma byteZ_byteOfZ (z : Z) : 0 <= z < 256 -> byteZ (byteOfZ z) = z.
Proof.
  intros Hz. unfold byteZ, byteOfZ.
  rewrite Z.mod_small by lia.
  destruct (Byte.of_N (Z.to_N z)) as [b|] eqn:E.
  - apply Byte.to_of_N in E. rewrite E. lia.
  - apply Byte.of_N_None_iff in E. lia.
Qed.

(** ** Bit-level facts used by the CRC proofs *)

Lemma land_pow2 (v k : Z) :
  0 <= k -> Z.land v (2 ^ k) = if Z.testbit v k then 2 ^ k else 0.
Proof.
  intros Hk. apply Z.bits_inj'. intros n Hn.
  rewrite Z.land_spec, Z.pow2_bits_eqb by lia.
  destruct (Z.eqb_spec k n) as [->|Hne].
  - destruct (Z.testbit v n) eqn:E; simpl.
    + now rewrite Z.pow2_bits_eqb, Z.eqb_refl by lia.
    + now rewrite Z.bits_0.
  - rewrite andb_false_r.
    destruct (Z.testbit v k).
    + rewrite Z.pow2_bits_eqb by lia. symmetry. now apply Z.eqb_neq.
    + now rewrite Z.bits_0.
Qed.

Lemma high_bits_of_small (x n : Z) :
  0 <= x < 2 ^ 16 -> 16 <= n -> Z.testbit x n = false.
Proof.
  intros Hx Hn. rewrite <- (Z.mod_small x (2 ^ 16)) by lia.
  apply Z.mod_pow2_bits_high. lia.
Qed.

Lemma small_of_high_bits (x : Z) :
  0 <= x -> (forall n, 16 <= n -> Z.testbit x n = false) -> x < 2 ^ 16.
Proof.
  intros Hx Hbits.
  assert (E : x mod 2 ^ 16 = x).
  { apply Z.bits_inj'. intros n Hn.
    destruct (Z.lt_ge_cases n 16).
    - apply Z.mod_pow2_bits_low; lia.
    - rewrite Z.mod_pow2_bits_high by lia. symmetry. now apply Hbits. }
  rewrite <- E. apply Z.mod_pos_bound. lia.
Qed.

Lemma lor_16 (a b : Z) :
  0 <= a < 2 ^ 16 -> 0 <= b < 2 ^ 16 -> 0 <= Z.lor a b < 2 ^ 16.
Proof.
  intros Ha Hb. split; [apply Z.lor_nonneg; lia|].
  apply small_of_high_bits; [apply Z.lor_nonneg; lia|].
  intros n Hn. now rewrite Z.lor_spec, !high_bits_of_small.
Qed.

Lemma lxor_16 (a b : Z) :
  0 <= a < 2 ^ 16 -> 0 <= b < 2 ^ 16 -> 0 <= Z.lxor a b < 2 ^ 16.
Proof.
  intros Ha Hb. split; [apply Z.lxor_nonneg; lia|].
  apply small_of_high_bits; [apply Z.lxor_nonneg; lia|].
  intros n Hn. now rewrite Z.lxor_spec, !high_bits_of_small.
Qed.

(** ** The CRC engine against its reference *)

Lemma bit_step_range (reg : Z) (bit : bool) :
  0 <= CrcReference.bit_step reg bit < 2 ^ 16.
Proof.
  unfold CrcReference.bit_step.
  assert (Hs : 0 <= (2 * reg) mod 2 ^ 16 < 2 ^ 16) by (apply Z.mod_pos_bound; lia).
  assert (Hm : 0 <= Z.lor ((2 * reg) mod 2 ^ 16) (Z.b2z bit) < 2 ^ 16).
  { apply lor_16; [exact Hs|]. destruct bit; simpl; lia. }
  destruct (Z.testbit reg 15); [apply lxor_16; [exact Hm|lia] | exact Hm].
Qed.

Lemma byte_step_range (reg : Z) (b : byte) :
  0 <= CrcReference.byte_step reg b < 2 ^ 16.
Proof.
  unfold CrcReference.byte_step, CrcReference.bits_msb_first.
  cbn [map fold_left]. apply bit_step_range.
Qed.

Lemma crc16_range (data : list byte) : 0 <= CrcReference.crc16 data < 2 ^ 16.
Proof.
  unfold CrcReference.crc16.
  assert (H : forall reg, 0 <= reg < 2 ^ 16 ->
                0 <= fold_left CrcReference.byte_step data reg < 2 ^ 16).
  { induction data as [|b data IH]; intros reg Hreg; simpl; [exact Hreg|].
    apply IH, byte_step_range. }
  apply H. lia.
Qed.

Lemma crc8_turn_spec (v k : Z) (c : CRC.t) :
  0 <= k -> CRC.poly_value c = 0x1021 ->
  CRC.crc8_turn v (c, 2 ^ k) =
  (CRC.mk (CRC.init_value c) (CRC.poly_value c)
     (CrcReference.bit_step (CRC.value c) (Z.testbit v k)),
   Z.shiftr (2 ^ k) 1).
Proof.
  intros Hk Hpoly. unfold CRC.crc8_turn, CrcReference.bit_step.
  f_equal. f_equal.
  change 0x8000 with (2 ^ 15). rewrite (land_pow2 (CRC.value c) 15) by lia.
  rewrite (land_pow2 v k) by lia.
  change 0xFFFF with (Z.ones 16).
  rewrite Z.land_ones, Z.shiftl_mul_pow2 by lia.
  replace (CRC.value c * 2 ^ 1) with (2 * CRC.value c) by lia.
  rewrite Hpoly.
  assert (Hpow : 0 < 2 ^ k) by (apply Z.pow_pos_nonneg; lia).
  destruct (Z.testbit v k), (Z.testbit (CRC.value c) 15); simpl Z.b2z;
    rewrite ?Z.eqb_refl;
    repeat match goal with
           | |- context [?a =? ?b] =>
               destruct (Z.eqb_spec a b); try lia
           | |- context [?a >? ?b] =>
               let E := fresh in
               destruct (a >? b) eqn:E; try (apply Z.gtb_lt in E; lia);
               try (rewrite Z.gtb_ltb in E; apply Z.ltb_ge in E; lia)
           end; reflexivity.
Qed.

Lemma crc8_spec (b : byte) (c : CRC.t) :
  CRC.poly_value c = 0x1021 ->
  CRC.crc8 (byteZ b) c =
  CRC.mk (CRC.init_value c) (CRC.poly_value c)
    (CrcReference.byte_step (CRC.value c) b).
Proof.
  intros Hpoly. unfold CRC.crc8, Nat.iter. cbn [nat_rect].
  change 0x80 with (2 ^ 7).
  rewrite crc8_turn_spec by (try lia; exact Hpoly).
  change (Z.shiftr (2 ^ 7) 1) with (2 ^ 6).
  rewrite crc8_turn_spec by (try lia; exact Hpoly).
  change (Z.shiftr (2 ^ 6) 1) with (2 ^ 5).
  rewrite crc8_turn_spec by (try lia; exact Hpoly).
  change (Z.shiftr (2 ^ 5) 1) with (2 ^ 4).
  rewrite crc8_turn_spec by (try lia; exact Hpoly).
  change (Z.shiftr (2 ^ 4) 1) with (2 ^ 3).
  rewrite crc8_turn_spec by (try lia; exact Hpoly).
  change (Z.shiftr (2 ^ 3) 1) with (2 ^ 2).
  rewrite crc8_turn_spec by (try lia; exact Hpoly).
  change (Z.shiftr (2 ^ 2) 1) with (2 ^ 1).
  rewrite crc8_turn_spec by (try lia; exact Hpoly).
  change (Z.shiftr (2 ^ 1) 1) with (2 ^ 0).
  rewrite crc8_turn_spec by (try lia; exact Hpoly).
  reflexivity.
Qed.

Lemma calculate_obj_spec (data : list byte) (c : CRC.t) :
  CRC.poly_value c = 0x1021 ->
  CRC.calculate_obj data c =
  CRC.mk (CRC.init_value c) (CRC.poly_value c)
    (fold_left CrcReference.byte_step data (CRC.init_value c)).
Proof.
  intros Hpoly. unfold CRC.calculate_obj.
  assert (H : forall d, CRC.poly_value d = 0x1021 ->
            fold_left (fun c b => CRC.crc8 (byteZ b) c) data d =
            CRC.mk (CRC.init_value d) (CRC.poly_value d)
              (fold_left CrcReference.byte_step data (CRC.value d))).
  { induction data as [|b data IH]; intros d Hd; simpl.
    - now destruct d.
    - rewrite crc8_spec by exact Hd. now rewrite IH. }
  now rewrite H.
Qed.

Lemma calculate_reference (data : list byte) :
  CRC.calculate data = CrcReference.crc16 data.
Proof.
  unfold CRC.calculate. now rewrite calculate_obj_spec.
Qed.

(** ** Slices *)

Lemma slice_prefix {A : Type} (n : Z) (l : list A) :
  0 <= n <= Z.of_nat (length l) -> slice 0 n l = firstn (Z.to_nat n) l.
Proof.
  intros Hn. unfold slice, clampIndex.
  destruct (Z.ltb_spec 0 0); [lia|]. destruct (Z.ltb_spec n 0); [lia|].
  rewrite !Z.min_l by lia. simpl. f_equal. lia.
Qed.

Lemma sliceFrom_suffix {A : Type} (n : Z) (l : list A) :
  0 <= n <= Z.of_nat (length l) -> sliceFrom n l = skipn (Z.to_nat n) l.
Proof.
  intros Hn. unfold sliceFrom, slice, clampIndex.
  destruct (Z.ltb_spec n 0); [lia|].
  destruct (Z.ltb_spec (Z.of_nat (length l)) 0); [lia|].
  rewrite !Z.min_l by lia.
  apply firstn_all2. rewrite length_skipn. lia.
Qed.

Lemma sliceFrom_1 {A : Type} (l : list A) : sliceFrom 1 l = tl l.
Proof.
  destruct l as [|a l]; [reflexivity|].
  rewrite sliceFrom_suffix by (simpl length; lia). reflexivity.
Qed.

(** ** Running the state computations *)

Ltac unfold_m :=
  cbv beta iota zeta delta
    [bind modify gets ret throw portWrite broadcast clearInterval setInterval
     setTimeout setTimer].

(** Closed facts about concrete runs are settled by evaluation. *)
Ltac by_computation :=
  repeat match goal with |- _ /\ _ => split end; vm_compute; reflexivity.

Ltac split_ifs :=
  repeat match goal with
         | |- context [if ?b then _ else _] => destruct b eqn:?
         | |- context [match ?o with Some _ => _ | None => _ end] =>
             destruct o eqn:?
         | |- context [match ?l with [] => _ | _ :: _ => _ end] =>
             destruct l eqn:?
         end.

Lemma writeUInt16BE_crc (data : list byte) (s : State) :
  writeUInt16BE (CRC.calculate data) s =
  Returned [byteOfZ (Z.shiftr (CRC.calculate data) 8);
            byteOfZ (Z.land (CRC.calculate data) 0xFF)] s.
Proof.
  unfold writeUInt16BE.
  pose proof (crc16_range data) as H. rewrite <- calculate_reference in H.
  destruct (Z.leb_spec 0 (CRC.calculate data)); [|lia].
  destruct (Z.leb_spec (CRC.calculate data) 0xFFFF); [|lia].
  reflexivity.
Qed.

Lemma logScannedTags_returns (s : State) :
  logScannedTags s = Returned tt (stateOf (logScannedTags s)).
Proof.
  unfold logScannedTags. unfold_m. split_ifs; reflexivity.
Qed.

Lemma logScannedTags_portWrites (s : State) :
  portWrites (stateOf (logScannedTags s)) = portWrites s.
Proof.
  unfold logScannedTags. unfold_m. split_ifs; reflexivity.
Qed.

Lemma sendWithCrc_spec (data : list byte) (s : State) :
  exists s' : State,
    sendWithCrc data s = Returned tt s' /\
    portWrites s' =
    (portWrites s ++
     [data ++ [byteOfZ (Z.shiftr (CRC.calculate (tl data)) 8);
               byteOfZ (Z.land (CRC.calculate (tl data)) 0xFF)]])%list.
Proof.
  unfold sendWithCrc. unfold bind at 1. rewrite writeUInt16BE_crc.
  rewrite sliceFrom_1.
  unfold_m. split_ifs;
    try (eexists; split; reflexivity);
    match goal with
    | |- context [logScannedTags ?s] =>
        rewrite (logScannedTags_returns s); eexists; split; [reflexivity|];
        now rewrite logScannedTags_portWrites
    end.
Qed.

Lemma sendWithCrc_returns (data : list byte) (s : State) :
  sendWithCrc data s = Returned tt (stateOf (sendWithCrc data s)).
Proof.
  destruct (sendWithCrc_spec data s) as (s' & E & _). now rewrite E.
Qed.

Lemma sendWithCrc_portWrites (data : list byte) (s : State) :
  portWrites (stateOf (sendWithCrc data s)) =
  (portWrites s ++
   [data ++ [byteOfZ (Z.shiftr (CRC.calculate (tl data)) 8);
             byteOfZ (Z.land (CRC.calculate (tl data)) 0xFF)]])%list.
Proof.
  destruct (sendWithCrc_spec data s) as (s' & E & H). now rewrite E.
Qed.

Lemma uint16_big_endian (v : Z) :
  0 <= v < 2 ^ 16 ->
  256 * byteZ (byteOfZ (Z.shiftr v 8)) + byteZ (byteOfZ (Z.land v 0xFF)) = v.
Proof.
  intros Hv. change 0xFF with (Z.ones 8).
  rewrite Z.land_ones, Z.shiftr_div_pow2 by lia.
  rewrite !byteZ_byteOfZ.
  - change (2 ^ 8) with 256. pose proof (Z.div_mod v 256). lia.
  - apply Z.mod_pos_bound. lia.
  - change (2 ^ 8) with 256. split.
    + apply Z.div_pos; lia.
    + apply Z.div_lt_upper_bound; lia.
Qed.

(** C1. [CRC.calculate] is the reference CRC-16/CCITT (register 0xFFFF,
    bits most significant first, shift left truncated to 16 bits, OR in
    the bit, XOR with 0x1021 when the bit shifted out was set) on every
    byte sequence; and [sendWithCrc] returns having written to the port
    the command followed by exactly two bytes, the big-endian encoding
    of that value computed over the command's bytes after its first
    (header) byte. *)
Theorem C1_crc_is_ccitt_and_is_appended_big_endian :
  forall (data : list byte) (s : State),
    CRC.calculate data = CrcReference.crc16 data /\
    exists (hi lo : byte) (s' : State),
      sendWithCrc data s = Returned tt s' /\
      portWrites s' = (portWrites s ++ [data ++ [hi; lo]])%list /\
      256 * byteZ hi + byteZ lo = CrcReference.crc16 (tl data).
Proof.
  intros data s. split; [apply calculate_reference|].
  exists (byteOfZ (Z.shiftr (CRC.calculate (tl data)) 8)),
         (byteOfZ (Z.land (CRC.calculate (tl data)) 0xFF)),
         (stateOf (sendWithCrc data s)).
  split; [apply sendWithCrc_returns|].
  split; [apply sendWithCrc_portWrites|].
  rewrite uint16_big_endian; [apply calculate_reference|].
  rewrite calculate_reference. apply crc16_range.
Qed.

(** ** The reassembler's loop, for any frame consumer *)

Section DataHandlerFacts.

Context {W : Type}.
Variable debugOn : W -> bool.
Variable consume : list byte -> W -> Outcome W unit.

Local Abbreviation body := (loopBody debugOn consume).
Local Abbreviation run := (loop debugOn consume).

Lemma totalPacketLength_min (b : byte) : 7 <= totalPacketLength (byteZ b).
Proof. unfold totalPacketLength. pose proof (byteZ_range b). lia. Qed.

(** The three ways a turn of the loop can go when the buffer starts
    with the header byte and no exception is raised. *)
Lemma loopBody_header (p : Port W) (lengthByte : byte) :
  option_map byteZ (head (packetBuffer p)) = Some Constants.HEADER_BYTE ->
  nth_error (packetBuffer p) 1 = Some lengthByte ->
  let total := totalPacketLength (byteZ lengthByte) in
  let packet := firstn (Z.to_nat total) (packetBuffer p) in
  body p =
  if Z.of_nat (length (packetBuffer p)) <? total then Break p
  else match consume packet (closure p) with
       | Returned _ w' =>
           Continue {| packetBuffer := skipn (Z.to_nat total) (packetBuffer p);
                       closure := w'; emitted := emitted p ++ [packet] |}
       | Thrown _ w' =>
           catchBlock debugOn (packetBuffer p) w' (emitted p ++ [packet])
       end.
Proof.
  intros Hh Hl total packet. unfold loopBody.
  rewrite bool_decide_eq_true_2 by exact Hh. cbn [negb]. rewrite Hl.
  fold total. pose proof (totalPacketLength_min lengthByte).
  destruct (Z.ltb_spec (Z.of_nat (length (packetBuffer p))) total);
    [reflexivity|].
  rewrite slice_prefix, sliceFrom_suffix by (fold total; lia).
  reflexivity.
Qed.

Lemma loopBody_no_header (p : Port W) :
  option_map byteZ (head (packetBuffer p)) <> Some Constants.HEADER_BYTE ->
  body p =
  Continue {| packetBuffer := tl (packetBuffer p); closure := closure p;
              emitted := emitted p |}.
Proof.
  intros Hh. unfold loopBody.
  rewrite bool_decide_eq_false_2 by exact Hh. cbn [negb].
  now rewrite sliceFrom_1.
Qed.

Lemma second_byte (buf : list byte) :
  5 <= Z.of_nat (length buf) -> exists b, nth_error buf 1 = Some b.
Proof.
  destruct buf as [|a [|b buf]]; simpl; intros H; try lia. now exists b.
Qed.

(** A turn that goes on has shortened the buffer. *)
Lemma loopBody_shrinks (p p' : Port W) :
  5 <= Z.of_nat (length (packetBuffer p)) ->
  body p = Continue p' ->
  (length (packetBuffer p') < length (packetBuffer p))%nat.
Proof.
  intros Hlen Hb.
  destruct (decide (option_map byteZ (head (packetBuffer p))
                    = Some Constants.HEADER_BYTE)) as [Hh|Hh].
  - destruct (second_byte _ Hlen) as [b Hl].
    rewrite (loopBody_header p b Hh Hl) in Hb.
    pose proof (totalPacketLength_min b).
    destruct (Z.ltb_spec (Z.of_nat (length (packetBuffer p)))
                (totalPacketLength (byteZ b))); [discriminate|].
    destruct (consume _ _) as [u w'|e w'].
    + injection Hb as <-. cbn [packetBuffer]. rewrite length_skipn. lia.
    + unfold catchBlock in Hb. destruct (debugOn w'); discriminate.
  - rewrite (loopBody_no_header p Hh) in Hb. injection Hb as <-.
    cbn [packetBuffer]. destruct (packetBuffer p); simpl in *; lia.
Qed.

(** Termination: fuel equal to the buffer's length lets the loop end. *)
Lemma loop_enough (fuel : nat) :
  forall p : Port W, (length (packetBuffer p) <= fuel)%nat ->
    exists r, run fuel p = Some r.
Proof.
  induction fuel as [|fuel IH]; intros p Hf.
  - simpl. destruct (Z.ltb_spec (Z.of_nat (length (packetBuffer p))) 5);
      [eauto|lia].
  - simpl. destruct (Z.ltb_spec (Z.of_nat (length (packetBuffer p))) 5);
      [eauto|].
    destruct (body p) as [p'|p'|e p'] eqn:Hb; [|eauto|eauto].
    apply IH. pose proof (loopBody_shrinks p p' ltac:(lia) Hb). lia.
Qed.

(** More fuel does not change a finished loop. *)
Lemma loop_more_fuel (fuel : nat) :
  forall (p : Port W) (r : Outcome (Port W) unit) (fuel' : nat),
    run fuel p = Some r -> (fuel <= fuel')%nat -> run fuel' p = Some r.
Proof.
  induction fuel as [|fuel IH]; intros p r fuel' Hr Hf.
  - simpl in Hr. destruct fuel'; simpl;
      destruct (Z.of_nat (length (packetBuffer p)) <? 5); congruence.
  - destruct fuel' as [|fuel']; [lia|]. simpl in *.
    destruct (Z.of_nat (length (packetBuffer p)) <? 5); [exact Hr|].
    destruct (body p); try exact Hr. apply IH; [exact Hr|lia].
Qed.

Lemma loop_fuel_irrelevant (p : Port W) (f1 f2 : nat) :
  (length (packetBuffer p) <= f1)%nat -> (length (packetBuffer p) <= f2)%nat ->
  run f1 p = run f2 p.
Proof.
  intros H1 H2. destruct (loop_enough f1 p H1) as [r Hr].
  destruct (Nat.le_ge_cases f1 f2) as [Hle|Hle].
  - now rewrite Hr, (loop_more_fuel f1 p r f2 Hr Hle).
  - destruct (loop_enough f2 p H2) as [r2 Hr2].
    now rewrite Hr2, (loop_more_fuel f2 p r2 f1 Hr2 Hle).
Qed.

(** The handler always finishes. *)
Lemma onData_total (data : list byte) (p : Port W) :
  exists r, onData debugOn consume data p = Some r.
Proof. unfold onData. apply loop_enough. simpl. lia. Qed.

End DataHandlerFacts.

(** ** Chunking, for a consumer that returns on every frame *)

Section Chunking.

Context {W : Type}.
Variable debugOn : W -> bool.
Variable consume : list byte -> W -> Outcome W unit.

Hypothesis consume_returns :
  forall (frame : list byte) (w : W),
    5 <= Z.of_nat (length frame) -> returns (consume frame w) = true.

Local Abbreviation body := (loopBody debugOn consume).
Local Abbreviation run := (loop debugOn consume).

(** What a turn does only depends on the bytes it looks at: a turn that
    goes on does the same when more bytes follow. *)
Lemma loopBody_continue_more (p p' : Port W) (data : list byte) :
  5 <= Z.of_nat (length (packetBuffer p)) ->
  body p = Continue p' ->
  body (received_more data p) = Continue (received_more data p').
Proof using Type.
  intros Hlen Hb.
  destruct (decide (option_map byteZ (head (packetBuffer p))
                    = Some Constants.HEADER_BYTE)) as [Hh|Hh].
  - destruct (second_byte _ Hlen) as [b Hl].
    rewrite (loopBody_header _ _ p b Hh Hl) in Hb.
    assert (Hh' : option_map byteZ (head (packetBuffer (received_more data p)))
                  = Some Constants.HEADER_BYTE).
    { cbn [received_more packetBuffer].
      destruct (packetBuffer p); [simpl in Hlen; lia|exact Hh]. }
    assert (Hl' : nth_error (packetBuffer (received_more data p)) 1 = Some b).
    { cbn [received_more packetBuffer]. rewrite nth_error_app1; [exact Hl|].
      lia. }
    rewrite (loopBody_header _ _ _ b Hh' Hl').
    pose proof (totalPacketLength_min b) as Hmin.
    cbn [received_more packetBuffer closure emitted] in *.
    destruct (Z.ltb_spec (Z.of_nat (length (packetBuffer p)))
                (totalPacketLength (byteZ b))); [discriminate|].
    rewrite length_app.
    destruct (Z.ltb_spec (Z.of_nat (length (packetBuffer p) + length data))
                (totalPacketLength (byteZ b))); [lia|].
    rewrite firstn_app, skipn_app.
    replace (Z.to_nat (totalPacketLength (byteZ b)) - length (packetBuffer p))%nat
      with 0%nat by lia.
    rewrite firstn_O, skipn_O, app_nil_r.
    destruct (consume _ _) as [u w'|e w'].
    + injection Hb as <-. reflexivity.
    + unfold catchBlock in Hb. destruct (debugOn w'); discriminate.
  - rewrite (loopBody_no_header _ _ p Hh) in Hb. injection Hb as <-.
    rewrite loopBody_no_header.
    + unfold received_more. cbn [packetBuffer closure emitted].
      destruct (packetBuffer p); [simpl in Hlen; lia|reflexivity].
    + cbn [received_more packetBuffer].
      destruct (packetBuffer p); [simpl in Hlen; lia|exact Hh].
Qed.

(** With such a consumer the loop stops only to wait for more bytes,
    leaving everything as it is. *)
Lemma loopBody_break_waits (p p' : Port W) :
  5 <= Z.of_nat (length (packetBuffer p)) -> body p = Break p' -> p' = p.
Proof using consume_returns.
  intros Hlen Hb.
  destruct (decide (option_map byteZ (head (packetBuffer p))
                    = Some Constants.HEADER_BYTE)) as [Hh|Hh].
  - destruct (second_byte _ Hlen) as [b Hl].
    rewrite (loopBody_header _ _ p b Hh Hl) in Hb.
    pose proof (totalPacketLength_min b) as Hmin.
    destruct (Z.ltb_spec (Z.of_nat (length (packetBuffer p)))
                (totalPacketLength (byteZ b))); [congruence|].
    match type of Hb with
    | context [consume ?f ?w] =>
        pose proof (consume_returns f w) as Hr; destruct (consume f w)
    end; [discriminate|].
    rewrite length_firstn in Hr. simpl in Hr.
    assert (false = true) by (apply Hr; lia). discriminate.
  - rewrite (loopBody_no_header _ _ p Hh) in Hb. discriminate.
Qed.

(** With such a consumer no exception leaves the handler. *)
Lemma loopBody_no_escape (p p' : Port W) (e : Exn) :
  5 <= Z.of_nat (length (packetBuffer p)) -> body p <> Escape e p'.
Proof using consume_returns.
  intros Hlen Hb.
  destruct (decide (option_map byteZ (head (packetBuffer p))
                    = Some Constants.HEADER_BYTE)) as [Hh|Hh].
  - destruct (second_byte _ Hlen) as [b Hl].
    rewrite (loopBody_header _ _ p b Hh Hl) in Hb.
    pose proof (totalPacketLength_min b) as Hmin.
    destruct (Z.ltb_spec (Z.of_nat (length (packetBuffer p)))
                (totalPacketLength (byteZ b))); [congruence|].
    match type of Hb with
    | context [consume ?f ?w] =>
        pose proof (consume_returns f w) as Hr; destruct (consume f w)
    end; [discriminate|].
    rewrite length_firstn in Hr. simpl in Hr.
    assert (false = true) by (apply Hr; lia). discriminate.
  - rewrite (loopBody_no_header _ _ p Hh) in Hb. discriminate.
Qed.

Lemma loop_no_escape (fuel : nat) :
  forall (p p' : Port W) (e : Exn), run fuel p <> Some (Thrown e p').
Proof using consume_returns.
  induction fuel as [|fuel IH]; intros p p' e Hr; simpl in Hr.
  - destruct (Z.of_nat (length (packetBuffer p)) <? 5); discriminate.
  - destruct (Z.ltb_spec (Z.of_nat (length (packetBuffer p))) 5);
      [discriminate|].
    destruct (body p) as [p1|p1|e1 p1] eqn:Hb.
    + exact (IH _ _ _ Hr).
    + discriminate.
    + exact (loopBody_no_escape p p1 e1 ltac:(lia) Hb).
Qed.

(** The loop run on a buffer, then again once [data] has been added,
    ends as the loop run once on the whole. *)
Lemma loop_resume (fuel : nat) :
  forall (p p' : Port W) (data : list byte) (f1 f2 : nat),
    run fuel p = Some (Returned tt p') ->
    (length (packetBuffer p ++ data) <= f1)%nat ->
    (length (packetBuffer p' ++ data) <= f2)%nat ->
    run f1 (received_more data p) = run f2 (received_more data p').
Proof using consume_returns.
  induction fuel as [|fuel IH]; intros p p' data f1 f2 Hr H1 H2.
  - simpl in Hr.
    destruct (Z.of_nat (length (packetBuffer p)) <? 5); [|discriminate].
    injection Hr as <-. apply loop_fuel_irrelevant; [exact H1|exact H2].
  - simpl in Hr.
    destruct (Z.ltb_spec (Z.of_nat (length (packetBuffer p))) 5) as [Hs|Hs].
    { injection Hr as <-. apply loop_fuel_irrelevant; [exact H1|exact H2]. }
    destruct (body p) as [p1|p1|e p1] eqn:Hb.
    + pose proof (loopBody_shrinks _ _ p p1 ltac:(lia) Hb) as Hlt.
      pose proof (loopBody_continue_more p p1 data ltac:(lia) Hb) as Hb'.
      rewrite length_app in H1.
      destruct f1 as [|f1]; [lia|]. simpl.
      rewrite length_app.
      destruct (Z.ltb_spec (Z.of_nat (length (packetBuffer p) + length data)) 5);
        [lia|].
      rewrite Hb'. apply (IH p1 p' data f1 f2 Hr); [|exact H2].
      rewrite length_app. lia.
    + injection Hr as <-.
      rewrite (loopBody_break_waits p p1 ltac:(lia) Hb) in H2 |- *.
      apply loop_fuel_irrelevant; [exact H1|exact H2].
    + discriminate.
Qed.

(** Chunks fed one at a time end as their concatenation fed at once. *)
Lemma feed_chunks (rest : list (list byte)) :
  forall (data : list byte) (p : Port W),
    feed debugOn consume (data :: rest) p =
    onData debugOn consume (data ++ concat rest) p.
Proof using consume_returns.
  induction rest as [|next rest IH]; intros data p.
  - simpl. rewrite app_nil_r.
    destruct (onData debugOn consume data p) as [[[] p'|e p']|]; reflexivity.
  - cbn [feed]. cbn [feed] in IH.
    destruct (onData debugOn consume data p) as [[[] p1|e p1]|] eqn:Hd.
    + rewrite IH. cbn [concat]. unfold onData in *.
      cbn [packetBuffer closure emitted] in *.
      pose proof (loop_resume _ _ p1 (next ++ concat rest) _ _ Hd
                    (Nat.le_refl _) (Nat.le_refl _)) as Hres.
      unfold received_more in Hres.
      cbn [packetBuffer closure emitted] in Hres.
      rewrite <- app_assoc in Hres. symmetry. exact Hres.
    + exfalso. exact (loop_no_escape _ _ _ _ Hd).
    + destruct (onData_total debugOn consume data p) as [r Hr]. congruence.
Qed.

End Chunking.

(** ** The handler of [index.js]: the loop with [parseResponse] *)

Lemma readTagObserve_returns (epcHex : string) (s : State) :
  readTagObserve epcHex s = Returned tt (stateOf (readTagObserve epcHex s)).
Proof. reflexivity. Qed.

Lemma countObserve_returns (epcHex : string) (s : State) :
  countObserve epcHex s = Returned tt (stateOf (countObserve epcHex s)).
Proof. unfold countObserve. unfold_m. split_ifs; reflexivity. Qed.

(** [parseResponse] returns on every buffer of five bytes or more: no
    exception is raised while a frame is interpreted. *)
Lemma parseResponse_returns (buffer : list byte) (s : State) :
  5 <= Z.of_nat (length buffer) ->
  parseResponse buffer s = Returned tt (stateOf (parseResponse buffer s)).
Proof.
  intros Hlen.
  destruct buffer as [|b0 [|b1 [|b2 [|b3 [|b4 rest]]]]];
    try (simpl in Hlen; lia).
  unfold parseResponse. unfold_m.
  repeat match goal with
         | |- context [if ?b then _ else _] => destruct b eqn:?
         end;
    first [ reflexivity
          | apply sendWithCrc_returns
          | apply readTagObserve_returns
          | apply countObserve_returns ].
Qed.

Lemma parseResponse_consumes (frame : list byte) (s : State) :
  5 <= Z.of_nat (length frame) -> returns (parseResponse frame s) = true.
Proof. intros H. now rewrite parseResponse_returns. Qed.

(** C2. Whatever the way a byte stream is cut into chunks, the data
    handler fed the chunks one at a time, from its initial empty buffer,
    ends exactly as when fed the whole stream in one chunk: it returns
    normally, it has handed the same frames in the same order to
    [parseResponse], and it is left with the same buffer and state. *)
Theorem C2_chunking_does_not_change_the_frames :
  forall (chunks : list (list byte)) (s : State),
    portFeed chunks (initialPort s) = portFeed [concat chunks] (initialPort s) /\
    emittedFrames (portFeed chunks (initialPort s)) =
    emittedFrames (portFeed [concat chunks] (initialPort s)) /\
    exists p' : Port State,
      portFeed chunks (initialPort s) = Some (Returned tt p').
Proof.
  intros chunks s.
  assert (E : portFeed chunks (initialPort s)
              = portFeed [concat chunks] (initialPort s)).
  { unfold portFeed. destruct chunks as [|data rest].
    - reflexivity.
    - rewrite !(feed_chunks _ _ parseResponse_consumes).
      cbn [concat]. now rewrite !app_nil_r. }
  split; [exact E|]. split; [now rewrite E|].
  rewrite E. unfold portFeed.
  rewrite (feed_chunks _ _ parseResponse_consumes). cbn [concat].
  destruct (onData_total isDbgLogEnabled parseResponse
              (concat chunks ++ []) (initialPort s)) as [[[] p'|e p'] Hr].
  - eauto.
  - exfalso. exact (loop_no_escape _ _ parseResponse_consumes _ _ _ _ Hr).
Qed.

(** C3. With at least 5 bytes buffered, one turn of the loop does this:
    if the first byte is not 0xFF it drops exactly that byte and goes
    on; otherwise, with [total] = 5 + the length byte + 2, it stops with
    nothing emitted and nothing changed when fewer than [total] bytes
    are buffered, and else hands the first [total] bytes, as one frame,
    to [parseResponse] (which returns), removes exactly them from the
    buffer and goes on. *)
Theorem C3_one_turn_of_the_reassembler :
  forall p : Port State,
    5 <= Z.of_nat (length (packetBuffer p)) ->
    exists first lengthByte : byte,
      head (packetBuffer p) = Some first /\
      nth_error (packetBuffer p) 1 = Some lengthByte /\
      let total := 5 + byteZ lengthByte + 2 in
      let frame := firstn (Z.to_nat total) (packetBuffer p) in
      (byteZ first <> 0xFF ->
       portLoopBody p =
       Continue {| packetBuffer := tl (packetBuffer p); closure := closure p;
                   emitted := emitted p |}) /\
      (byteZ first = 0xFF -> Z.of_nat (length (packetBuffer p)) < total ->
       portLoopBody p = Break p) /\
      (byteZ first = 0xFF -> total <= Z.of_nat (length (packetBuffer p)) ->
       Z.of_nat (length frame) = total /\
       packetBuffer p = (frame ++ skipn (Z.to_nat total) (packetBuffer p))%list /\
       exists s' : State,
         parseResponse frame (closure p) = Returned tt s' /\
         portLoopBody p =
         Continue {| packetBuffer := skipn (Z.to_nat total) (packetBuffer p);
                     closure := s'; emitted := emitted p ++ [frame] |}).
Proof.
  intros p Hlen.
  destruct (second_byte _ Hlen) as [lengthByte Hl].
  destruct (packetBuffer p) as [|first buf] eqn:Hbuf; [simpl in Hlen; lia|].
  exists first, lengthByte. split; [reflexivity|]. split; [exact Hl|].
  pose proof (byteZ_range lengthByte) as Hrange.
  cbv zeta. rewrite <- Hbuf in *.
  assert (Hhead : option_map byteZ (head (packetBuffer p)) = Some (byteZ first))
    by now rewrite Hbuf.
  split; [|split].
  - intros Hne. unfold portLoopBody. apply loopBody_no_header.
    rewrite Hhead. unfold Constants.HEADER_BYTE. congruence.
  - intros Heq Hshort. unfold portLoopBody.
    rewrite (loopBody_header _ _ p lengthByte); [|now rewrite Hhead, Heq|exact Hl].
    unfold totalPacketLength.
    destruct (Z.ltb_spec (Z.of_nat (length (packetBuffer p)))
                (1 + 1 + 1 + 2 + byteZ lengthByte + 2)); [reflexivity|lia].
  - intros Heq Hfull.
    assert (Hframe : Z.of_nat (length (firstn (Z.to_nat (5 + byteZ lengthByte + 2))
                                         (packetBuffer p)))
                     = 5 + byteZ lengthByte + 2)
      by (rewrite length_firstn; lia).
    split; [exact Hframe|]. split; [now rewrite firstn_skipn|].
    eexists. split; [apply parseResponse_returns; lia|].
    unfold portLoopBody.
    rewrite (loopBody_header _ _ p lengthByte); [|now rewrite Hhead, Heq|exact Hl].
    unfold totalPacketLength.
    replace (1 + 1 + 1 + 2 + byteZ lengthByte + 2)
      with (5 + byteZ lengthByte + 2) by lia.
    destruct (Z.ltb_spec (Z.of_nat (length (packetBuffer p)))
                (5 + byteZ lengthByte + 2)); [lia|].
    rewrite parseResponse_returns by lia. reflexivity.
Qed.

(** A buffer of nine bytes that starts with a complete frame of seven:
    the turn emits the frame and keeps the two bytes after it. *)
Lemma C3_one_turn_witness :
  5 <= Z.of_nat (length (packetBuffer example_port)) /\
  portLoopBody example_port =
  Continue {| packetBuffer := fromHex "ff01";
              closure := closure example_port;
              emitted := [fromHex "ff00210000abcd"] |}.
Proof.
  assert (H : 5 <= Z.of_nat (length (packetBuffer example_port)))
    by (vm_compute; discriminate).
  split; [exact H|].
  destruct (C3_one_turn_of_the_reassembler example_port H)
    as (first & lengthByte & Hf & Hl & _ & _ & Hemit).
  injection Hf as <-. injection Hl as <-.
  destruct (Hemit eq_refl ltac:(vm_compute; discriminate))
    as (_ & _ & s' & Hs & Hb).
  rewrite Hb. vm_compute in Hs. injection Hs as <-. reflexivity.
Defined.

(** ** An exception while a frame is interpreted *)

Section CatchBlock.

Context {W : Type}.
Variable debugOn : W -> bool.
Variable consume : list byte -> W -> Outcome W unit.

(** When the consumer throws on the candidate frame, the [catch] block
    runs: with debug logging off the whole buffer is dropped and the
    loop ends; with debug logging on a [ReferenceError] leaves the
    handler and the buffer is still there. *)
Lemma loopBody_exception (p : Port W) (lengthByte : byte) (e : Exn) (w' : W) :
  option_map byteZ (head (packetBuffer p)) = Some Constants.HEADER_BYTE ->
  nth_error (packetBuffer p) 1 = Some lengthByte ->
  totalPacketLength (byteZ lengthByte) <= Z.of_nat (length (packetBuffer p)) ->
  consume (firstn (Z.to_nat (totalPacketLength (byteZ lengthByte)))
             (packetBuffer p)) (closure p) = Thrown e w' ->
  loopBody debugOn consume p =
  if debugOn w'
  then Escape ReferenceError
         {| packetBuffer := packetBuffer p; closure := w';
            emitted := emitted p ++
                       [firstn (Z.to_nat (totalPacketLength (byteZ lengthByte)))
                          (packetBuffer p)] |}
  else Break
         {| packetBuffer := []; closure := w';
            emitted := emitted p ++
                       [firstn (Z.to_nat (totalPacketLength (byteZ lengthByte)))
                          (packetBuffer p)] |}.
Proof using Type.
  intros Hh Hl Hfull Hthrow.
  rewrite (loopBody_header _ _ p lengthByte Hh Hl).
  destruct (Z.ltb_spec (Z.of_nat (length (packetBuffer p)))
              (totalPacketLength (byteZ lengthByte))); [lia|].
  now rewrite Hthrow.
Qed.

End CatchBlock.


(** ** What [sendWithCrc] does to the state *)

(** A command that neither starts nor stops a scan is only written. *)
Lemma sendWithCrc_plain (data : list byte) (s : State) :
  String.prefix Constants.HEX_SCAN_START (toHex data) = false ->
  String.prefix Constants.HEX_SCAN_STOP (toHex data) = false ->
  sendWithCrc data s =
  Returned tt (set_portWrites (portWrites s ++ [withCrc data]) s).
Proof.
  intros Hstart Hstop.
  unfold sendWithCrc. unfold bind at 1. rewrite writeUInt16BE_crc.
  rewrite sliceFrom_1, Hstart, Hstop. reflexivity.
Qed.

(** The scan-start command: the session is opened. *)
Lemma sendWithCrc_scan_start (data : list byte) (s : State) :
  String.prefix Constants.HEX_SCAN_START (toHex data) = true ->
  exists s' : State,
    sendWithCrc data s = Returned tt s' /\
    portWrites s' = (portWrites s ++ [withCrc data])%list /\
    isScanning s' = true /\
    autoModeState s' = autoModeState s /\
    scannedTagsCumulative s' = JsMap.empty /\
    scannedTagsRefresh s' = JsMap.empty.
Proof.
  intros Hstart.
  unfold sendWithCrc. unfold bind at 1. rewrite writeUInt16BE_crc.
  rewrite sliceFrom_1, Hstart. unfold_m.
  destruct (refreshIntervalId _); eexists; (split; [reflexivity|]);
    repeat split.
Qed.

Lemma payload_head (n : Z) (b0 b1 b2 b3 b4 x : byte) (rest : list byte) :
  1 <= n ->
  head (slice 5 (5 + n) (b0 :: b1 :: b2 :: b3 :: b4 :: x :: rest)) = Some x.
Proof.
  intros Hn. unfold slice, clampIndex.
  destruct (Z.ltb_spec 5 0); [lia|]. destruct (Z.ltb_spec (5 + n) 0); [lia|].
  cbn [length]. rewrite (Z.min_l 5) by lia.
  change (Z.to_nat 5) with 5%nat. cbn [skipn].
  match goal with
  | |- head (firstn ?k _) = _ => destruct k eqn:E; [lia|reflexivity]
  end.
Qed.

Lemma parseResponse_stage (lengthByte statusHi statusLo stage : byte)
  (rest : list byte) (s : State) :
  1 <= byteZ lengthByte ->
  parseResponse (stageReply lengthByte statusHi statusLo stage rest) s =
  if bool_decide (Some (byteZ stage) = Some Constants.STAGE_APP) then
    if isAutoMode (mode s) && (autoModeState s =? 1) then
      sendWithCrc (fromHex Constants.HEX_SCAN_START) (set_autoModeState 2 s)
    else Returned tt s
  else if bool_decide (Some (byteZ stage) = Some Constants.STAGE_BOOTLOADER) then
    if isAutoMode (mode s) && (autoModeState s =? 1) then
      sendWithCrc (fromHex Constants.HEX_START_APP) (set_autoModeState 0 s)
    else Returned tt s
  else Returned tt s.
Proof.
  intros Hlen. unfold parseResponse, stageReply. unfold_m.
  change (byteZ Byte.xff =? Constants.HEADER_BYTE) with true.
  change (byteZ Byte.x0c =? Constants.CMD_START_APP) with false.
  change (byteZ Byte.x0c =? Constants.CMD_GET_RUNNING_STAGE) with true.
  cbn [negb andb]. rewrite payload_head by exact Hlen. cbn [option_map].
  repeat match goal with
         | |- context [if ?b then _ else _] => destruct b eqn:?
         end; reflexivity.
Qed.

(** ** The handshake *)

Lemma parseResponse_stage_app (lengthByte statusHi statusLo : byte)
  (rest : list byte) (s : State) :
  1 <= byteZ lengthByte -> isAutoMode (mode s) = true -> autoModeState s = 1 ->
  parseResponse (stageReply lengthByte statusHi statusLo Byte.x12 rest) s =
  sendWithCrc (fromHex Constants.HEX_SCAN_START) (set_autoModeState 2 s).
Proof.
  intros Hlen Hmode Hstate. rewrite parseResponse_stage by exact Hlen.
  rewrite Hmode, Hstate. reflexivity.
Qed.

Lemma parseResponse_stage_bootloader (lengthByte statusHi statusLo : byte)
  (rest : list byte) (s : State) :
  1 <= byteZ lengthByte -> isAutoMode (mode s) = true -> autoModeState s = 1 ->
  parseResponse (stageReply lengthByte statusHi statusLo Byte.x11 rest) s =
  sendWithCrc (fromHex Constants.HEX_START_APP) (set_autoModeState 0 s).
Proof.
  intros Hlen Hmode Hstate. rewrite parseResponse_stage by exact Hlen.
  rewrite Hmode, Hstate. reflexivity.
Qed.

(** C5, as the code has it.  [autoModeState] has three values: 0 (its
    initial value), 1 (set by [startAutoMode]) and 2 (scanning); there
    is no separate value for "stage queried".  In state 1:
    - the timeout sends the query-running-stage command and changes
      nothing else, so the state stays 1;
    - a running-stage reply with stage 0x12 (application) sends the
      scan-start command and sets the state to 2;
    - a running-stage reply with stage 0x11 (bootloader) sends the
      start-application command again and sets the state to 0, changing
      nothing else: no timeout is armed. *)
Theorem C5_handshake_transitions_in_the_code :
  forall s : State,
    autoModeState s = 1 ->
    handshakeTimeout s =
    Returned tt
      (set_portWrites
         (portWrites s ++ [withCrc (fromHex Constants.HEX_GET_RUNNING_STAGE)]) s)
    /\
    forall (lengthByte statusHi statusLo : byte) (rest : list byte),
      1 <= byteZ lengthByte -> isAutoMode (mode s) = true ->
      (exists s' : State,
         parseResponse (stageReply lengthByte statusHi statusLo Byte.x12 rest) s
         = Returned tt s' /\
         autoModeState s' = 2 /\ isScanning s' = true /\
         portWrites s' =
         (portWrites s ++ [withCrc (fromHex Constants.HEX_SCAN_START)])%list) /\
      parseResponse (stageReply lengthByte statusHi statusLo Byte.x11 rest) s =
      Returned tt
        (set_portWrites
           (portWrites s ++ [withCrc (fromHex Constants.HEX_START_APP)])
           (set_autoModeState 0 s)).
Proof.
  intros s Hstate. split.
  - unfold handshakeTimeout. unfold_m. rewrite Hstate. cbn [Z.eqb Pos.eqb].
    now apply sendWithCrc_plain.
  - intros lengthByte statusHi statusLo rest Hlen Hmode. split.
    + rewrite parseResponse_stage_app by assumption.
      destruct (sendWithCrc_scan_start (fromHex Constants.HEX_SCAN_START)
                  (set_autoModeState 2 s) eq_refl)
        as (s' & Hs & Hw & Hscan & Hauto & _).
      exists s'. repeat split; assumption.
    + rewrite parseResponse_stage_bootloader by assumption.
      rewrite sendWithCrc_plain by reflexivity. reflexivity.
Qed.

Lemma C5_transitions_witness :
  autoModeState auto_requested = 1 /\
  handshakeTimeout auto_requested =
  Returned tt
    (set_portWrites
       (portWrites auto_requested
        ++ [withCrc (fromHex Constants.HEX_GET_RUNNING_STAGE)]) auto_requested).
Proof.
  split; [reflexivity|].
  exact (proj1 (C5_handshake_transitions_in_the_code auto_requested eq_refl)).
Defined.

(** C5 as stated fails.  [startAutoMode] sets the state to 1 and arms
    the timeout; when the timeout fires the query is sent and the state
    is still 1 (not a new "stage queried" state).  The bootloader reply
    then sets the state to 0, not back to 1, and arms no timeout; from
    there a later "application" reply is ignored. *)
Lemma C5_bootloader_reply_does_not_rearm :
  autoModeState auto_requested = 1 /\ timeoutArmed auto_requested = true /\
  autoModeState auto_queried = 1 /\
  portWrites auto_queried =
  [withCrc (fromHex Constants.HEX_START_APP);
   withCrc (fromHex Constants.HEX_GET_RUNNING_STAGE)] /\
  autoModeState auto_after_bootloader = 0 /\
  timeoutArmed auto_after_bootloader = false /\
  timers auto_after_bootloader = [] /\
  portWrites auto_after_bootloader =
  [withCrc (fromHex Constants.HEX_START_APP);
   withCrc (fromHex Constants.HEX_GET_RUNNING_STAGE);
   withCrc (fromHex Constants.HEX_START_APP)] /\
  parseResponse application_reply auto_after_bootloader =
  Returned tt auto_after_bootloader.
Proof. by_computation. Qed.

(** ** Facts about [JsMap] *)

Section JsMapFacts.

Context {V : Type}.
Implicit Types (m : JsMap.t V) (k : string) (v : V).

Lemma get_set m k k' v :
  JsMap.get k' (JsMap.set k v m) =
  if String.eqb k' k then Some v else JsMap.get k' m.
Proof.
  induction m as [|[k0 v0] m IH]; simpl.
  - reflexivity.
  - destruct (String.eqb_spec k k0) as [->|Hne]; simpl.
    + destruct (String.eqb_spec k' k0); reflexivity.
    + rewrite IH. destruct (String.eqb_spec k' k0) as [->|];
        [|reflexivity].
      destruct (String.eqb_spec k0 k); [congruence|reflexivity].
Qed.

Lemma get_In m k v : JsMap.get k m = Some v -> In (k, v) m.
Proof.
  induction m as [|[k0 v0] m IH]; simpl; [discriminate|].
  destruct (String.eqb_spec k k0) as [->|Hne].
  - intros [= ->]. now left.
  - intros H. right. now apply IH.
Qed.



Lemma In_get m k v :
  List.NoDup (JsMap.keys m) -> In (k, v) m -> JsMap.get k m = Some v.
Proof.
  induction m as [|[k0 v0] m IH]; simpl; [tauto|].
  intros Hnd [Heq|Hin].
  - injection Heq as -> ->. now rewrite String.eqb_refl.
  - apply List.NoDup_cons_iff in Hnd as [Hnotin Hnd].
    destruct (String.eqb_spec k k0) as [->|Hne].
    + exfalso. apply Hnotin. unfold JsMap.keys.
      change k0 with (fst (k0, v)). now apply in_map.
    + now apply IH.
Qed.

(** Setting a key the map has keeps every key in its place. *)
Lemma keys_set_present m k v :
  In k (JsMap.keys m) -> JsMap.keys (JsMap.set k v m) = JsMap.keys m.
Proof.
  induction m as [|[k0 v0] m IH]; simpl; [tauto|].
  intros Hin. destruct (String.eqb_spec k k0) as [->|Hne]; [reflexivity|].
  simpl. f_equal. apply IH. destruct Hin; [congruence|assumption].
Qed.

(** Setting a new key puts it last. *)
Lemma set_absent m k v :
  ~ In k (JsMap.keys m) -> JsMap.set k v m = (m ++ [(k, v)])%list.
Proof.
  induction m as [|[k0 v0] m IH]; simpl; [reflexivity|].
  intros Hnotin. destruct (String.eqb_spec k k0) as [->|Hne]; [tauto|].
  f_equal. apply IH. tauto.
Qed.

Lemma keys_set_NoDup m k v :
  List.NoDup (JsMap.keys m) -> List.NoDup (JsMap.keys (JsMap.set k v m)).
Proof.
  intros Hnd. destruct (in_dec string_dec k (JsMap.keys m)) as [Hin|Hnotin].
  - now rewrite keys_set_present.
  - rewrite set_absent by exact Hnotin. unfold JsMap.keys.
    rewrite map_app. simpl. apply List.NoDup_app; [exact Hnd| |].
    + apply List.NoDup_cons; [simpl; tauto|apply List.NoDup_nil].
    + intros x Hx [<-|[]]. now apply Hnotin.
Qed.

End JsMapFacts.

(** ** Read-tag mode: the most frequent identifier *)




Lemma occurrences_nonneg (ident : string) (obs : list string) :
  0 <= occurrences ident obs.
Proof.
  induction obs as [|x obs IH]; simpl; [lia|].
  destruct (String.eqb ident x); lia.
Qed.








(** ** Tag-read frames *)

Lemma parseResponse_tag_read (frame : list byte) (s : State) :
  isTagRead frame = true -> isScanning s = true ->
  parseResponse frame s =
  if String.eqb (mode s) Constants.MODE_READ_TAG
  then readTagObserve (identifierOf frame) s
  else countObserve (identifierOf frame) s.
Proof.
  intros Htag Hscan.
  destruct frame as [|b0 [|b1 [|b2 [|b3 [|b4 rest]]]]]; try discriminate.
  unfold isTagRead in Htag.
  apply andb_prop in Htag as [Htag Hstatus].
  apply andb_prop in Htag as [Hheader Hcmd].
  unfold parseResponse, identifierOf, payloadOf. unfold_m.
  rewrite Hheader. cbn [negb].
  assert (Hne : (byteZ b2 =? Constants.CMD_START_APP) = false
                /\ (byteZ b2 =? Constants.CMD_GET_RUNNING_STAGE) = false).
  { unfold Constants.CMD_START_APP, Constants.CMD_GET_RUNNING_STAGE,
      Constants.CMD_RFID_INVENTORY, Constants.CMD_MULTI_TAG_INVENTORY in *.
    apply orb_prop in Hcmd as [H|H]; apply Z.eqb_eq in H; rewrite H;
      split; reflexivity. }
  destruct Hne as [-> ->]. rewrite Hscan, Hcmd, Hstatus. cbn [andb].
  destruct (String.eqb (mode s) Constants.MODE_READ_TAG); reflexivity.
Qed.

Lemma readTagObserve_state (ident : string) (s : State) :
  readTagObserve ident s =
  Returned tt
    (set_wsClients
       (map (sendIfOpen (MsgEpc (mostFrequent (observe ident (readTagScans s)))))
          (wsClients s))
       (set_readTagScans (observe ident (readTagScans s)) s)).
Proof. reflexivity. Qed.

(** In a read-tag session every accepted frame is one observation. *)
Lemma handleAll_read_tag (frames : list (list byte)) :
  forall s : State,
    mode s = Constants.MODE_READ_TAG -> isScanning s = true ->
    Forall (fun frame => isTagRead frame = true) frames ->
    mode (handleAll frames s) = Constants.MODE_READ_TAG /\
    isScanning (handleAll frames s) = true /\
    readTagScans (handleAll frames s) =
    fold_left (fun scans ident => observe ident scans)
      (map identifierOf frames) (readTagScans s).
Proof.
  induction frames as [|frame frames IH]; intros s Hmode Hscan Hall.
  - now repeat split.
  - apply Forall_cons_iff in Hall as [Hframe Hall]. cbn [handleAll fold_left map].
    rewrite (parseResponse_tag_read frame s Hframe Hscan), Hmode.
    cbn [String.eqb]. rewrite readTagObserve_state. cbn [stateOf].
    apply IH; [exact Hmode|exact Hscan|exact Hall].
Qed.



(** The tie-break follows the table's order, which is the order of
    first observation, not the order in which counts were reached: after
    A, B, B, A both have two occurrences and A, first observed first, is
    reported again although B reached two before it. *)
Fact read_tag_tie_goes_to_the_first_observed :
  reportsFrom JsMap.empty ["A"; "B"; "B"; "A"] = ["A"; "A"; "B"; "A"].
Proof. reflexivity. Qed.

(** ** The flush *)

Lemma inventoryUpdates_In (s : State) (u : Update) :
  In u (inventoryUpdates s) <->
  exists (ident : string) (data : ScanEntry) (it : Item),
    In (ident, data) (scannedTagsRefresh s) /\
    inventoryData s !! ident = Some it /\
    u = {| u_id := id it; u_timestamp := timestamp data; u_epc := ident;
           u_item := item it; u_count := count data |}.
Proof.
  unfold inventoryUpdates. rewrite in_flat_map. split.
  - intros ([ident data] & Hin & Hu). unfold updateFor in Hu.
    destruct (inventoryData s !! ident) as [it|] eqn:Hit; [|destruct Hu].
    destruct Hu as [<-|[]]. now exists ident, data, it.
  - intros (ident & data & it & Hin & Hit & ->).
    exists (ident, data). split; [exact Hin|].
    unfold updateFor. rewrite Hit. now left.
Qed.

(** At most one record per identifier. *)
Lemma inventoryUpdates_NoDup (inv : gmap string Item) (table : JsMap.t ScanEntry) :
  List.NoDup (JsMap.keys table) ->
  List.NoDup (map u_epc (flat_map (updateFor inv) table)).
Proof.
  unfold JsMap.keys.
  induction table as [|[ident data] table IH]; intros Hnd;
    cbn [flat_map map fst] in *.
  - apply List.NoDup_nil.
  - apply List.NoDup_cons_iff in Hnd as [Hnotin Hnd].
    rewrite map_app. unfold updateFor at 1.
    destruct (inv !! ident) as [it|]; cbn [map app u_epc]; [|now apply IH].
    apply List.NoDup_cons; [|now apply IH].
    intros Hin. apply Hnotin. apply in_map_iff in Hin as (u & Hu & Hin).
    apply in_flat_map in Hin as ([ident' data'] & Hin & Hu').
    unfold updateFor in Hu'. destruct (inv !! ident'); [|destruct Hu'].
    destruct Hu' as [<-|[]]. cbn [u_epc] in Hu. subst ident'.
    change ident with (fst (ident, data')). now apply in_map.
Qed.

Lemma logScannedTags_state (s : State) :
  logScannedTags s = Returned tt (afterFlush s).
Proof.
  unfold logScannedTags, afterFlush. unfold_m.
  destruct (inventoryUpdates s); reflexivity.
Qed.

(** C7, as the code has it.  A flush returns without error; it builds
    exactly one update record for every identifier of the window table
    that the inventory index knows, in the table's order, and none for
    an identifier the index does not know, whatever the mode; when there
    is at least one record every open subscriber is sent the batch
    once; the window table is cleared, the cumulative table and the
    index are unchanged.  And in inventory-filtered mode a tag the
    index does not know is dropped when it is observed, without error. *)
Theorem C7_flush_reports_only_inventory_items :
  forall s : State,
    logScannedTags s = Returned tt (afterFlush s) /\
    scannedTagsRefresh (afterFlush s) = JsMap.empty /\
    scannedTagsCumulative (afterFlush s) = scannedTagsCumulative s /\
    inventoryData (afterFlush s) = inventoryData s /\
    wsClients (afterFlush s) =
    match inventoryUpdates s with
    | [] => wsClients s
    | _ :: _ => map (sendIfOpen (MsgUpdates (inventoryUpdates s))) (wsClients s)
    end /\
    (forall u : Update,
        In u (inventoryUpdates s) <->
        exists (ident : string) (data : ScanEntry) (it : Item),
          In (ident, data) (scannedTagsRefresh s) /\
          inventoryData s !! ident = Some it /\
          u = {| u_id := id it; u_timestamp := timestamp data; u_epc := ident;
                 u_item := item it; u_count := count data |}) /\
    (List.NoDup (JsMap.keys (scannedTagsRefresh s)) ->
     List.NoDup (map u_epc (inventoryUpdates s))) /\
    (forall ident : string,
        inventoryData s !! ident = None ->
        ~ In ident (map u_epc (inventoryUpdates s))) /\
    (forall frame : list byte,
        isTagRead frame = true -> isScanning s = true ->
        mode s <> Constants.MODE_READ_TAG -> inventoryMode s = true ->
        inventoryData s !! identifierOf frame = None ->
        parseResponse frame s = Returned tt s).
Proof.
  intros s. split; [apply logScannedTags_state|].
  unfold afterFlush.
  repeat split; try (destruct (inventoryUpdates s); reflexivity).
  - now apply inventoryUpdates_In.
  - now apply inventoryUpdates_In.
  - apply inventoryUpdates_NoDup.
  - intros ident Hnone Hin. apply in_map_iff in Hin as (u & <- & Hin).
    apply inventoryUpdates_In in Hin as (ident & data & it & _ & Hit & ->).
    simpl in Hnone. congruence.
  - intros frame Htag Hscan Hmode Hfilter Hnone.
    rewrite (parseResponse_tag_read frame s Htag Hscan).
    destruct (String.eqb_spec (mode s) Constants.MODE_READ_TAG); [contradiction|].
    unfold countObserve. unfold_m. rewrite Hfilter, Hnone. cbn [andb].
    rewrite bool_decide_eq_false_2; [reflexivity|].
    intros [x Hx]. discriminate.
Qed.

(** C7 as stated fails: in unfiltered mode the tag that the inventory
    does not know is in the window table with count 1, yet the flush
    sends no record for it (none marked unknown): the subscriber
    receives nothing. *)
Lemma C7_unknown_tag_is_not_reported_in_unfiltered_mode :
  inventoryMode unfiltered_scan = false /\
  scannedTagsRefresh unfiltered_scan =
  [("AAAAAAAA", {| count := 1; timestamp := example_clock |})] /\
  inventoryData unfiltered_scan !! "AAAAAAAA" = None /\
  logScannedTags unfiltered_scan = Returned tt (afterFlush unfiltered_scan) /\
  inventoryUpdates unfiltered_scan = [] /\
  map received (wsClients (afterFlush unfiltered_scan)) = [[]].
Proof. by_computation. Qed.

Lemma C7_flush_witness :
  List.NoDup (JsMap.keys (scannedTagsRefresh filtered_scan)) /\
  List.NoDup (map u_epc (inventoryUpdates filtered_scan)) /\
  inventoryUpdates filtered_scan =
  [{| u_id := Some 9; u_timestamp := example_clock; u_epc := "AAAAAAAA";
      u_item := "soldering-iron"; u_count := 1 |}] /\
  isTagRead tag_frame_B = true /\ isScanning filtered_scan = true /\
  mode filtered_scan <> Constants.MODE_READ_TAG /\
  inventoryMode filtered_scan = true /\
  inventoryData filtered_scan !! identifierOf tag_frame_B = None /\
  parseResponse tag_frame_B filtered_scan = Returned tt filtered_scan.
Proof.
  assert (Hkeys : JsMap.keys (scannedTagsRefresh filtered_scan) = ["AAAAAAAA"])
    by (vm_compute; reflexivity).
  assert (Hnd : List.NoDup (JsMap.keys (scannedTagsRefresh filtered_scan))).
  { rewrite Hkeys. apply List.NoDup_cons; [intros []|apply List.NoDup_nil]. }
  assert (Htag : isTagRead tag_frame_B = true) by (vm_compute; reflexivity).
  assert (Hscan : isScanning filtered_scan = true) by (vm_compute; reflexivity).
  assert (Hmode : mode filtered_scan <> Constants.MODE_READ_TAG)
    by (intros H; vm_compute in H; discriminate H).
  assert (Hfilter : inventoryMode filtered_scan = true)
    by (vm_compute; reflexivity).
  assert (Hnone : inventoryData filtered_scan !! identifierOf tag_frame_B = None)
    by (vm_compute; reflexivity).
  pose proof (C7_flush_reports_only_inventory_items filtered_scan)
    as (_ & _ & _ & _ & _ & _ & Hone & _ & Hdrop).
  split; [exact Hnd|]. split; [exact (Hone Hnd)|].
  split; [vm_compute; reflexivity|].
  repeat (split; [assumption|]).
  exact (Hdrop tag_frame_B Htag Hscan Hmode Hfilter Hnone).
Defined.

(** ** Inventory reload *)

Lemma indexOf_lower (x : string) (arr : list string) : -1 <= indexOf x arr.
Proof.
  induction arr as [|y arr IH]; simpl; [lia|].
  destruct (String.eqb y x); [lia|].
  destruct (Z.ltb_spec (indexOf x arr) 0); lia.
Qed.

Lemma indexOf_absent (x : string) (arr : list string) :
  indexOf x arr = -1 <-> ~ In x arr.
Proof.
  induction arr as [|y arr IH]; simpl; [tauto|].
  pose proof (indexOf_lower x arr).
  destruct (String.eqb_spec y x) as [->|Hne].
  - split; [lia|]. intros H'. exfalso. apply H'. now left.
  - destruct (Z.ltb_spec (indexOf x arr) 0).
    + split; [|reflexivity]. intros _ [Heq|Hin]; [congruence|].
      apply IH; [lia|exact Hin].
    + split; [lia|]. intros Hnotin. exfalso.
      assert (indexOf x arr = -1) by (apply IH; tauto). lia.
Qed.

(** C8, as the code has it.  When the header row (the first non-blank
    line) has no [EPC] column, the reload returns without loading any
    row, and the index is empty afterwards: it was cleared before the
    header was looked at, so the previous index is not kept.  Nothing
    else changes. *)
Theorem C8_rejected_reload_leaves_the_index_empty :
  forall (csvData headerLine : string) (rows : list string) (s : State),
    nonBlankLines csvData = headerLine :: rows ->
    ~ In "EPC" (headersOf headerLine) ->
    parseInventoryData csvData s = Returned tt (set_inventoryData ∅ s) /\
    inventoryData (stateOf (parseInventoryData csvData s)) = ∅.
Proof.
  intros csvData headerLine rows s Hlines Hnocol.
  assert (E : parseInventoryData csvData s = Returned tt (set_inventoryData ∅ s)).
  { unfold parseInventoryData. unfold_m. rewrite Hlines.
    apply indexOf_absent in Hnocol. rewrite Hnocol. reflexivity. }
  split; [exact E|]. now rewrite E.
Qed.

Lemma C8_reload_witness :
  nonBlankLines csv_without_epc = ["id,item"; "9,soldering-iron"] /\
  ~ In "EPC" (headersOf "id,item") /\
  parseInventoryData csv_without_epc loaded_inventory =
  Returned tt (set_inventoryData ∅ loaded_inventory) /\
  inventoryData (stateOf (parseInventoryData csv_without_epc loaded_inventory)) = ∅.
Proof.
  assert (Hlines : nonBlankLines csv_without_epc = ["id,item"; "9,soldering-iron"])
    by (vm_compute; reflexivity).
  assert (Hnocol : ~ In "EPC" (headersOf "id,item")).
  { intros [H|[H|[]]]; discriminate. }
  split; [exact Hlines|]. split; [exact Hnocol|].
  exact (C8_rejected_reload_leaves_the_index_empty csv_without_epc _ _ loaded_inventory
           Hlines Hnocol).
Defined.

(** C8 as stated fails: the index holds an item; a reload whose header
    has no [EPC] column is rejected, and afterwards the item is gone. *)
Lemma C8_rejected_reload_drops_the_previous_index :
  inventoryData loaded_inventory !! "E28069150000401F7AB919BB" =
  Some {| id := Some 9; epc := "E28069150000401F7AB919BB";
          item := "soldering-iron" |} /\
  indexOf "EPC" (headersOf "id,item") = -1 /\
  parseInventoryData csv_without_epc loaded_inventory =
  Returned tt (set_inventoryData ∅ loaded_inventory) /\
  inventoryData (stateOf (parseInventoryData csv_without_epc loaded_inventory))
    !! "E28069150000401F7AB919BB" = None.
Proof. by_computation. Qed.

(** ** Short tag-read payloads *)

Lemma epcHexOf_short (payload : list byte) :
  Z.of_nat (length payload) < 7 -> epcHexOf payload = EmptyString.
Proof.
  intros Hshort. unfold epcHexOf, slice, clampIndex.
  destruct (Z.ltb_spec 5 0); [lia|].
  match goal with
  | |- toUpperCase (toHex (firstn ?n _)) = _ =>
      replace n with 0%nat; [reflexivity|]
  end.
  destruct (Z.ltb_spec (Z.of_nat (length payload) - 2) 0); lia.
Qed.

Lemma countObserve_unfiltered (ident : string) (s : State) :
  inventoryMode s = false ->
  countObserve ident s =
  Returned tt
    (set_scannedTagsRefresh
       (JsMap.set ident (bump (now s) (JsMap.get ident (scannedTagsRefresh s)))
          (scannedTagsRefresh s))
       (set_scannedTagsCumulative
          (JsMap.set ident
             (bump (now s) (JsMap.get ident (scannedTagsCumulative s)))
             (scannedTagsCumulative s)) s)).
Proof. intros Hf. unfold countObserve. unfold_m. now rewrite Hf. Qed.

Lemma countObserve_filtered_out (ident : string) (s : State) :
  inventoryMode s = true -> inventoryData s !! ident = None ->
  countObserve ident s = Returned tt s.
Proof.
  intros Hf Hnone. unfold countObserve. unfold_m. rewrite Hf, Hnone.
  rewrite bool_decide_eq_false_2; [reflexivity|]. intros [x Hx]. discriminate.
Qed.

(** C9, as the code has it.  An accepted tag-read frame whose payload
    has fewer than 7 bytes yields the empty identifier, and handling it
    raises no exception.  The empty identifier is then treated like any
    other: in read-tag mode it is counted in the session table and the
    most frequent identifier is sent to the open subscribers; in the
    other modes it is counted in the cumulative and in the window table
    when inventory filtering is off, and dropped when filtering is on
    and the index has no empty key. *)
Theorem C9_short_payload_is_the_empty_identifier :
  forall (frame : list byte) (s : State),
    isTagRead frame = true ->
    Z.of_nat (length (payloadOf frame)) < 7 ->
    isScanning s = true ->
    identifierOf frame = EmptyString /\
    (mode s = Constants.MODE_READ_TAG ->
     parseResponse frame s =
     Returned tt
       (set_wsClients
          (map (sendIfOpen
                  (MsgEpc (mostFrequent (observe EmptyString (readTagScans s)))))
             (wsClients s))
          (set_readTagScans (observe EmptyString (readTagScans s)) s))) /\
    (mode s <> Constants.MODE_READ_TAG -> inventoryMode s = false ->
     parseResponse frame s =
     Returned tt
       (set_scannedTagsRefresh
          (JsMap.set EmptyString
             (bump (now s) (JsMap.get EmptyString (scannedTagsRefresh s)))
             (scannedTagsRefresh s))
          (set_scannedTagsCumulative
             (JsMap.set EmptyString
                (bump (now s) (JsMap.get EmptyString (scannedTagsCumulative s)))
                (scannedTagsCumulative s)) s))) /\
    (mode s <> Constants.MODE_READ_TAG -> inventoryMode s = true ->
     inventoryData s !! EmptyString = None ->
     parseResponse frame s = Returned tt s).
Proof.
  intros frame s Htag Hshort Hscan.
  assert (Hid : identifierOf frame = EmptyString)
    by (unfold identifierOf; now apply epcHexOf_short).
  split; [exact Hid|].
  rewrite (parseResponse_tag_read frame s Htag Hscan), Hid.
  split; [|split].
  - intros ->. cbn [String.eqb]. apply readTagObserve_state.
  - intros Hmode Hf.
    destruct (String.eqb_spec (mode s) Constants.MODE_READ_TAG); [contradiction|].
    now apply countObserve_unfiltered.
  - intros Hmode Hf Hnone.
    destruct (String.eqb_spec (mode s) Constants.MODE_READ_TAG); [contradiction|].
    now apply countObserve_filtered_out.
Qed.

Lemma C9_short_payload_witness :
  isTagRead empty_payload_frame = true /\
  Z.of_nat (length (payloadOf empty_payload_frame)) < 7 /\
  isScanning read_tag_session = true /\
  identifierOf empty_payload_frame = EmptyString.
Proof.
  assert (Htag : isTagRead empty_payload_frame = true) by (vm_compute; reflexivity).
  assert (Hshort : Z.of_nat (length (payloadOf empty_payload_frame)) < 7)
    by (vm_compute; reflexivity).
  assert (Hscan : isScanning read_tag_session = true) by (vm_compute; reflexivity).
  split; [exact Htag|]. split; [exact Hshort|]. split; [exact Hscan|].
  exact (proj1 (C9_short_payload_is_the_empty_identifier empty_payload_frame read_tag_session
                  Htag Hshort Hscan)).
Defined.

(** C9 as stated fails in its second half: the empty identifier is
    counted and forwarded.  In a read-tag session the frame with an
    empty payload puts the empty identifier in the table with count 1
    and the subscriber is sent it; in auto mode it is counted in both
    scan tables. *)
Lemma C9_empty_identifier_is_counted_and_forwarded :
  identifierOf empty_payload_frame = EmptyString /\
  readTagScans (stateOf (parseResponse empty_payload_frame read_tag_session)) =
  [(EmptyString, 1)] /\
  map received (wsClients (stateOf (parseResponse empty_payload_frame read_tag_session))) =
  [[MsgEpc EmptyString]] /\
  scannedTagsCumulative
    (stateOf
       (parseResponse empty_payload_frame
          (stateOf (sendWithCrc (fromHex Constants.HEX_SCAN_START)
                      (initialState "auto" 5 true example_clock))))) =
  [(EmptyString, {| count := 1; timestamp := example_clock |})] /\
  scannedTagsRefresh
    (stateOf
       (parseResponse empty_payload_frame
          (stateOf (sendWithCrc (fromHex Constants.HEX_SCAN_START)
                      (initialState "auto" 5 true example_clock))))) =
  [(EmptyString, {| count := 1; timestamp := example_clock |})].
Proof. by_computation. Qed.

(** ** The trailing CRC bytes of an incoming frame *)

(** The payload of a frame does not reach into what follows it. *)
Lemma payload_of_framed (b0 b1 b2 b3 b4 : byte) (payload trailer : list byte) :
  Z.of_nat (length payload) = byteZ b1 ->
  slice 5 (5 + byteZ b1) (b0 :: b1 :: b2 :: b3 :: b4 :: payload ++ trailer)
  = payload.
Proof.
  intros Hlen. unfold slice, clampIndex. pose proof (byteZ_range b1).
  destruct (Z.ltb_spec 5 0); [lia|].
  destruct (Z.ltb_spec (5 + byteZ b1) 0); [lia|].
  cbn [length]. rewrite length_app.
  rewrite !Z.min_l by lia.
  change (Z.to_nat 5) with 5%nat. cbn [skipn].
  replace (Z.to_nat (5 + byteZ b1 - 5)) with (length payload) by lia.
  rewrite skipn_O.
  rewrite firstn_app, Nat.sub_diag, firstn_all. cbn [firstn].
  apply app_nil_r.
Qed.

(** C10. [parseResponse] never checks the CRC of the frame it is given:
    two frames with the same header, length, command, status and
    payload, whatever their two trailing CRC bytes, lead to the same
    outcome (the same state, hence the same tables, handshake state,
    port writes and messages to subscribers), provided the test for the
    app-start acknowledgment, which compares the whole frame, answers
    the same on both. *)
Theorem C10_incoming_crc_is_not_checked :
  forall (header lengthByte : byte) (fields : list byte)
         (c1 c2 d1 d2 : byte) (s : State),
    let body := header :: lengthByte :: fields in
    Z.of_nat (length body) = 5 + byteZ lengthByte ->
    isAppStartAck (body ++ [c1; c2]) = isAppStartAck (body ++ [d1; d2]) ->
    parseResponse (body ++ [c1; c2]) s = parseResponse (body ++ [d1; d2]) s.
Proof.
  intros header lengthByte fields c1 c2 d1 d2 s body Hlen Hack.
  subst body. pose proof (byteZ_range lengthByte) as Hrange.
  destruct fields as [|b2 [|b3 [|b4 payload]]];
    try (cbn [length] in Hlen; lia).
  assert (Hpayload : Z.of_nat (length payload) = byteZ lengthByte)
    by (cbn [length] in Hlen; lia).
  cbn [app] in *. unfold isAppStartAck in Hack.
  unfold parseResponse. unfold_m.
  rewrite !(payload_of_framed _ _ _ _ _ _ _ Hpayload), Hack.
  reflexivity.
Qed.

Lemma C10_crc_witness :
  (let body := Byte.xff :: Byte.x0b :: fromHex "2100000000000000aaaaaaaa0000" in
   Z.of_nat (length body) = 5 + byteZ Byte.x0b /\
   isAppStartAck (body ++ [Byte.x00; Byte.x00])
   = isAppStartAck (body ++ [Byte.x12; Byte.x34]) /\
   parseResponse (body ++ [Byte.x00; Byte.x00]) read_tag_session
   = parseResponse (body ++ [Byte.x12; Byte.x34]) read_tag_session) /\
  CRC.calculate (fromHex "0b2100000000000000aaaaaaaa0000") <> 0x1234.
Proof.
  split; [|vm_compute; discriminate].
  cbv zeta.
  assert (Hlen : Z.of_nat (length (Byte.xff :: Byte.x0b ::
                   fromHex "2100000000000000aaaaaaaa0000")) = 5 + byteZ Byte.x0b)
    by (vm_compute; reflexivity).
  assert (Hack : isAppStartAck
                   ((Byte.xff :: Byte.x0b :: fromHex "2100000000000000aaaaaaaa0000")
                    ++ [Byte.x00; Byte.x00])
                 = isAppStartAck
                     ((Byte.xff :: Byte.x0b :: fromHex "2100000000000000aaaaaaaa0000")
                      ++ [Byte.x12; Byte.x34]))
    by (vm_compute; reflexivity).
  split; [exact Hlen|]. split; [exact Hack|].
  exact (C10_incoming_crc_is_not_checked Byte.xff Byte.x0b
           (fromHex "2100000000000000aaaaaaaa0000")
           Byte.x00 Byte.x00 Byte.x12 Byte.x34 read_tag_session Hlen Hack).
Defined.

(** Where the CRC bytes do matter: the acknowledgment is recognised
    only with its exact CRC bytes, since the whole frame is compared. *)
Fact app_start_ack_needs_its_crc_bytes :
  isAppStartAck ack_frame = true /\ isAppStartAck ack_frame_other_crc = false /\
  autoModeState (stateOf (parseResponse ack_frame auto_requested)) = 2 /\
  autoModeState (stateOf (parseResponse ack_frame_other_crc auto_requested)) = 1.
Proof. by_computation. Qed.

(** ** The inventory index never holds the empty key *)

Lemma loadRows_no_empty_key (rows : list string) :
  forall (idIndex epcIndex itemIndex i : Z) (s : State),
    inventoryData s !! EmptyString = None ->
    inventoryData (stateOf (loadRows idIndex epcIndex itemIndex i rows s))
      !! EmptyString = None.
Proof.
  induction rows as [|line rows IH]; intros idIndex epcIndex itemIndex i s Hs.
  - exact Hs.
  - cbn [loadRows]. unfold bind.
    destruct (loadRow idIndex epcIndex itemIndex i line s) as [u s'|e s'] eqn:Hrow.
    + apply IH. revert Hrow. unfold loadRow. unfold_m.
      repeat match goal with
             | |- context [match ?o with Some _ => _ | None => _ end] =>
                 destruct o eqn:?
             | |- context [if ?b then _ else _] => destruct b eqn:?
             end; intros [= Hs']; subst s'; try exact Hs.
      all: cbn [inventoryData set_inventoryData];
        rewrite lookup_insert_ne; [exact Hs|];
        intros Heq;
        match goal with
        | H : negb (String.eqb _ EmptyString) = true |- _ =>
            rewrite Heq in H; discriminate H
        end.
    + cbn [stateOf]. revert Hrow. unfold loadRow. unfold_m.
      repeat match goal with
             | |- context [match ?o with Some _ => _ | None => _ end] =>
                 destruct o eqn:?
             | |- context [if ?b then _ else _] => destruct b eqn:?
             end; intros [= Hs']; subst s'; exact Hs.
Qed.

Lemma parseInventoryData_no_empty_key (csvData : string) (s : State) :
  inventoryData (stateOf (parseInventoryData csvData s)) !! EmptyString = None.
Proof.
  unfold parseInventoryData. unfold_m.
  destruct (nonBlankLines csvData) as [|headerLine rows]; [apply lookup_empty|].
  destruct (indexOf "EPC" (headersOf headerLine) =? -1); [apply lookup_empty|].
  apply loadRows_no_empty_key. apply lookup_empty.
Qed.

(** ** Further properties of the handlers *)

(** A second flush with no observation in between sends nothing and
    changes nothing. *)
Lemma flush_twice_sends_nothing (s : State) :
  inventoryUpdates (afterFlush s) = [] /\
  logScannedTags (afterFlush s) = Returned tt (afterFlush s).
Proof.
  assert (E : inventoryUpdates (afterFlush s) = []).
  { unfold afterFlush. destruct (inventoryUpdates s); reflexivity. }
  split; [exact E|].
  rewrite logScannedTags_state. f_equal.
  unfold afterFlush at 1. rewrite E.
  unfold afterFlush. destruct (inventoryUpdates s); reflexivity.
Qed.

(** [parseResponse] raises no exception on a buffer of five bytes or
    more, whatever the bytes and the state. *)
Lemma parseResponse_never_throws_on_a_frame
  (b0 b1 b2 b3 b4 : byte) (rest : list byte) (s : State) :
  returns (parseResponse (b0 :: b1 :: b2 :: b3 :: b4 :: rest) s) = true.
Proof. apply parseResponse_consumes. cbn [length]. lia. Qed.

(** The two command literals of the handshake already end with the CRC
    of their own bytes. *)
Fact handshake_literals_end_with_their_crc :
  CRC.calculate (fromHex "0004") = 0x1d0b /\
  CRC.calculate (fromHex "000c") = 0x1d03.
Proof. by_computation. Qed.

(** * More properties of [index.js] *)

(** ** Hexadecimal round trips *)

Lemma fromHex_hex_pair (b : byte) (rest : string) :
  fromHex (String (hexDigit (Byte.to_N b / 16))
             (String (hexDigit (Byte.to_N b mod 16)) rest))
  = b :: fromHex rest.
Proof. destruct b; reflexivity. Qed.

Lemma fromHex_upper_pair (b : byte) (rest : string) :
  fromHex (String (upperChar (hexDigit (Byte.to_N b / 16)))
             (String (upperChar (hexDigit (Byte.to_N b mod 16))) rest))
  = b :: fromHex rest.
Proof. destruct b; reflexivity. Qed.

Lemma fromHex_toHex (buf : list byte) :
  fromHex (toHex buf) = buf /\ fromHex (toUpperCase (toHex buf)) = buf.
Proof.
  induction buf as [|b buf [IHl IHu]]; [split; reflexivity|].
  split.
  - cbn [toHex]. now rewrite fromHex_hex_pair, IHl.
  - cbn [toHex toUpperCase]. now rewrite fromHex_upper_pair, IHu.
Qed.

(** [Buffer.from(s, 'hex')] undoes [toString('hex')], in lower case and
    after [toUpperCase()]; so two buffers with the same hex rendering,
    in either case, are the same bytes. *)
Theorem hex_round_trip :
  forall buf buf' : list byte,
    fromHex (toHex buf) = buf /\
    fromHex (toUpperCase (toHex buf)) = buf /\
    (toHex buf = toHex buf' <-> buf = buf') /\
    (toUpperCase (toHex buf) = toUpperCase (toHex buf') <-> buf = buf').
Proof.
  intros buf buf'.
  destruct (fromHex_toHex buf) as [Hl Hu].
  destruct (fromHex_toHex buf') as [Hl' Hu'].
  split; [exact Hl|]. split; [exact Hu|]. split; split.
  - intros H. rewrite <- Hl, <- Hl'. now rewrite H.
  - now intros ->.
  - intros H. rewrite <- Hu, <- Hu'. now rewrite H.
  - now intros ->.
Qed.

Lemma slice_middle {A : Type} (front middle back : list A) :
  slice (Z.of_nat (length front))
    (Z.of_nat (length (front ++ middle ++ back)) - Z.of_nat (length back))
    (front ++ middle ++ back)
  = middle.
Proof.
  unfold slice, clampIndex. rewrite !length_app.
  destruct (Z.ltb_spec (Z.of_nat (length front)) 0); [lia|].
  destruct (Z.ltb_spec
              (Z.of_nat (length front + (length middle + length back))
               - Z.of_nat (length back)) 0); [lia|].
  rewrite !Z.min_l by lia. rewrite Nat2Z.id.
  rewrite skipn_app, Nat.sub_diag, skipn_all, skipn_O. cbn [app].
  replace (Z.to_nat _) with (length middle) by lia.
  rewrite firstn_app, Nat.sub_diag, firstn_all. cbn [firstn]. apply app_nil_r.
Qed.

(** The decoder isolates exactly the bytes that stand between the 5
    leading and the 2 trailing bytes of the payload, and the identifier
    determines them: decoding its hex digits gives them back, so two
    different tags never share an identifier. *)
Theorem identifier_is_the_bytes_between_prefix_and_suffix :
  forall front tagBytes back : list byte,
    length front = 5%nat -> length back = 2%nat ->
    epcHexOf (front ++ tagBytes ++ back) = toUpperCase (toHex tagBytes) /\
    fromHex (epcHexOf (front ++ tagBytes ++ back)) = tagBytes.
Proof.
  intros front tagBytes back Hf Hb.
  assert (E : epcHexOf (front ++ tagBytes ++ back) = toUpperCase (toHex tagBytes)).
  { unfold epcHexOf. pose proof (slice_middle front tagBytes back) as H.
    rewrite Hf, Hb in H. change (Z.of_nat 5) with 5 in H.
    change (Z.of_nat 2) with 2 in H. now rewrite H. }
  split; [exact E|]. rewrite E. apply fromHex_toHex.
Qed.

Lemma identifier_witness :
  length (fromHex "0000000000") = 5%nat /\ length (fromHex "0000") = 2%nat /\
  epcHexOf (fromHex "0000000000" ++ fromHex "e28069" ++ fromHex "0000")
  = toUpperCase (toHex (fromHex "e28069")) /\
  fromHex (epcHexOf (fromHex "0000000000" ++ fromHex "e28069" ++ fromHex "0000"))
  = fromHex "e28069".
Proof.
  split; [reflexivity|]. split; [reflexivity|].
  exact (identifier_is_the_bytes_between_prefix_and_suffix
           (fromHex "0000000000") (fromHex "e28069") (fromHex "0000")
           eq_refl eq_refl).
Defined.

(** ** What [parseResponse] reacts to *)

(** The acknowledgment of the app-start command is recognised exactly
    when the frame is, byte for byte, the 27 bytes of the literal, CRC
    bytes included. *)
Theorem ack_is_recognised_byte_for_byte :
  forall frame : list byte, isAppStartAck frame = true <-> frame = ack_frame.
Proof.
  intros frame. split.
  - intros H. destruct frame as [|b0 [|b1 [|b2 rest]]]; try discriminate.
    unfold isAppStartAck in H. apply andb_prop in H as [_ H].
    apply String.eqb_eq in H.
    rewrite <- (proj1 (fromHex_toHex (b0 :: b1 :: b2 :: rest))), H.
    reflexivity.
  - intros ->. vm_compute. reflexivity.
Qed.

(** Where [parseResponse] throws: on an empty buffer when debug logging
    is on (its log line), and on a buffer of one to four bytes that
    starts with the header byte (reading the status); the state is then
    as before.  On five bytes or more it returns. *)
Theorem parseResponse_throws_only_on_short_buffers :
  forall (buffer : list byte) (s : State),
    (5 <= Z.of_nat (length buffer) -> returns (parseResponse buffer s) = true) /\
    (Z.of_nat (length buffer) < 5 ->
     parseResponse buffer s =
     match buffer with
     | [] => if isDbgLogEnabled s then Thrown TypeError s else Returned tt s
     | header :: _ =>
         if byteZ header =? Constants.HEADER_BYTE then Thrown RangeError s
         else Returned tt s
     end).
Proof.
  intros buffer s. split; [apply parseResponse_consumes|].
  intros Hshort. unfold parseResponse. unfold_m.
  destruct buffer as [|b0 [|b1 [|b2 [|b3 [|b4 rest]]]]];
    try (cbn [length] in Hshort; lia);
    [destruct (isDbgLogEnabled s); reflexivity|..];
    destruct (byteZ b0 =? Constants.HEADER_BYTE); reflexivity.
Qed.

(** A frame [parseResponse] has no branch for changes nothing: a frame
    that does not start with the header byte, an unknown command, a tag
    read with an error status, a tag read while no scan is on. *)
Theorem parseResponse_ignores_other_frames :
  forall (frame : list byte) (s : State),
    5 <= Z.of_nat (length frame) ->
    reactsTo s frame = false ->
    parseResponse frame s = Returned tt s.
Proof.
  intros frame s Hlen Hreact.
  destruct frame as [|b0 [|b1 [|b2 [|b3 [|b4 rest]]]]];
    try (cbn [length] in Hlen; lia).
  unfold reactsTo, isAppStartAck, isTagRead in Hreact.
  unfold parseResponse. unfold_m.
  destruct (byteZ b0 =? Constants.HEADER_BYTE); [|reflexivity].
  cbn [andb negb] in *.
  apply orb_false_elim in Hreact as [Hreact Htag].
  apply orb_false_elim in Hreact as [Hack Hstage].
  rewrite andb_assoc in Htag.
  rewrite Hack, Hstage, Htag. reflexivity.
Qed.

Lemma parseResponse_ignores_witness :
  5 <= Z.of_nat (length (fromHex "ff00990000abcd")) /\
  reactsTo read_tag_session (fromHex "ff00990000abcd") = false /\
  parseResponse (fromHex "ff00990000abcd") read_tag_session
  = Returned tt read_tag_session.
Proof.
  assert (Hlen : 5 <= Z.of_nat (length (fromHex "ff00990000abcd")))
    by (vm_compute; discriminate).
  assert (Hreact : reactsTo read_tag_session (fromHex "ff00990000abcd") = false)
    by (vm_compute; reflexivity).
  split; [exact Hlen|]. split; [exact Hreact|].
  exact (parseResponse_ignores_other_frames _ _ Hlen Hreact).
Defined.

(** ** What the reassembler emits and what it keeps *)

Lemma wellFramed_length (frame : list byte) :
  wellFramed frame = true -> 7 <= Z.of_nat (length frame).
Proof.
  destruct frame as [|h [|l rest]]; try discriminate.
  unfold wellFramed. intros H. apply andb_prop in H as [_ H].
  apply Z.eqb_eq in H. rewrite H. apply totalPacketLength_min.
Qed.

Lemma wellFramed_prefix (buf : list byte) (lengthByte : byte) :
  option_map byteZ (head buf) = Some Constants.HEADER_BYTE ->
  nth_error buf 1 = Some lengthByte ->
  totalPacketLength (byteZ lengthByte) <= Z.of_nat (length buf) ->
  wellFramed (firstn (Z.to_nat (totalPacketLength (byteZ lengthByte))) buf) = true.
Proof.
  intros Hh Hl Hfull. pose proof (totalPacketLength_min lengthByte) as Hmin.
  destruct buf as [|h [|l rest]]; try discriminate.
  injection Hh as Hh. injection Hl as ->.
  assert (Hlen : Z.of_nat (length (firstn (Z.to_nat (totalPacketLength (byteZ lengthByte)))
                                     (h :: lengthByte :: rest)))
                 = totalPacketLength (byteZ lengthByte))
    by (rewrite length_firstn; lia).
  destruct (Z.to_nat (totalPacketLength (byteZ lengthByte))) as [|[|n]] eqn:E;
    try lia.
  cbn [firstn] in *. unfold wellFramed. rewrite Hh, Z.eqb_refl, Hlen, Z.eqb_refl.
  reflexivity.
Qed.

Lemma waiting_bound (buf : list byte) :
  waiting buf = true -> Z.of_nat (length buf) <= 261.
Proof.
  unfold waiting. intros H. apply orb_prop in H as [H|H].
  - apply Z.ltb_lt in H. lia.
  - destruct buf as [|h [|l rest]]; try discriminate.
    apply andb_prop in H as [_ H]. apply Z.ltb_lt in H.
    pose proof (byteZ_range l). unfold totalPacketLength in H. lia.
Qed.

Section Emission.

Context {W : Type}.
Variable debugOn : W -> bool.
Variable consume : list byte -> W -> Outcome W unit.

Lemma loop_emits (fuel : nat) :
  forall (p : Port W) (r : Outcome (Port W) unit),
    loop debugOn consume fuel p = Some r ->
    exists new : list (list byte),
      emitted (stateOf r) = (emitted p ++ new)%list /\
      Forall (fun frame => wellFramed frame = true) new /\
      (returns r = true -> waiting (packetBuffer (stateOf r)) = true).
Proof using Type.
  induction fuel as [|fuel IH]; intros p r Hr; simpl in Hr.
  - destruct (Z.ltb_spec (Z.of_nat (length (packetBuffer p))) 5) as [Hs|Hs];
      [|discriminate].
    injection Hr as <-. exists []. rewrite app_nil_r.
    split; [reflexivity|]. split; [constructor|]. intros _.
    unfold waiting. cbn [stateOf]. apply Z.ltb_lt in Hs. now rewrite Hs.
  - destruct (Z.ltb_spec (Z.of_nat (length (packetBuffer p))) 5) as [Hs|Hs].
    { injection Hr as <-. exists []. rewrite app_nil_r.
      split; [reflexivity|]. split; [constructor|]. intros _.
      unfold waiting. cbn [stateOf]. apply Z.ltb_lt in Hs. now rewrite Hs. }
    destruct (decide (option_map byteZ (head (packetBuffer p))
                      = Some Constants.HEADER_BYTE)) as [Hh|Hh].
    + destruct (second_byte _ Hs) as [b Hl].
      rewrite (loopBody_header _ _ p b Hh Hl) in Hr.
      destruct (Z.ltb_spec (Z.of_nat (length (packetBuffer p)))
                  (totalPacketLength (byteZ b))) as [Hshort|Hfull].
      * injection Hr as <-. exists []. rewrite app_nil_r.
        split; [reflexivity|]. split; [constructor|]. intros _.
        unfold waiting. cbn [stateOf].
        destruct (packetBuffer p) as [|h [|l rest]]; try discriminate.
        injection Hh as Hh. injection Hl as ->.
        rewrite Hh, Z.eqb_refl. apply Z.ltb_lt in Hshort. rewrite Hshort.
        apply orb_true_r.
      * pose proof (wellFramed_prefix _ _ Hh Hl Hfull) as Hwf.
        destruct (consume _ _) as [u w'|e w'].
        -- destruct (IH _ _ Hr) as (new & He & Hall & Hwait).
           cbn [emitted] in He.
           eexists (_ :: new). rewrite He, <- app_assoc.
           split; [reflexivity|]. split; [now constructor|exact Hwait].
        -- unfold catchBlock in Hr. destruct (debugOn w'); injection Hr as <-;
             (eexists [_]; split; [reflexivity|]; split;
              [now repeat constructor|]).
           ++ discriminate.
           ++ reflexivity.
    + rewrite (loopBody_no_header _ _ p Hh) in Hr.
      destruct (IH _ _ Hr) as (new & He & Hall & Hwait).
      exists new. split; [exact He|]. split; [exact Hall|exact Hwait].
Qed.

End Emission.

(** Whatever the consumer of the frames, the buffer and the incoming
    chunk, every frame the handler hands over starts with the header
    byte and has exactly 5 + its length byte + 2 bytes; and when the
    handler returns, the buffer it keeps is shorter than 5 bytes or is
    the start of a frame still incomplete, so it is never longer than
    261 bytes. *)
Theorem onData_emits_whole_frames_and_keeps_little :
  forall (W : Type) (debugOn : W -> bool)
         (consume : list byte -> W -> Outcome W unit)
         (data : list byte) (p : Port W),
  exists (r : Outcome (Port W) unit) (new : list (list byte)),
    onData debugOn consume data p = Some r /\
    emitted (stateOf r) = (emitted p ++ new)%list /\
    Forall (fun frame => wellFramed frame = true) new /\
    (returns r = true ->
     waiting (packetBuffer (stateOf r)) = true /\
     Z.of_nat (length (packetBuffer (stateOf r))) <= 261).
Proof.
  intros W debugOn consume data p.
  destruct (onData_total debugOn consume data p) as [r Hr].
  destruct (loop_emits debugOn consume _ _ _ Hr) as (new & He & Hall & Hwait).
  exists r, new. split; [exact Hr|]. split; [exact He|]. split; [exact Hall|].
  intros Hret. split; [now apply Hwait|]. now apply waiting_bound, Hwait.
Qed.

(** ** Reassembling a stream of frames *)

Lemma portLoopBody_frame (frame rest : list byte) (p : Port State) :
  wellFramed frame = true -> packetBuffer p = (frame ++ rest)%list ->
  portLoopBody p =
  Continue {| packetBuffer := rest;
              closure := stateOf (parseResponse frame (closure p));
              emitted := emitted p ++ [frame] |}.
Proof.
  intros Hwf Hbuf. pose proof (wellFramed_length _ Hwf) as Hlen.
  destruct frame as [|h [|l tail]]; try discriminate.
  unfold wellFramed in Hwf. apply andb_prop in Hwf as [Hh Ht].
  apply Z.eqb_eq in Hh. apply Z.eqb_eq in Ht.
  unfold portLoopBody.
  assert (Hhead : option_map byteZ (head (packetBuffer p))
                  = Some Constants.HEADER_BYTE) by (now rewrite Hbuf, <- Hh).
  assert (Hsecond : nth_error (packetBuffer p) 1 = Some l) by now rewrite Hbuf.
  rewrite (loopBody_header _ _ p l Hhead Hsecond), Hbuf.
  rewrite <- Ht.
  destruct (Z.ltb_spec (Z.of_nat (length ((h :: l :: tail) ++ rest)))
              (Z.of_nat (length (h :: l :: tail)))) as [Hlt|_].
  { rewrite length_app in Hlt. lia. }
  rewrite Nat2Z.id, firstn_app, Nat.sub_diag, firstn_all, firstn_O, app_nil_r.
  rewrite skipn_app, Nat.sub_diag, skipn_all, skipn_O. cbn [app].
  rewrite (parseResponse_returns (h :: l :: tail) (closure p)) by lia.
  reflexivity.
Qed.

Lemma portLoop_frames (frames : list (list byte)) :
  forall (fuel : nat) (p : Port State),
    Forall (fun frame => wellFramed frame = true) frames ->
    packetBuffer p = concat frames ->
    (length (concat frames) <= fuel)%nat ->
    loop isDbgLogEnabled parseResponse fuel p =
    Some (Returned tt {| packetBuffer := []; closure := handleAll frames (closure p);
                         emitted := emitted p ++ frames |}).
Proof.
  induction frames as [|frame frames IH]; intros fuel p Hall Hbuf Hfuel.
  - cbn [concat] in Hbuf. destruct p as [buf w log]. cbn in Hbuf. subst buf.
    rewrite app_nil_r. destruct fuel; reflexivity.
  - apply Forall_cons_iff in Hall as [Hwf Hall].
    pose proof (wellFramed_length _ Hwf) as Hlen.
    cbn [concat] in Hbuf, Hfuel. rewrite length_app in Hfuel.
    destruct fuel as [|fuel]; [lia|]. cbn [loop].
    rewrite Hbuf, length_app.
    destruct (Z.ltb_spec (Z.of_nat (length frame + length (concat frames))) 5);
      [lia|].
    change (loopBody isDbgLogEnabled parseResponse p) with (portLoopBody p).
    rewrite (portLoopBody_frame frame (concat frames) p Hwf Hbuf).
    rewrite (IH fuel {| packetBuffer := concat frames;
                        closure := stateOf (parseResponse frame (closure p));
                        emitted := emitted p ++ [frame] |} Hall eq_refl ltac:(lia)).
    cbn [closure emitted handleAll fold_left]. now rewrite <- app_assoc.
Qed.

Lemma portLoop_garbage (garbage : list byte) :
  forall (fuel : nat) (rest : list byte) (p : Port State),
    Forall (fun b => notHeader b = true) garbage ->
    5 <= Z.of_nat (length rest) ->
    packetBuffer p = (garbage ++ rest)%list ->
    (length (garbage ++ rest) <= fuel)%nat ->
    loop isDbgLogEnabled parseResponse fuel p =
    loop isDbgLogEnabled parseResponse (fuel - length garbage)
      {| packetBuffer := rest; closure := closure p; emitted := emitted p |}.
Proof.
  induction garbage as [|g garbage IH]; intros fuel rest p Hall Hrest Hbuf Hfuel.
  - cbn [app] in Hbuf. destruct p as [buf w log]. cbn in Hbuf. subst buf.
    cbn [length]. now rewrite Nat.sub_0_r.
  - apply Forall_cons_iff in Hall as [Hg Hall].
    cbn [app length] in Hfuel. destruct fuel as [|fuel]; [lia|].
    cbn [loop]. rewrite Hbuf. cbn [app length].
    destruct (Z.ltb_spec (Z.of_nat (S (length (garbage ++ rest)))) 5) as [Hs|_].
    { rewrite length_app in Hs. lia. }
    rewrite loopBody_no_header.
    + rewrite Hbuf. cbn [app tl length Nat.sub].
      apply (IH fuel rest {| packetBuffer := garbage ++ rest; closure := closure p;
                             emitted := emitted p |} Hall Hrest eq_refl). lia.
    + rewrite Hbuf. cbn [app head option_map]. unfold notHeader in Hg.
      intros [= Heq]. rewrite Heq, Z.eqb_refl in Hg. discriminate.
Qed.

(** Framing round trip, with resynchronisation.  A stream made of any
    bytes other than the header byte followed by one or more frames,
    arriving on an empty buffer in chunks cut anywhere, is reassembled
    into exactly those frames, in order: the bytes before the first
    frame are dropped, each frame is handled by [parseResponse] in
    turn, and the buffer is empty at the end. *)
Theorem framed_stream_is_reassembled :
  forall (chunks : list (list byte)) (garbage frame : list byte)
         (frames : list (list byte)) (s : State),
    Forall (fun b => notHeader b = true) garbage ->
    Forall (fun f => wellFramed f = true) (frame :: frames) ->
    concat chunks = (garbage ++ concat (frame :: frames))%list ->
    portFeed chunks (initialPort s) =
    Some (Returned tt {| packetBuffer := [];
                         closure := handleAll (frame :: frames) s;
                         emitted := frame :: frames |}).
Proof.
  intros chunks garbage frame frames s Hg Hall Hcat.
  assert (Hlen : 5 <= Z.of_nat (length (concat (frame :: frames)))).
  { apply Forall_cons_iff in Hall as [Hwf _].
    pose proof (wellFramed_length _ Hwf). cbn [concat]. rewrite length_app. lia. }
  destruct chunks as [|data rest].
  { cbn [concat] in Hcat. symmetry in Hcat.
    apply app_eq_nil in Hcat as [_ Hcat]. cbn [concat] in Hlen.
    rewrite Hcat in Hlen. cbn [length] in Hlen. lia. }
  unfold portFeed. rewrite (feed_chunks _ _ parseResponse_consumes).
  change (concat (data :: rest)) with (data ++ concat rest)%list in Hcat.
  rewrite Hcat. unfold onData, initialPort.
  cbn [packetBuffer closure emitted]. rewrite app_nil_l.
  rewrite (portLoop_garbage garbage _ (concat (frame :: frames))
             {| packetBuffer := garbage ++ concat (frame :: frames);
                closure := s; emitted := [] |} Hg Hlen eq_refl (Nat.le_refl _)).
  cbn [closure emitted].
  rewrite (portLoop_frames (frame :: frames) _
             {| packetBuffer := concat (frame :: frames); closure := s;
                emitted := [] |} Hall eq_refl).
  - reflexivity.
  - rewrite length_app. lia.
Qed.

Lemma framed_stream_witness :
  Forall (fun b => notHeader b = true) (fromHex "0102") /\
  Forall (fun f => wellFramed f = true) [tag_frame_A; tag_frame_B] /\
  concat [fromHex "0102ff0b21"; fromHex "00000000000000aaaaaaaa0000";
          fromHex "0000ff0b2100000000000000bbbbbbbb00000000"]
  = (fromHex "0102" ++ concat [tag_frame_A; tag_frame_B])%list /\
  portFeed [fromHex "0102ff0b21"; fromHex "00000000000000aaaaaaaa0000";
            fromHex "0000ff0b2100000000000000bbbbbbbb00000000"]
    (initialPort read_tag_session)
  = Some (Returned tt {| packetBuffer := [];
                         closure := handleAll [tag_frame_A; tag_frame_B]
                                      read_tag_session;
                         emitted := [tag_frame_A; tag_frame_B] |}).
Proof.
  assert (Hg : Forall (fun b => notHeader b = true) (fromHex "0102"))
    by (repeat constructor).
  assert (Hall : Forall (fun f => wellFramed f = true) [tag_frame_A; tag_frame_B])
    by (repeat constructor).
  assert (Hcat : concat [fromHex "0102ff0b21"; fromHex "00000000000000aaaaaaaa0000";
                         fromHex "0000ff0b2100000000000000bbbbbbbb00000000"]
                 = (fromHex "0102" ++ concat [tag_frame_A; tag_frame_B])%list)
    by (vm_compute; reflexivity).
  split; [exact Hg|]. split; [exact Hall|]. split; [exact Hcat|].
  exact (framed_stream_is_reassembled _ _ _ _ read_tag_session Hg Hall Hcat).
Defined.

(** ** [sendWithCrc], by the kind of command *)

Lemma sendWithCrc_afterSend (data : list byte) (s : State) :
  sendWithCrc data s = Returned tt (afterSend data s).
Proof.
  unfold sendWithCrc. unfold bind at 1. rewrite writeUInt16BE_crc.
  rewrite sliceFrom_1. unfold afterSend, clearedTimers, withCrc.
  destruct (String.prefix Constants.HEX_SCAN_START (toHex data)).
  - unfold_m.
    cbn [refreshIntervalId set_isScanning set_scannedTagsCumulative
         set_scannedTagsRefresh set_portWrites].
    destruct (refreshIntervalId s); reflexivity.
  - destruct (String.prefix Constants.HEX_SCAN_STOP (toHex data)); [|reflexivity].
    unfold_m. cbn [isScanning set_portWrites andb].
    destruct (isScanning s); [|reflexivity].
    cbn [refreshIntervalId set_isScanning set_portWrites].
    destruct (refreshIntervalId s); rewrite logScannedTags_state; reflexivity.
Qed.

(** ** The inventory reload touches the index only *)

Lemma set_inventoryData_same (s : State) :
  set_inventoryData (inventoryData s) s = s.
Proof. destruct s; reflexivity. Qed.

Lemma loadRow_frame (idIndex epcIndex itemIndex i : Z) (line : string) (s : State) :
  exists inv : gmap string Item,
    stateOf (loadRow idIndex epcIndex itemIndex i line s) = set_inventoryData inv s.
Proof.
  unfold loadRow. unfold_m.
  repeat match goal with
         | |- context [match ?o with Some _ => _ | None => _ end] =>
             destruct o eqn:?
         | |- context [if ?b then _ else _] => destruct b eqn:?
         end; cbn [stateOf];
    solve [eexists; reflexivity
          |exists (inventoryData s); symmetry; apply set_inventoryData_same].
Qed.

Lemma loadRows_frame (rows : list string) :
  forall (idIndex epcIndex itemIndex i : Z) (s : State),
  exists inv : gmap string Item,
    stateOf (loadRows idIndex epcIndex itemIndex i rows s) = set_inventoryData inv s.
Proof.
  induction rows as [|line rows IH]; intros idIndex epcIndex itemIndex i s.
  - exists (inventoryData s). symmetry. apply set_inventoryData_same.
  - cbn [loadRows]. unfold bind.
    destruct (loadRow_frame idIndex epcIndex itemIndex i line s) as [inv Hrow].
    destruct (loadRow idIndex epcIndex itemIndex i line s) as [u s'|e s'];
      cbn [stateOf] in Hrow; subst s'.
    + destruct (IH idIndex epcIndex itemIndex (i + 1) (set_inventoryData inv s))
        as [inv' Hrows].
      exists inv'. rewrite Hrows. reflexivity.
    + now exists inv.
Qed.

Lemma parseInventoryData_frame (csvData : string) (s : State) :
  exists inv : gmap string Item,
    stateOf (parseInventoryData csvData s) = set_inventoryData inv s.
Proof.
  unfold parseInventoryData. unfold_m.
  destruct (nonBlankLines csvData) as [|headerLine rows]; [now exists ∅|].
  destruct (indexOf "EPC" (headersOf headerLine) =? -1); [now exists ∅|].
  destruct (loadRows_frame rows (indexOf "id" (headersOf headerLine))
              (indexOf "EPC" (headersOf headerLine))
              (indexOf "item" (headersOf headerLine)) 1 (set_inventoryData ∅ s))
    as [inv Hinv].
  exists inv. rewrite Hinv. reflexivity.
Qed.

Lemma loadInventory_frame (fileText : option string) (s : State) :
  exists inv : gmap string Item,
    stateOf (loadInventory fileText s) = set_inventoryData inv s.
Proof.
  unfold loadInventory. destruct fileText as [data|].
  - destruct (parseInventoryData_frame data s) as [inv Hinv]. exists inv.
    destruct (parseInventoryData data s); exact Hinv.
  - exists (inventoryData s). symmetry. apply set_inventoryData_same.
Qed.

Lemma loadRow_entry (idIndex epcIndex itemIndex i : Z) (line : string) (s : State) :
  stateOf (loadRow idIndex epcIndex itemIndex i line s) = s \/
  exists (cell : string) (it : Item),
    at_index (split "," line) epcIndex = Some cell /\
    trim cell <> EmptyString /\ epc it = trim cell /\
    stateOf (loadRow idIndex epcIndex itemIndex i line s) =
    set_inventoryData (<[trim cell := it]> (inventoryData s)) s.
Proof.
  unfold loadRow. unfold_m.
  destruct (at_index (split "," line) epcIndex) as [cell|]; [|now left].
  destruct (String.eqb_spec (trim cell) EmptyString) as [Hempty|Hkey];
    cbn [negb].
  - left.
    repeat match goal with
           | |- context [match ?o with Some _ => _ | None => _ end] =>
               destruct o eqn:?
           | |- context [if ?b then _ else _] => destruct b eqn:?
           end; reflexivity.
  - destruct (negb (itemIndex =? -1)).
    + destruct (at_index (split "," line) itemIndex) as [itemCell|]; [|now left].
      right. eexists cell, _. repeat split; [exact Hkey|reflexivity].
    + right. eexists cell, _. repeat split; [exact Hkey|reflexivity].
Qed.

Lemma loadRows_entries (rows : list string) :
  forall (idIndex epcIndex itemIndex i : Z) (s : State) (key : string) (it : Item),
    inventoryData (stateOf (loadRows idIndex epcIndex itemIndex i rows s)) !! key
    = Some it ->
    inventoryData s !! key = Some it \/
    (epc it = key /\ key <> EmptyString /\
     exists line cell : string,
       In line rows /\ at_index (split "," line) epcIndex = Some cell /\
       key = trim cell).
Proof.
  induction rows as [|line rows IH];
    intros idIndex epcIndex itemIndex i s key it Hget.
  - now left.
  - cbn [loadRows] in Hget. unfold bind in Hget.
    assert (Hstep : forall s' : State,
               stateOf (loadRow idIndex epcIndex itemIndex i line s) = s' ->
               inventoryData s' !! key = Some it ->
               inventoryData s !! key = Some it \/
               (epc it = key /\ key <> EmptyString /\
                exists line' cell : string,
                  In line' (line :: rows) /\
                  at_index (split "," line') epcIndex = Some cell /\
                  key = trim cell)).
    { intros s' Hs' Hkey. subst s'.
      destruct (loadRow_entry idIndex epcIndex itemIndex i line s)
        as [Hsame|(cell & it' & Hcell & Hne & Hepc & Hset)].
      - left. now rewrite <- Hsame.
      - rewrite Hset in Hkey. cbn [inventoryData set_inventoryData] in Hkey.
        destruct (decide (trim cell = key)) as [Heq|Hneq].
        + subst key. rewrite lookup_insert_eq in Hkey. injection Hkey as <-.
          right. split; [exact Hepc|]. split; [exact Hne|].
          exists line, cell. split; [now left|]. now split.
        + rewrite lookup_insert_ne in Hkey by exact Hneq. now left. }
    destruct (loadRow idIndex epcIndex itemIndex i line s) as [u s'|e s'];
      cbn [stateOf] in *.
    + destruct (IH _ _ _ _ _ _ _ Hget)
        as [Hold|(Hepc & Hne & line' & cell & Hin & Hcell & Hkey)].
      * exact (Hstep s' eq_refl Hold).
      * right. split; [exact Hepc|]. split; [exact Hne|].
        exists line', cell. split; [now right|]. now split.
    + exact (Hstep s' eq_refl Hget).
Qed.

Lemma parseInventoryData_entries (csvData : string) (s : State)
  (key : string) (it : Item) :
  inventoryData (stateOf (parseInventoryData csvData s)) !! key = Some it ->
  epc it = key /\ key <> EmptyString /\
  exists line cell : string,
    In line (tl (nonBlankLines csvData)) /\
    at_index (split "," line)
      (indexOf "EPC" (headersOf (hd EmptyString (nonBlankLines csvData))))
    = Some cell /\
    key = trim cell.
Proof.
  unfold parseInventoryData. unfold_m.
  destruct (nonBlankLines csvData) as [|headerLine rows];
    [cbn; now rewrite lookup_empty|].
  destruct (indexOf "EPC" (headersOf headerLine) =? -1);
    [cbn; now rewrite lookup_empty|].
  intros Hget. apply loadRows_entries in Hget as [Hold|Hnew].
  - cbn in Hold. now rewrite lookup_empty in Hold.
  - exact Hnew.
Qed.

(** An inventory reload changes nothing of the closure state but the
    index; and every entry of the new index is stored under its own
    identifier, which is not empty and is the trimmed cell of the [EPC]
    column of one of the data rows of the text. *)
Theorem reload_changes_the_index_only :
  forall (csvData : string) (s : State),
  exists inv : gmap string Item,
    stateOf (parseInventoryData csvData s) = set_inventoryData inv s /\
    forall (key : string) (it : Item),
      inv !! key = Some it ->
      epc it = key /\ key <> EmptyString /\
      exists line cell : string,
        In line (tl (nonBlankLines csvData)) /\
        at_index (split "," line)
          (indexOf "EPC" (headersOf (hd EmptyString (nonBlankLines csvData))))
        = Some cell /\
        key = trim cell.
Proof.
  intros csvData s.
  destruct (parseInventoryData_frame csvData s) as [inv Hinv].
  exists inv. split; [exact Hinv|]. intros key it Hkey.
  apply (parseInventoryData_entries csvData s). now rewrite Hinv.
Qed.

(** ** A row that is too short *)

Lemma loadRow_too_short (idIndex epcIndex itemIndex i : Z) (line : string)
  (s : State) :
  rowTooShort epcIndex itemIndex line = true ->
  loadRow idIndex epcIndex itemIndex i line s = Thrown TypeError s.
Proof.
  unfold rowTooShort, loadRow. unfold_m.
  destruct (at_index (split "," line) epcIndex) as [cell|]; [|reflexivity].
  destruct (itemIndex =? -1); [discriminate|]. cbn [negb].
  destruct (at_index (split "," line) itemIndex); [discriminate|reflexivity].
Qed.

Lemma loadRow_long_enough (idIndex epcIndex itemIndex i : Z) (line : string)
  (s : State) :
  rowTooShort epcIndex itemIndex line = false ->
  returns (loadRow idIndex epcIndex itemIndex i line s) = true.
Proof.
  unfold rowTooShort, loadRow. unfold_m.
  destruct (at_index (split "," line) epcIndex) as [cell|]; [|discriminate].
  destruct (itemIndex =? -1); cbn [negb].
  - intros _. destruct (negb (String.eqb (trim cell) EmptyString)); reflexivity.
  - destruct (at_index (split "," line) itemIndex); [|discriminate].
    intros _. destruct (negb (String.eqb (trim cell) EmptyString)); reflexivity.
Qed.

Lemma loadRows_good (good : list string) :
  forall (idIndex epcIndex itemIndex i : Z) (rest : list string) (s : State),
    Forall (fun line => rowTooShort epcIndex itemIndex line = false) good ->
    exists s1 : State,
      loadRows idIndex epcIndex itemIndex i good s = Returned tt s1 /\
      loadRows idIndex epcIndex itemIndex i (good ++ rest) s =
      loadRows idIndex epcIndex itemIndex (i + Z.of_nat (length good)) rest s1.
Proof.
  induction good as [|line good IH];
    intros idIndex epcIndex itemIndex i rest s Hall.
  - exists s. split; [reflexivity|]. cbn [app length]. now rewrite Z.add_0_r.
  - apply Forall_cons_iff in Hall as [Hline Hall].
    pose proof (loadRow_long_enough idIndex epcIndex itemIndex i line s Hline)
      as Hret.
    cbn [loadRows app]. unfold bind.
    destruct (loadRow idIndex epcIndex itemIndex i line s) as [u s'|e s'];
      [|discriminate].
    destruct (IH idIndex epcIndex itemIndex (i + 1) rest s' Hall)
      as (s1 & Hgood & Happ).
    exists s1. split; [exact Hgood|]. rewrite Happ. f_equal.
    cbn [length]. lia.
Qed.

(** When a data row is too short for the [EPC] column, or for the
    [item] column the header has, [parseInventoryData] throws a
    [TypeError] at that row: the index then holds the rows before it,
    loaded into the emptied index, and none of the rows after it.
    [loadInventory] catches the exception and returns with the same
    partly loaded index. *)
Theorem short_row_stops_the_load :
  forall (csvData headerLine : string) (good : list string) (bad : string)
         (rest : list string) (s : State),
    nonBlankLines csvData = headerLine :: (good ++ bad :: rest)%list ->
    indexOf "EPC" (headersOf headerLine) <> -1 ->
    Forall (fun line =>
              rowTooShort (indexOf "EPC" (headersOf headerLine))
                (indexOf "item" (headersOf headerLine)) line = false) good ->
    rowTooShort (indexOf "EPC" (headersOf headerLine))
      (indexOf "item" (headersOf headerLine)) bad = true ->
    exists s1 : State,
      loadRows (indexOf "id" (headersOf headerLine))
        (indexOf "EPC" (headersOf headerLine))
        (indexOf "item" (headersOf headerLine)) 1 good (set_inventoryData ∅ s)
      = Returned tt s1 /\
      parseInventoryData csvData s = Thrown TypeError s1 /\
      loadInventory (Some csvData) s = Returned tt s1.
Proof.
  intros csvData headerLine good bad rest s Hlines Hepc Hgood Hbad.
  destruct (loadRows_good good (indexOf "id" (headersOf headerLine))
              (indexOf "EPC" (headersOf headerLine))
              (indexOf "item" (headersOf headerLine)) 1 (bad :: rest)
              (set_inventoryData ∅ s) Hgood) as (s1 & Hs1 & Happ).
  exists s1. split; [exact Hs1|].
  assert (E : parseInventoryData csvData s = Thrown TypeError s1).
  { unfold parseInventoryData. unfold_m. rewrite Hlines.
    destruct (Z.eqb_spec (indexOf "EPC" (headersOf headerLine)) (-1));
      [contradiction|].
    rewrite Happ. cbn [loadRows]. unfold bind.
    now rewrite loadRow_too_short. }
  split; [exact E|]. unfold loadInventory. now rewrite E.
Qed.

Lemma short_row_witness :
  exists s1 : State,
    parseInventoryData
      ("id,EPC,item" ++ newline ++ "9,AAAAAAAA,soldering-iron" ++ newline
       ++ "7" ++ newline ++ "8,BBBBBBBB,pliers")
      loaded_inventory = Thrown TypeError s1 /\
    inventoryData s1 !! "AAAAAAAA" =
      Some {| id := Some 9; epc := "AAAAAAAA"; item := "soldering-iron" |} /\
    inventoryData s1 !! "BBBBBBBB" = None /\
    inventoryData s1 !! "E28069150000401F7AB919BB" = None.
Proof.
  destruct (short_row_stops_the_load
              ("id,EPC,item" ++ newline ++ "9,AAAAAAAA,soldering-iron" ++ newline
               ++ "7" ++ newline ++ "8,BBBBBBBB,pliers")
              "id,EPC,item" ["9,AAAAAAAA,soldering-iron"] "7" ["8,BBBBBBBB,pliers"]
              loaded_inventory eq_refl)
    as (s1 & Hs1 & Hthrow & _).
  - vm_compute. discriminate.
  - repeat constructor.
  - reflexivity.
  - exists s1. split; [exact Hthrow|].
    injection Hs1 as <-. by_computation.
Defined.

(** ** Invariants of the handlers

    A property of the closure state that the elementary steps of the
    handlers keep is kept by every handler, hence by every run. *)

Section Invariants.

Variable P : State -> Prop.

Hypothesis P_send : forall data s, P s -> P (afterSend data s).
Hypothesis P_autoModeState : forall v s, P s -> P (set_autoModeState v s).
Hypothesis P_mode : forall v s, P s -> P (set_mode v s).
Hypothesis P_readTagScans : forall v s, P s -> P (set_readTagScans v s).
Hypothesis P_wsClients : forall v s, P s -> P (set_wsClients v s).
Hypothesis P_count : forall ident s, P s -> P (stateOf (countObserve ident s)).
Hypothesis P_flush : forall s, P s -> P (afterFlush s).
Hypothesis P_timeout : forall s, P s -> P (withTimeout s).
Hypothesis P_spent :
  forall h t s,
    find (fun t => Nat.eqb (handle t) h) (timers s) = Some t ->
    repeating t = false -> P s -> P (withoutTimer h s).
Hypothesis P_parse :
  forall csvData s, P s -> P (stateOf (parseInventoryData csvData s)).
Hypothesis P_now : forall v s, P s -> P (set_now v s).

Lemma parseResponse_invariant (frame : list byte) (s : State) :
  P s -> P (stateOf (parseResponse frame s)).
Proof using P_send P_autoModeState P_readTagScans P_wsClients P_count.
  intros HP. unfold parseResponse. unfold_m.
  destruct frame as [|b0 [|b1 [|b2 [|b3 [|b4 rest]]]]];
    repeat match goal with
           | |- context [if ?b then _ else _] => destruct b
           end;
    cbn [stateOf]; try exact HP;
    try (rewrite sendWithCrc_afterSend; cbn [stateOf];
         apply P_send, P_autoModeState, HP);
    try (rewrite readTagObserve_state; cbn [stateOf];
         apply P_wsClients, P_readTagScans, HP);
    apply P_count, HP.
Qed.

Lemma fireTimer_invariant (h : nat) (s : State) :
  P s -> P (stateOf (fireTimer h s)).
Proof using P_send P_flush P_spent.
  intros HP. unfold fireTimer. unfold bind at 1. unfold gets.
  destruct (find (fun t => Nat.eqb (handle t) h) (timers s)) as [t|] eqn:Hfind;
    [|exact HP].
  assert (Hcb : forall s0 : State, P s0 -> P (stateOf (runCallback (callback t) s0))).
  { intros s0 HP0. destruct (callback t); cbn [runCallback].
    - rewrite logScannedTags_state. apply P_flush, HP0.
    - unfold handshakeTimeout. unfold_m.
      destruct (autoModeState s0 =? 1); [|exact HP0].
      rewrite sendWithCrc_afterSend. apply P_send, HP0. }
  destruct (repeating t) eqn:Hrep; unfold_m.
  - apply Hcb, HP.
  - apply Hcb. exact (P_spent h t s Hfind Hrep HP).
Qed.

Lemma startAutoMode_state (s : State) :
  startAutoMode s =
  Returned tt
    (withTimeout
       (set_autoModeState 1 (afterSend (fromHex Constants.HEX_START_APP) s))).
Proof.
  unfold startAutoMode. unfold bind at 1. rewrite sendWithCrc_afterSend.
  reflexivity.
Qed.

Lemma runOp_invariant (op : Op) (s : State) : P s -> P (stateOf (runOp op s)).
Proof using All.
  intros HP. destruct op as [frame|h| |fileText|csvData|path| | | |clock];
    cbn [runOp].
  - now apply parseResponse_invariant.
  - now apply fireTimer_invariant.
  - rewrite startAutoMode_state. apply P_timeout, P_autoModeState, P_send, HP.
  - unfold loadInventory. destruct fileText as [data|]; [|exact HP].
    pose proof (P_parse data s HP) as Hparse.
    destruct (parseInventoryData data s); exact Hparse.
  - now apply P_parse.
  - unfold wsStart. unfold_m. rewrite sendWithCrc_afterSend.
    apply P_send, P_readTagScans, P_mode, HP.
  - unfold wsStop. unfold_m. rewrite sendWithCrc_afterSend.
    apply P_send, P_readTagScans, HP.
  - unfold wsReadTag. unfold_m. rewrite sendWithCrc_afterSend.
    apply P_send, P_readTagScans, P_mode, HP.
  - unfold onSigint. rewrite sendWithCrc_afterSend. apply P_send, HP.
  - apply P_now, HP.
Qed.

Lemma runOps_invariant (ops : list Op) : forall s : State, P s -> P (runOps ops s).
Proof using All.
  induction ops as [|op ops IH]; intros s HP; [exact HP|].
  cbn [runOps fold_left]. apply IH. now apply runOp_invariant.
Qed.

End Invariants.

(** ** The flush interval is pending exactly while a scan is on *)


(** Filtering by a boolean test, as a recursion on the list. *)
Lemma filter_bool {A : Type} (p : A -> bool) (l : list A) :
  filter (fun a => p a) l = List.filter p l.
Proof.
  induction l as [|a l IH]; [reflexivity|].
  rewrite filter_cons, IH. cbn [List.filter]. destruct (p a); reflexivity.
Qed.


Lemma clearedTimers_timers (s : State) :
  clearedTimers s =
  match refreshIntervalId s with
  | Some h => List.filter (fun t => negb (Nat.eqb (handle t) h)) (timers s)
  | None => timers s
  end.
Proof.
  unfold clearedTimers. destruct (refreshIntervalId s); [|reflexivity].
  now rewrite filter_bool.
Qed.
















(** ** The window counts stay within the cumulative counts *)

Lemma countObserve_state (ident : string) (s : State) :
  countObserve ident s =
  Returned tt
    (if counted s ident then
       set_scannedTagsRefresh
         (JsMap.set ident (bump (now s) (JsMap.get ident (scannedTagsRefresh s)))
            (scannedTagsRefresh s))
         (set_scannedTagsCumulative
            (JsMap.set ident
               (bump (now s) (JsMap.get ident (scannedTagsCumulative s)))
               (scannedTagsCumulative s)) s)
     else s).
Proof.
  unfold countObserve, counted. unfold_m.
  destruct (inventoryMode s), (bool_decide _); reflexivity.
Qed.

Lemma countIn_bump (table : JsMap.t ScanEntry) (stamp ident x : string) :
  countIn (JsMap.set ident (bump stamp (JsMap.get ident table)) table) x =
  countIn table x + (if String.eqb x ident then 1 else 0).
Proof.
  unfold countIn. rewrite get_set.
  destruct (String.eqb_spec x ident) as [->|Hne]; [|lia].
  unfold bump. destruct (JsMap.get ident table); reflexivity.
Qed.

Lemma windowWithinCumulative_ext (s s' : State) :
  scannedTagsCumulative s' = scannedTagsCumulative s ->
  scannedTagsRefresh s' = scannedTagsRefresh s ->
  windowWithinCumulative s -> windowWithinCumulative s'.
Proof.
  intros Hc Hr. unfold windowWithinCumulative. now rewrite Hc, Hr.
Qed.

Lemma windowWithinCumulative_cleared (s s' : State) :
  scannedTagsCumulative s' = scannedTagsCumulative s ->
  scannedTagsRefresh s' = JsMap.empty ->
  windowWithinCumulative s -> windowWithinCumulative s'.
Proof.
  intros Hc Hr [Hcum _]. unfold windowWithinCumulative. rewrite Hc, Hr.
  split; [exact Hcum|]. intros ident entry H. discriminate H.
Qed.

Lemma windowWithinCumulative_afterFlush (s : State) :
  windowWithinCumulative s -> windowWithinCumulative (afterFlush s).
Proof.
  apply windowWithinCumulative_cleared; unfold afterFlush;
    destruct (inventoryUpdates s); reflexivity.
Qed.

Lemma windowWithinCumulative_afterSend (data : list byte) (s : State) :
  windowWithinCumulative s -> windowWithinCumulative (afterSend data s).
Proof.
  intros Hs. unfold afterSend.
  destruct (String.prefix Constants.HEX_SCAN_START (toHex data)).
  - split; intros ident entry H; discriminate H.
  - destruct (String.prefix Constants.HEX_SCAN_STOP (toHex data) && isScanning s).
    + apply windowWithinCumulative_afterFlush. revert Hs.
      now apply windowWithinCumulative_ext.
    + revert Hs. now apply windowWithinCumulative_ext.
Qed.

Lemma windowWithinCumulative_countObserve (ident : string) (s : State) :
  windowWithinCumulative s ->
  windowWithinCumulative (stateOf (countObserve ident s)).
Proof.
  intros [Hcum Hwin]. rewrite countObserve_state. cbn [stateOf].
  destruct (counted s ident); [|now split].
  unfold windowWithinCumulative.
  cbn [scannedTagsCumulative scannedTagsRefresh set_scannedTagsRefresh
       set_scannedTagsCumulative].
  split; intros x entry Hget; rewrite get_set in Hget.
  - destruct (String.eqb x ident); [|now apply (Hcum x)].
    injection Hget as <-. unfold bump. cbn [count].
    destruct (JsMap.get ident (scannedTagsCumulative s)) as [e|] eqn:He;
      [apply Hcum in He|cbn [count]]; lia.
  - rewrite countIn_bump.
    destruct (String.eqb_spec x ident) as [->|Hne].
    + injection Hget as <-. unfold bump. cbn [count].
      destruct (JsMap.get ident (scannedTagsRefresh s)) as [e|] eqn:He.
      * apply Hwin in He. lia.
      * cbn [count]. unfold countIn.
        destruct (JsMap.get ident (scannedTagsCumulative s)) as [e|] eqn:Hc;
          [apply Hcum in Hc|]; lia.
    + apply Hwin in Hget. lia.
Qed.

(** However the handlers are interleaved, every count of the two scan
    tables is at least 1, and an identifier counted in the window table
    is counted in the cumulative table at least as often: the window
    never reports more reads than the session has seen. *)
Theorem window_counts_within_cumulative_counts :
  forall (ops : list Op) (s : State),
    windowWithinCumulative s -> windowWithinCumulative (runOps ops s).
Proof.
  intros ops. apply runOps_invariant.
  - exact windowWithinCumulative_afterSend.
  - intros v s. now apply windowWithinCumulative_ext.
  - intros v s. now apply windowWithinCumulative_ext.
  - intros v s. now apply windowWithinCumulative_ext.
  - intros v s. now apply windowWithinCumulative_ext.
  - exact windowWithinCumulative_countObserve.
  - exact windowWithinCumulative_afterFlush.
  - intros s. now apply windowWithinCumulative_ext.
  - intros h t s _ _. now apply windowWithinCumulative_ext.
  - intros csvData s. destruct (parseInventoryData_frame csvData s) as [inv ->].
    now apply windowWithinCumulative_ext.
  - intros v s. now apply windowWithinCumulative_ext.
Qed.

Lemma window_counts_witness :
  windowWithinCumulative (initialState "auto" 5 true example_clock) /\
  windowWithinCumulative
    (runOps [OpWsStart None; OpFrame tag_frame_A; OpFrame tag_frame_A;
             OpTimer 1; OpFrame tag_frame_A]
       (initialState "auto" 5 true example_clock)).
Proof.
  assert (H : windowWithinCumulative (initialState "auto" 5 true example_clock)).
  { split; intros ident entry Hget; discriminate Hget. }
  split; [exact H|].
  exact (window_counts_within_cumulative_counts _ _ H).
Defined.

(** ** What is fixed at start-up *)

Lemma fixed_afterFlush (s : State) :
  inventoryMode (afterFlush s) = inventoryMode s /\
  refreshPeriod (afterFlush s) = refreshPeriod s /\
  isDbgLogEnabled (afterFlush s) = isDbgLogEnabled s.
Proof. unfold afterFlush. destruct (inventoryUpdates s); now repeat split. Qed.

Lemma fixed_afterSend (data : list byte) (s : State) :
  inventoryMode (afterSend data s) = inventoryMode s /\
  refreshPeriod (afterSend data s) = refreshPeriod s /\
  isDbgLogEnabled (afterSend data s) = isDbgLogEnabled s.
Proof.
  unfold afterSend.
  destruct (String.prefix Constants.HEX_SCAN_START (toHex data));
    [now repeat split|].
  destruct (String.prefix Constants.HEX_SCAN_STOP (toHex data) && isScanning s);
    [|now repeat split].
  match goal with
  | |- context [afterFlush ?x] => destruct (fixed_afterFlush x) as (-> & -> & ->)
  end.
  now repeat split.
Qed.

Lemma runOps_fixed (ops : list Op) (s : State) :
  inventoryMode (runOps ops s) = inventoryMode s /\
  refreshPeriod (runOps ops s) = refreshPeriod s /\
  isDbgLogEnabled (runOps ops s) = isDbgLogEnabled s.
Proof.
  apply (runOps_invariant
           (fun s' => inventoryMode s' = inventoryMode s /\
                      refreshPeriod s' = refreshPeriod s /\
                      isDbgLogEnabled s' = isDbgLogEnabled s));
    [| | | | | | | | | | |now repeat split].
  - intros data s' H. destruct (fixed_afterSend data s') as (-> & -> & ->).
    exact H.
  - intros v s' H. exact H.
  - intros v s' H. exact H.
  - intros v s' H. exact H.
  - intros v s' H. exact H.
  - intros ident s' H. rewrite countObserve_state. cbn [stateOf].
    destruct (counted s' ident); exact H.
  - intros s' H. destruct (fixed_afterFlush s') as (-> & -> & ->). exact H.
  - intros s' H. exact H.
  - intros h t s' _ _ H. exact H.
  - intros csvData s' H.
    destruct (parseInventoryData_frame csvData s') as [inv ->]. exact H.
  - intros v s' H. exact H.
Qed.

(** ** A counting window *)

Lemma counted_ext (s s' : State) (x : string) :
  inventoryMode s' = inventoryMode s -> inventoryData s' = inventoryData s ->
  counted s' x = counted s x.
Proof. intros Hm Hd. unfold counted. now rewrite Hm, Hd. Qed.

Lemma handleAll_counting (frames : list (list byte)) :
  forall s : State,
    String.eqb (mode s) Constants.MODE_READ_TAG = false ->
    isScanning s = true ->
    Forall (fun f => isTagRead f = true) frames ->
    (inventoryData (handleAll frames s) = inventoryData s /\
     wsClients (handleAll frames s) = wsClients s) /\
    (forall x : string,
        countIn (scannedTagsRefresh (handleAll frames s)) x =
        countIn (scannedTagsRefresh s) x
        + (if counted s x then occurrences x (map identifierOf frames) else 0)) /\
    (forall x : string,
        countIn (scannedTagsCumulative (handleAll frames s)) x =
        countIn (scannedTagsCumulative s) x
        + (if counted s x then occurrences x (map identifierOf frames) else 0)) /\
    (List.NoDup (JsMap.keys (scannedTagsRefresh s)) ->
     List.NoDup (JsMap.keys (scannedTagsRefresh (handleAll frames s)))).
Proof.
  induction frames as [|frame frames IH]; intros s Hmode Hscan Hall.
  - cbn [handleAll fold_left map occurrences].
    repeat split; try tauto; intros x; destruct (counted s x); lia.
  - apply Forall_cons_iff in Hall as [Hframe Hall].
    cbn [handleAll fold_left map].
    rewrite (parseResponse_tag_read frame s Hframe Hscan), Hmode.
    rewrite countObserve_state. cbn [stateOf].
    set (ident := identifierOf frame).
    set (s1 := if counted s ident then _ else s).
    assert (Hs1 : mode s1 = mode s /\ isScanning s1 = isScanning s /\
                  inventoryMode s1 = inventoryMode s /\
                  inventoryData s1 = inventoryData s /\
                  wsClients s1 = wsClients s)
      by (subst s1; destruct (counted s ident); now repeat split).
    destruct Hs1 as (Hm1 & Hsc1 & Him1 & Hid1 & Hws1).
    assert (Hc1 : forall x, counted s1 x = counted s x)
      by (intros x; now apply counted_ext).
    assert (Hr1 : forall x,
               countIn (scannedTagsRefresh s1) x =
               countIn (scannedTagsRefresh s) x
               + (if counted s ident
                  then if String.eqb x ident then 1 else 0 else 0)).
    { intros x. subst s1. destruct (counted s ident); [|lia].
      cbn [scannedTagsRefresh set_scannedTagsRefresh]. apply countIn_bump. }
    assert (Hcum1 : forall x,
               countIn (scannedTagsCumulative s1) x =
               countIn (scannedTagsCumulative s) x
               + (if counted s ident
                  then if String.eqb x ident then 1 else 0 else 0)).
    { intros x. subst s1. destruct (counted s ident); [|lia].
      cbn [scannedTagsCumulative set_scannedTagsRefresh set_scannedTagsCumulative].
      apply countIn_bump. }
    assert (Hnd1 : List.NoDup (JsMap.keys (scannedTagsRefresh s)) ->
                   List.NoDup (JsMap.keys (scannedTagsRefresh s1))).
    { subst s1. destruct (counted s ident); [|trivial].
      cbn [scannedTagsRefresh set_scannedTagsRefresh]. apply keys_set_NoDup. }
    assert (Hmode1 : String.eqb (mode s1) Constants.MODE_READ_TAG = false)
      by now rewrite Hm1.
    assert (Hscan1 : isScanning s1 = true) by now rewrite Hsc1.
    destruct (IH s1 Hmode1 Hscan1 Hall) as ((Hinv & Hws) & Hr & Hcum & Hnd).
    change (fold_left (fun s0 frame0 => stateOf (parseResponse frame0 s0)) frames s1)
      with (handleAll frames s1).
    assert (Hsum : forall x,
               (if counted s ident then if String.eqb x ident then 1 else 0 else 0)
               + (if counted s x then occurrences x (map identifierOf frames) else 0)
               = if counted s x
                 then occurrences x (ident :: map identifierOf frames) else 0).
    { intros x. cbn [occurrences].
      destruct (String.eqb_spec x ident) as [->|Hne].
      - destruct (counted s ident); lia.
      - destruct (counted s ident), (counted s x); lia. }
    split; [split; congruence|]. split; [|split].
    + intros x. rewrite Hr, Hc1, Hr1, <- Hsum. lia.
    + intros x. rewrite Hcum, Hc1, Hcum1, <- Hsum. lia.
    + intros H. apply Hnd, Hnd1, H.
Qed.

Lemma known_is_counted (s : State) (x : string) (it : Item) :
  inventoryData s !! x = Some it -> counted s x = true.
Proof.
  intros Hx. unfold counted. rewrite Hx.
  rewrite bool_decide_eq_true_2 by (now exists it). apply orb_true_r.
Qed.

(** The records of the flush that follows a window. *)
Lemma window_records (frames : list (list byte)) (s : State) :
  String.eqb (mode s) Constants.MODE_READ_TAG = false ->
  isScanning s = true ->
  scannedTagsRefresh s = JsMap.empty ->
  Forall (fun f => isTagRead f = true) frames ->
  List.NoDup (map u_epc (inventoryUpdates (handleAll frames s))) /\
  (forall u : Update,
      In u (inventoryUpdates (handleAll frames s)) ->
      u_count u = occurrences (u_epc u) (map identifierOf frames) /\
      exists it : Item,
        inventoryData s !! u_epc u = Some it /\
        u_id u = id it /\ u_item u = item it) /\
  (forall (x : string) (it : Item),
      inventoryData s !! x = Some it ->
      1 <= occurrences x (map identifierOf frames) ->
      exists u : Update,
        In u (inventoryUpdates (handleAll frames s)) /\
        u_epc u = x /\ u_count u = occurrences x (map identifierOf frames)).
Proof.
  intros Hmode Hscan Hempty Hall.
  destruct (handleAll_counting frames s Hmode Hscan Hall)
    as ((Hinv & Hws) & Hr & Hcum & Hnd).
  rewrite Hempty in Hr, Hnd.
  assert (Hkeys : List.NoDup (JsMap.keys (scannedTagsRefresh (handleAll frames s))))
    by (apply Hnd; constructor).
  split; [now apply inventoryUpdates_NoDup|]. split.
  - intros u Hu.
    apply inventoryUpdates_In in Hu as (ident & data & it & Hin & Hit & ->).
    cbn [u_count u_epc u_id u_item]. rewrite Hinv in Hit. split; [|now exists it].
    apply In_get in Hin; [|exact Hkeys].
    specialize (Hr ident). unfold countIn at 1 in Hr. rewrite Hin in Hr.
    rewrite (known_is_counted s ident it Hit) in Hr.
    change (countIn JsMap.empty ident) with 0 in Hr. lia.
  - intros x it Hx Hocc. specialize (Hr x).
    rewrite (known_is_counted s x it Hx) in Hr.
    change (countIn JsMap.empty x) with 0 in Hr. unfold countIn in Hr.
    destruct (JsMap.get x (scannedTagsRefresh (handleAll frames s)))
      as [data|] eqn:Hget; [|lia].
    eexists. split.
    + apply inventoryUpdates_In. exists x, data, it.
      split; [now apply get_In|]. split; [now rewrite Hinv|reflexivity].
    + cbn [u_epc u_count]. split; [reflexivity|lia].
Qed.

(** A counting window.  While a scan is on outside read-tag mode and
    the window table starts empty (as the scan start and every flush
    leave it), after any accepted tag-read frames the window table
    counts, for every identifier the mode counts, exactly its reads
    among the frames, and the cumulative table that many more than
    before; nothing is sent while frames are counted.  The flush that
    follows then has one record for every identifier of the index that
    was read at least once, carrying its number of reads and the id
    and item name of the index, and no other record. *)
Theorem window_counts_are_the_reads_of_the_window :
  forall (frames : list (list byte)) (s : State),
    String.eqb (mode s) Constants.MODE_READ_TAG = false ->
    isScanning s = true ->
    scannedTagsRefresh s = JsMap.empty ->
    Forall (fun f => isTagRead f = true) frames ->
    (forall x : string,
        countIn (scannedTagsRefresh (handleAll frames s)) x =
        if counted s x then occurrences x (map identifierOf frames) else 0) /\
    (forall x : string,
        countIn (scannedTagsCumulative (handleAll frames s)) x =
        countIn (scannedTagsCumulative s) x
        + (if counted s x then occurrences x (map identifierOf frames) else 0)) /\
    wsClients (handleAll frames s) = wsClients s /\
    (forall u : Update,
        In u (inventoryUpdates (handleAll frames s)) ->
        u_count u = occurrences (u_epc u) (map identifierOf frames) /\
        exists it : Item,
          inventoryData s !! u_epc u = Some it /\
          u_id u = id it /\ u_item u = item it) /\
    (forall (x : string) (it : Item),
        inventoryData s !! x = Some it ->
        1 <= occurrences x (map identifierOf frames) ->
        exists u : Update,
          In u (inventoryUpdates (handleAll frames s)) /\
          u_epc u = x /\ u_count u = occurrences x (map identifierOf frames)).
Proof.
  intros frames s Hmode Hscan Hempty Hall.
  destruct (handleAll_counting frames s Hmode Hscan Hall)
    as ((Hinv & Hws) & Hr & Hcum & Hnd).
  destruct (window_records frames s Hmode Hscan Hempty Hall)
    as (_ & Hrecords & Hknown).
  rewrite Hempty in Hr.
  split; [intros x; rewrite Hr; change (countIn JsMap.empty x) with 0; lia|].
  split; [exact Hcum|]. split; [exact Hws|].
  split; [exact Hrecords|exact Hknown].
Qed.

Lemma window_counts_witness_of_a_window :
  String.eqb (mode inventory_scan) Constants.MODE_READ_TAG = false /\
  isScanning inventory_scan = true /\
  scannedTagsRefresh inventory_scan = JsMap.empty /\
  Forall (fun f => isTagRead f = true) [tag_frame_A; tag_frame_B; tag_frame_A] /\
  (forall x : string,
      countIn (scannedTagsRefresh
                 (handleAll [tag_frame_A; tag_frame_B; tag_frame_A] inventory_scan)) x
      = if counted inventory_scan x
        then occurrences x
               (map identifierOf [tag_frame_A; tag_frame_B; tag_frame_A])
        else 0) /\
  map u_count
    (inventoryUpdates
       (handleAll [tag_frame_A; tag_frame_B; tag_frame_A] inventory_scan)) = [2].
Proof.
  assert (Hmode : String.eqb (mode inventory_scan) Constants.MODE_READ_TAG = false)
    by (vm_compute; reflexivity).
  assert (Hscan : isScanning inventory_scan = true) by (vm_compute; reflexivity).
  assert (Hempty : scannedTagsRefresh inventory_scan = JsMap.empty)
    by (vm_compute; reflexivity).
  assert (Hall : Forall (fun f => isTagRead f = true)
                   [tag_frame_A; tag_frame_B; tag_frame_A])
    by (repeat constructor).
  split; [exact Hmode|]. split; [exact Hscan|]. split; [exact Hempty|].
  split; [exact Hall|]. split; [|vm_compute; reflexivity].
  exact (proj1 (window_counts_are_the_reads_of_the_window
                  [tag_frame_A; tag_frame_B; tag_frame_A] inventory_scan
                  Hmode Hscan Hempty Hall)).
Defined.

(** ** The commands of the web client *)

Lemma afterSend_scanStart (s : State) :
  afterSend scanStart s =
  set_refreshIntervalId (Some (nextHandle s))
    (set_nextHandle (S (nextHandle s))
       (set_timers
          (clearedTimers s ++
           [{| handle := nextHandle s; callback := CbLogScannedTags;
               delay := refreshPeriod s * 1000; repeating := true |}])
          (set_scannedTagsRefresh JsMap.empty
             (set_scannedTagsCumulative JsMap.empty
                (set_isScanning true
                   (set_portWrites (portWrites s ++ [withCrc scanStart]) s)))))).
Proof.
  unfold afterSend.
  replace (String.prefix Constants.HEX_SCAN_START (toHex scanStart)) with true
    by (vm_compute; reflexivity).
  reflexivity.
Qed.


Lemma afterSend_startApp (s : State) :
  afterSend startApp s = set_portWrites (portWrites s ++ [withCrc startApp]) s.
Proof.
  unfold afterSend.
  replace (String.prefix Constants.HEX_SCAN_START (toHex startApp)) with false
    by (vm_compute; reflexivity).
  replace (String.prefix Constants.HEX_SCAN_STOP (toHex startApp)) with false
    by (vm_compute; reflexivity).
  reflexivity.
Qed.

Lemma afterSend_getRunningStage (s : State) :
  afterSend getRunningStage s =
  set_portWrites (portWrites s ++ [withCrc getRunningStage]) s.
Proof.
  unfold afterSend.
  replace (String.prefix Constants.HEX_SCAN_START (toHex getRunningStage))
    with false by (vm_compute; reflexivity).
  replace (String.prefix Constants.HEX_SCAN_STOP (toHex getRunningStage))
    with false by (vm_compute; reflexivity).
  reflexivity.
Qed.

Lemma wsReadTag_state (s : State) :
  wsReadTag s =
  Returned tt
    (afterSend scanStart
       (set_readTagScans JsMap.empty (set_mode Constants.MODE_READ_TAG s))).
Proof. unfold wsReadTag. unfold_m. now rewrite sendWithCrc_afterSend. Qed.

Lemma wsStart_state (inventoryFilePath : option string) (s : State) :
  wsStart inventoryFilePath s =
  Returned tt
    (afterSend scanStart
       (set_readTagScans JsMap.empty
          (set_mode (if truthy inventoryFilePath
                     then Constants.MODE_INVENTORY else Constants.MODE_AUTO) s))).
Proof. unfold wsStart. unfold_m. now rewrite sendWithCrc_afterSend. Qed.


(** The [start] and [read-tag] commands open a fresh session in any
    state: the mode is set, a scan is on, the scan-start command is
    written, and the read-tag table, the cumulative table and the
    window table are empty.  Nothing is sent to the subscribers: the
    counts of a window that was pending are dropped, not flushed.  The
    frames read after [read-tag] are then tallied from nothing. *)
Theorem start_commands_open_a_fresh_session :
  forall (s : State) (inventoryFilePath : option string)
         (frames : list (list byte)),
    (forall s' : State,
        s' = stateOf (wsReadTag s) \/ s' = stateOf (wsStart inventoryFilePath s) ->
        isScanning s' = true /\
        readTagScans s' = JsMap.empty /\
        scannedTagsCumulative s' = JsMap.empty /\
        scannedTagsRefresh s' = JsMap.empty /\
        wsClients s' = wsClients s /\
        autoModeState s' = autoModeState s /\
        portWrites s' = (portWrites s ++ [withCrc scanStart])%list /\
        refreshIntervalId s' = Some (nextHandle s)) /\
    returns (wsReadTag s) = true /\
    returns (wsStart inventoryFilePath s) = true /\
    mode (stateOf (wsReadTag s)) = Constants.MODE_READ_TAG /\
    mode (stateOf (wsStart inventoryFilePath s)) =
      (if truthy inventoryFilePath
       then Constants.MODE_INVENTORY else Constants.MODE_AUTO) /\
    (Forall (fun f => isTagRead f = true) frames ->
     readTagScans (handleAll frames (stateOf (wsReadTag s))) =
     tableOf (map identifierOf frames)).
Proof.
  intros s inventoryFilePath frames.
  rewrite wsReadTag_state, wsStart_state. cbn [stateOf returns].
  rewrite !afterSend_scanStart.
  split; [|repeat split].
  - intros s' [->| ->]; now repeat split.
  - intros Hall.
    match goal with
    | |- readTagScans (handleAll frames ?s0) = _ =>
        destruct (handleAll_read_tag frames s0 eq_refl eq_refl Hall)
          as (_ & _ & Htable)
    end.
    exact Htable.
Qed.




(** ** The handshake, from [startAutoMode] to the scan *)

Lemma parseResponse_ack (s : State) :
  parseResponse ack_frame s =
  Returned tt
    (if isAutoMode (mode s) then afterSend scanStart (set_autoModeState 2 s)
     else s).
Proof.
  unfold parseResponse. unfold_m.
  change ack_frame with
    (Byte.xff :: Byte.x14 :: Byte.x04 :: Byte.x00 :: Byte.x00 ::
     skipn 5 ack_frame).
  cbv iota.
  change (byteZ Byte.xff =? Constants.HEADER_BYTE) with true.
  change (byteZ Byte.x04 =? Constants.CMD_START_APP) with true.
  cbn [negb andb].
  replace (String.eqb (toHex (Byte.xff :: Byte.x14 :: Byte.x04 :: Byte.x00
                                :: Byte.x00 :: skipn 5 ack_frame))
             APP_START_ACK) with true by (vm_compute; reflexivity).
  destruct (isAutoMode (mode s)); [|reflexivity].
  now rewrite sendWithCrc_afterSend.
Qed.

(** The acknowledgment of the app-start command starts a scan in
    whatever state the handshake is, also while a scan is on: the
    scan-start command is written, the handshake state is 2 and both
    scan tables are emptied without a flush, so nothing is sent to the
    subscribers; the read-tag table is kept, so a read-tag session goes
    on with its tallies.  Outside auto, inventory and read-tag mode the
    acknowledgment changes nothing. *)
Theorem ack_restarts_the_scan_in_any_state :
  forall s : State,
  exists s' : State,
    parseResponse ack_frame s = Returned tt s' /\
    if isAutoMode (mode s) then
      autoModeState s' = 2 /\ isScanning s' = true /\
      scannedTagsCumulative s' = JsMap.empty /\
      scannedTagsRefresh s' = JsMap.empty /\
      readTagScans s' = readTagScans s /\
      wsClients s' = wsClients s /\
      mode s' = mode s /\
      portWrites s' = (portWrites s ++ [withCrc scanStart])%list
    else s' = s.
Proof.
  intros s. eexists. split; [apply parseResponse_ack|].
  destruct (isAutoMode (mode s)); [|reflexivity].
  rewrite afterSend_scanStart. now repeat split.
Qed.

Lemma find_fresh (n : nat) (cb : Callback) (ms : Z) (rep : bool)
  (ts : list Timer) :
  Forall (fun t => (handle t < n)%nat) ts ->
  find (fun t => Nat.eqb (handle t) n)
    (ts ++ [{| handle := n; callback := cb; delay := ms; repeating := rep |}])
  = Some {| handle := n; callback := cb; delay := ms; repeating := rep |}.
Proof.
  intros Hall. induction ts as [|t ts IH]; cbn [app find handle].
  - now rewrite Nat.eqb_refl.
  - apply Forall_cons_iff in Hall as [Ht Hall].
    destruct (Nat.eqb_spec (handle t) n); [lia|]. now apply IH.
Qed.

Lemma filter_fresh (n : nat) (cb : Callback) (ms : Z) (rep : bool)
  (ts : list Timer) :
  Forall (fun t => (handle t < n)%nat) ts ->
  List.filter (fun t => negb (Nat.eqb (handle t) n))
    (ts ++ [{| handle := n; callback := cb; delay := ms; repeating := rep |}])
  = ts.
Proof.
  intros Hall. induction ts as [|t ts IH]; cbn [app List.filter handle].
  - now rewrite Nat.eqb_refl.
  - apply Forall_cons_iff in Hall as [Ht Hall].
    destruct (Nat.eqb_spec (handle t) n); [lia|]. cbn [negb]. f_equal.
    now apply IH.
Qed.

Lemma scheduled_handles (s : State) :
  scheduled s -> Forall (fun t => (handle t < nextHandle s)%nat) (timers s).
Proof.
  intros (_ & Hall & _). eapply List.Forall_impl; [|exact Hall].
  now intros t [Hlt _].
Qed.

(** The timeout of [startAutoMode] fires while the handshake state is
    still 1: the timer is spent and the running stage is asked for. *)
Lemma fireTimer_timeout (s : State) :
  Forall (fun t => (handle t < nextHandle s)%nat) (timers s) ->
  autoModeState s = 1 ->
  fireTimer (nextHandle s) (withTimeout s) =
  Returned tt
    (set_portWrites (portWrites s ++ [withCrc getRunningStage])
       (set_timers (timers s) (withTimeout s))).
Proof.
  intros Hall Hstate. unfold fireTimer. unfold bind at 1. unfold gets.
  unfold withTimeout at 1. cbn [timers set_nextHandle set_timers].
  rewrite (find_fresh _ _ _ _ _ Hall). cbn [repeating callback runCallback].
  unfold bind, clearInterval, modify. rewrite filter_bool.
  unfold withTimeout at 1. cbn [timers set_nextHandle set_timers].
  rewrite (filter_fresh _ _ _ _ _ Hall).
  unfold handshakeTimeout. unfold_m.
  cbn [autoModeState set_timers withTimeout set_nextHandle].
  rewrite Hstate. cbn [Z.eqb Pos.eqb].
  rewrite sendWithCrc_afterSend.
  change (fromHex Constants.HEX_GET_RUNNING_STAGE) with getRunningStage.
  now rewrite afterSend_getRunningStage.
Qed.

(** A timer that fires when the handshake state is not 1, and that is
    a handshake timeout if it is pending at all, sends nothing. *)
Lemma fireTimer_late (h : nat) (s : State) :
  (forall t, In t (timers s) -> handle t = h -> callback t = CbHandshakeTimeout) ->
  (autoModeState s =? 1) = false ->
  autoModeState (stateOf (fireTimer h s)) = autoModeState s /\
  isScanning (stateOf (fireTimer h s)) = isScanning s /\
  portWrites (stateOf (fireTimer h s)) = portWrites s.
Proof.
  intros Hcb Hstate.
  assert (E : exists r : State,
             stateOf (fireTimer h s) = r /\ (r = s \/ r = withoutTimer h s)).
  { unfold fireTimer. unfold bind at 1. unfold gets.
    destruct (find (fun t => Nat.eqb (handle t) h) (timers s)) as [t|] eqn:Hfind;
      [|exists s; split; [reflexivity|now left]].
    apply find_some in Hfind as [Hin Hh]. apply Nat.eqb_eq in Hh.
    rewrite (Hcb t Hin Hh). cbn [runCallback]. unfold handshakeTimeout. unfold_m.
    destruct (repeating t); cbn [autoModeState set_timers]; rewrite Hstate;
      eexists; (split; [reflexivity|]); [now left|now right]. }
  destruct E as (r & -> & [-> | ->]); repeat split; reflexivity.
Qed.

Lemma clearedTimers_sub (s : State) (t : Timer) :
  In t (clearedTimers s) -> In t (timers s).
Proof.
  rewrite clearedTimers_timers. destruct (refreshIntervalId s); [|trivial].
  intros Ht. now apply filter_In in Ht as [Ht _].
Qed.

(** The handshake, run from [startAutoMode] on, in auto, inventory or
    read-tag mode.  [h] is the handle of the timeout [startAutoMode]
    arms.
    - The acknowledgment arrives: the scan starts; when the timeout
      fires afterwards it sends nothing.
    - No acknowledgment: the timeout asks for the running stage; the
      reply "application" starts the scan.
    - The reply is "bootloader": the app-start command is sent again,
      and its acknowledgment starts the scan.
    In each case the handshake state ends at 2 with a scan on, and the
    port has been given exactly the commands listed, each with its CRC. *)
Theorem handshake_reaches_scanning :
  forall (s : State) (lengthByte statusHi statusLo : byte) (rest : list byte),
    scheduled s -> isAutoMode (mode s) = true -> 1 <= byteZ lengthByte ->
    (forall s' : State,
        s' = runOps [OpStartAutoMode; OpFrame ack_frame] s \/
        s' = runOps [OpStartAutoMode; OpFrame ack_frame; OpTimer (nextHandle s)] s ->
        autoModeState s' = 2 /\ isScanning s' = true /\
        portWrites s' =
        (portWrites s ++ [withCrc startApp; withCrc scanStart])%list) /\
    (forall s' : State,
        s' = runOps [OpStartAutoMode; OpTimer (nextHandle s);
                     OpFrame (stageReply lengthByte statusHi statusLo Byte.x12 rest)]
               s ->
        autoModeState s' = 2 /\ isScanning s' = true /\
        portWrites s' =
        (portWrites s
         ++ [withCrc startApp; withCrc getRunningStage; withCrc scanStart])%list) /\
    (forall s' : State,
        s' = runOps [OpStartAutoMode; OpTimer (nextHandle s);
                     OpFrame (stageReply lengthByte statusHi statusLo Byte.x11 rest);
                     OpFrame ack_frame] s ->
        autoModeState s' = 2 /\ isScanning s' = true /\
        portWrites s' =
        (portWrites s
         ++ [withCrc startApp; withCrc getRunningStage; withCrc startApp;
             withCrc scanStart])%list).
Proof.
  intros s lengthByte statusHi statusLo rest Hs Hmode Hlen.
  pose proof (scheduled_handles s Hs) as Hhandles.
  set (s1 := set_autoModeState 1
               (set_portWrites (portWrites s ++ [withCrc startApp]) s)).
  assert (Hstart : stateOf (startAutoMode s) = withTimeout s1).
  { rewrite startAutoMode_state. cbn [stateOf].
    change (fromHex Constants.HEX_START_APP) with startApp.
    now rewrite afterSend_startApp. }
  (* the acknowledgment arrives in state 1 *)
  set (s2 := afterSend scanStart (set_autoModeState 2 (withTimeout s1))).
  assert (Hack : stateOf (parseResponse ack_frame (withTimeout s1)) = s2).
  { rewrite parseResponse_ack. cbn [stateOf].
    change (mode (withTimeout s1)) with (mode s). now rewrite Hmode. }
  assert (Hs2 : autoModeState s2 = 2 /\ isScanning s2 = true /\
                portWrites s2 =
                (portWrites s ++ [withCrc startApp; withCrc scanStart])%list).
  { subst s2. rewrite afterSend_scanStart. split; [reflexivity|].
    split; [reflexivity|].
    cbn [portWrites set_refreshIntervalId set_nextHandle set_timers
         set_scannedTagsRefresh set_scannedTagsCumulative set_isScanning
         set_portWrites set_autoModeState withTimeout s1].
    now rewrite <- app_assoc. }
  (* the timeout fires in state 1 *)
  set (s3 := set_portWrites (portWrites s1 ++ [withCrc getRunningStage])
               (set_timers (timers s1) (withTimeout s1))).
  assert (Hfire : stateOf (fireTimer (nextHandle s) (withTimeout s1)) = s3).
  { change (nextHandle s) with (nextHandle s1).
    rewrite (fireTimer_timeout s1 Hhandles eq_refl). reflexivity. }
  assert (Hmode3 : isAutoMode (mode s3) = true) by exact Hmode.
  split; [|split].
  - intros s' [-> | ->]; cbn [runOps fold_left runOp]; rewrite Hstart, Hack;
      [exact Hs2|].
    destruct Hs2 as (Hauto & Hscan & Hwrites).
    destruct (fireTimer_late (nextHandle s) s2) as (-> & -> & ->);
      [|now rewrite Hauto|now repeat split].
    intros t Hin Hh. subst s2. rewrite afterSend_scanStart in Hin.
    cbn [timers set_refreshIntervalId set_nextHandle set_timers] in Hin.
    apply in_app_or in Hin as [Hin|[<-|[]]].
    + apply clearedTimers_sub in Hin.
      cbn [timers set_autoModeState withTimeout set_nextHandle set_timers s1
           set_portWrites] in Hin.
      apply in_app_or in Hin as [Hin|[<-|[]]]; [|reflexivity].
      apply (proj1 (List.Forall_forall _ _) Hhandles) in Hin. lia.
    + unfold s1 in Hh.
      cbn [handle nextHandle set_autoModeState withTimeout set_nextHandle
           set_timers set_portWrites] in Hh.
      lia.
  - intros s' ->. cbn [runOps fold_left runOp]. rewrite Hstart, Hfire.
    rewrite (parseResponse_stage_app _ _ _ _ s3 Hlen Hmode3 eq_refl).
    rewrite sendWithCrc_afterSend. cbn [stateOf].
    change (fromHex Constants.HEX_SCAN_START) with scanStart.
    rewrite afterSend_scanStart. split; [reflexivity|]. split; [reflexivity|].
    cbn [portWrites set_refreshIntervalId set_nextHandle set_timers
         set_scannedTagsRefresh set_scannedTagsCumulative set_isScanning
         set_portWrites set_autoModeState withTimeout s1 s3].
    now rewrite <- !app_assoc.
  - intros s' ->. cbn [runOps fold_left runOp]. rewrite Hstart, Hfire.
    rewrite (parseResponse_stage_bootloader _ _ _ _ s3 Hlen Hmode3 eq_refl).
    rewrite sendWithCrc_afterSend. cbn [stateOf].
    change (fromHex Constants.HEX_START_APP) with startApp.
    rewrite afterSend_startApp, parseResponse_ack. cbn [stateOf].
    match goal with
    | |- context [isAutoMode (mode ?x)] =>
        change (isAutoMode (mode x)) with (isAutoMode (mode s))
    end.
    rewrite Hmode, afterSend_scanStart. split; [reflexivity|].
    split; [reflexivity|].
    cbn [portWrites set_refreshIntervalId set_nextHandle set_timers
         set_scannedTagsRefresh set_scannedTagsCumulative set_isScanning
         set_portWrites set_autoModeState withTimeout s1 s3].
    now rewrite <- !app_assoc.
Qed.

Lemma handshake_witness :
  scheduled auto_start /\ isAutoMode (mode auto_start) = true /\
  1 <= byteZ Byte.x01 /\
  autoModeState
    (runOps [OpStartAutoMode; OpTimer 1; OpFrame application_reply] auto_start) = 2 /\
  isScanning
    (runOps [OpStartAutoMode; OpTimer 1; OpFrame application_reply] auto_start)
  = true /\
  portWrites
    (runOps [OpStartAutoMode; OpTimer 1; OpFrame application_reply] auto_start)
  = ([] ++ [withCrc startApp; withCrc getRunningStage; withCrc scanStart])%list.
Proof.
  assert (Hs : scheduled auto_start).
  { split; [constructor|]. split; [constructor|reflexivity]. }
  assert (Hmode : isAutoMode (mode auto_start) = true) by reflexivity.
  assert (Hlen : 1 <= byteZ Byte.x01) by (vm_compute; discriminate).
  split; [exact Hs|]. split; [exact Hmode|]. split; [exact Hlen|].
  destruct (handshake_reaches_scanning auto_start Byte.x01 Byte.x00 Byte.x00
              [Byte.x00; Byte.x00] Hs Hmode Hlen) as (_ & Happ & _).
  exact (Happ _ eq_refl).
Defined.

(** ** Outside auto, inventory and read-tag mode *)

Lemma parseResponse_not_auto (frame : list byte) (s : State) :
  isAutoMode (mode s) = false ->
  exists r : State,
    stateOf (parseResponse frame s) = r /\
    mode r = mode s /\ isScanning r = isScanning s /\
    portWrites r = portWrites s.
Proof.
  intros Hmode. unfold parseResponse. unfold_m.
  destruct frame as [|b0 [|b1 [|b2 [|b3 [|b4 rest]]]]];
    try destruct (negb (byteZ b0 =? Constants.HEADER_BYTE));
    cbv beta; rewrite ?Hmode; cbn [andb];
    repeat match goal with
           | |- context [if ?b then _ else _] => destruct b
           end;
    try (rewrite readTagObserve_state);
    try (rewrite countObserve_state; destruct (counted s _));
    eexists; (split; [reflexivity|]); now repeat split.
Qed.

Lemma fireTimer_writes (h : nat) (s : State) :
  exists (r : State) (new : list (list byte)),
    stateOf (fireTimer h s) = r /\
    mode r = mode s /\ isScanning r = isScanning s /\
    portWrites r = (portWrites s ++ new)%list /\
    (new = [] \/ new = [withCrc getRunningStage]).
Proof.
  unfold fireTimer. unfold bind at 1. unfold gets.
  destruct (find (fun t => Nat.eqb (handle t) h) (timers s)) as [t|];
    [|exists s, []; rewrite app_nil_r; repeat split; now left].
  assert (Hcb : forall s0 : State,
             exists (r : State) (new : list (list byte)),
               stateOf (runCallback (callback t) s0) = r /\
               mode r = mode s0 /\ isScanning r = isScanning s0 /\
               portWrites r = (portWrites s0 ++ new)%list /\
               (new = [] \/ new = [withCrc getRunningStage])).
  { intros s0. destruct (callback t); cbn [runCallback].
    - rewrite logScannedTags_state. exists (afterFlush s0), [].
      rewrite app_nil_r. unfold afterFlush.
      destruct (inventoryUpdates s0); repeat split; now left.
    - unfold handshakeTimeout. unfold_m.
      destruct (autoModeState s0 =? 1).
      + rewrite sendWithCrc_afterSend.
        change (fromHex Constants.HEX_GET_RUNNING_STAGE) with getRunningStage.
        rewrite afterSend_getRunningStage. eexists _, _.
        split; [reflexivity|]. repeat split. now right.
      + exists s0, []. rewrite app_nil_r. repeat split. now left. }
  destruct (repeating t); unfold_m; [apply Hcb|].
  destruct (Hcb (withoutTimer h s)) as (r & new & Hr & Hm & Hsc & Hw & Hnew).
  exists r, new. now repeat split.
Qed.

(** In a mode other than auto, inventory and read-tag (the code falls
    back to [startAutoMode] for such a mode, as for [interactive]), the
    device's replies are ignored: whatever frames arrive and whatever
    timers fire, [startAutoMode] and inventory loads included, the mode
    and the scanning flag stay as they are, and the port is only given
    the app-start and the running-stage command.  The scan-start
    command is never sent: only a command of the web client starts a
    scan. *)
Theorem without_auto_mode_only_the_web_client_starts_a_scan :
  forall (ops : list Op) (s : State),
    isAutoMode (mode s) = false ->
    Forall (fun op => fromOperator op = false) ops ->
    mode (runOps ops s) = mode s /\
    isScanning (runOps ops s) = isScanning s /\
    exists new : list (list byte),
      portWrites (runOps ops s) = (portWrites s ++ new)%list /\
      Forall (fun packet =>
                packet = withCrc startApp \/ packet = withCrc getRunningStage) new.
Proof.
  induction ops as [|op ops IH]; intros s Hmode Hops.
  - cbn [runOps fold_left]. repeat split. exists []. now rewrite app_nil_r.
  - apply Forall_cons_iff in Hops as [Hop Hops]. cbn [runOps fold_left].
    assert (Hstep : exists (r : State) (new : list (list byte)),
               stateOf (runOp op s) = r /\
               mode r = mode s /\ isScanning r = isScanning s /\
               portWrites r = (portWrites s ++ new)%list /\
               Forall (fun packet =>
                         packet = withCrc startApp
                         \/ packet = withCrc getRunningStage) new).
    { destruct op as [frame|h| |fileText|csvData|path| | | |clock];
        try discriminate Hop; cbn [runOp].
      - destruct (parseResponse_not_auto frame s Hmode) as (r & Hr & Hm & Hsc & Hw).
        exists r, []. rewrite app_nil_r. now repeat split.
      - destruct (fireTimer_writes h s) as (r & new & Hr & Hm & Hsc & Hw & Hnew).
        exists r, new. repeat split; try assumption.
        destruct Hnew as [-> | ->]; [constructor|].
        constructor; [now right|constructor].
      - rewrite startAutoMode_state.
        change (fromHex Constants.HEX_START_APP) with startApp.
        rewrite afterSend_startApp. eexists _, [withCrc startApp].
        split; [reflexivity|]. repeat split.
        constructor; [now left|constructor].
      - destruct (loadInventory_frame fileText s) as [inv ->].
        eexists _, []. split; [reflexivity|]. rewrite app_nil_r.
        now repeat split.
      - destruct (parseInventoryData_frame csvData s) as [inv ->].
        eexists _, []. split; [reflexivity|]. rewrite app_nil_r.
        now repeat split.
      - eexists _, []. split; [reflexivity|]. rewrite app_nil_r.
        now repeat split. }
    destruct Hstep as (r & new & -> & Hm & Hsc & Hw & Hnew).
    assert (Hmode' : isAutoMode (mode r) = false) by now rewrite Hm.
    destruct (IH r Hmode' Hops) as (Hm' & Hsc' & new' & Hw' & Hnew').
    change (fold_left (fun s0 op0 => stateOf (runOp op0 s0)) ops r)
      with (runOps ops r).
    split; [congruence|]. split; [congruence|].
    exists (new ++ new')%list. split.
    + now rewrite Hw', Hw, <- app_assoc.
    + apply Forall_app. now split.
Qed.

Lemma without_auto_mode_witness :
  isAutoMode (mode (initialState "interactive" 5 true example_clock)) = false /\
  Forall (fun op => fromOperator op = false)
    [OpStartAutoMode; OpFrame ack_frame; OpTimer 1; OpFrame application_reply] /\
  isScanning
    (runOps [OpStartAutoMode; OpFrame ack_frame; OpTimer 1; OpFrame application_reply]
       (initialState "interactive" 5 true example_clock)) = false.
Proof.
  assert (Hmode : isAutoMode
                    (mode (initialState "interactive" 5 true example_clock))
                  = false) by reflexivity.
  assert (Hops : Forall (fun op => fromOperator op = false)
                   [OpStartAutoMode; OpFrame ack_frame; OpTimer 1;
                    OpFrame application_reply]) by (repeat constructor).
  split; [exact Hmode|]. split; [exact Hops|].
  exact (proj1 (proj2 (without_auto_mode_only_the_web_client_starts_a_scan
                         _ _ Hmode Hops))).
Defined.

(** ** What the web client's [start] does not change *)

(** The inventory filter, the refresh period and the debug switch are
    those of the command line for the whole run: no handler assigns
    them.  In particular the web client's [start] command, which sets
    [mode] to [inventory] when an inventory file was given, does not
    turn the filter on: a tag the index does not know is still
    counted. *)
Theorem filter_period_and_debug_are_fixed_at_startup :
  forall (ops : list Op) (s : State),
    (inventoryMode (runOps ops s) = inventoryMode s /\
     refreshPeriod (runOps ops s) = refreshPeriod s /\
     isDbgLogEnabled (runOps ops s) = isDbgLogEnabled s) /\
    forall (c : ascii) (path ident : string),
      mode (runOps [OpWsStart (Some (String c path))] s) = Constants.MODE_INVENTORY /\
      counted (runOps [OpWsStart (Some (String c path))] s) ident = counted s ident.
Proof.
  intros ops s. split; [exact (runOps_fixed ops s)|]. intros c path ident. split.
  - cbn [runOps fold_left runOp]. rewrite wsStart_state. cbn [stateOf truthy].
    rewrite afterSend_scanStart. reflexivity.
  - apply counted_ext; [exact (proj1 (runOps_fixed _ s))|].
    cbn [runOps fold_left runOp]. rewrite wsStart_state. cbn [stateOf].
    rewrite afterSend_scanStart. reflexivity.
Qed.

(** ** Start-up and the opening of the port *)

Lemma loadInventory_returns (fileText : option string) (s : State) :
  loadInventory fileText s = Returned tt (stateOf (loadInventory fileText s)).
Proof.
  unfold loadInventory. destruct fileText as [data|]; [|reflexivity].
  destruct (parseInventoryData data s); reflexivity.
Qed.

Lemma optional_load (inventoryFilePath fileText : option string) (s : State) :
  exists inv : gmap string Item,
    (if truthy inventoryFilePath then loadInventory fileText else ret tt) s
    = Returned tt (set_inventoryData inv s).
Proof.
  destruct (truthy inventoryFilePath).
  - destruct (loadInventory_frame fileText s) as [inv Hinv]. exists inv.
    now rewrite loadInventory_returns, Hinv.
  - exists (inventoryData s). unfold ret. now rewrite set_inventoryData_same.
Qed.

Lemma startAutoMode_after_load (inv : gmap string Item) (s : State) :
  startAutoMode (set_inventoryData inv s) =
  Returned tt
    (withTimeout
       (set_autoModeState 1
          (set_portWrites (portWrites s ++ [withCrc startApp])
             (set_inventoryData inv s)))).
Proof.
  rewrite startAutoMode_state.
  change (fromHex Constants.HEX_START_APP) with startApp.
  now rewrite afterSend_startApp.
Qed.

Lemma startUp_state (inventoryFilePath fileText : option string) (s : State) :
  missingInventoryFile (inventoryMode s) inventoryFilePath = false ->
  exists inv : gmap string Item,
    startUp inventoryFilePath fileText s =
    Some (Returned tt
            (withTimeout
               (set_autoModeState 1
                  (set_portWrites (portWrites s ++ [withCrc startApp])
                     (set_inventoryData inv s))))).
Proof.
  intros Hfile. unfold startUp. rewrite Hfile.
  destruct (optional_load inventoryFilePath fileText s) as [inv Hload].
  exists inv. unfold bind at 1. rewrite Hload. unfold bind, gets.
  destruct (isAutoMode (mode (set_inventoryData inv s)));
    now rewrite startAutoMode_after_load.
Qed.

Lemma onOpen_state (inventoryFilePath fileText : option string) (s : State) :
  missingInventoryFile (inventoryMode s) inventoryFilePath = false ->
  exists inv : gmap string Item,
    onOpen inventoryFilePath fileText s =
    Some (Returned tt
            (if isAutoMode (mode s) then
               withTimeout
                 (set_autoModeState 1
                    (set_portWrites (portWrites s ++ [withCrc startApp])
                       (set_inventoryData inv s)))
             else set_inventoryData inv s)).
Proof.
  intros Hfile. unfold onOpen. rewrite Hfile.
  destruct (optional_load inventoryFilePath fileText s) as [inv Hload].
  exists inv. unfold bind at 1. rewrite Hload. unfold bind, gets.
  change (mode (set_inventoryData inv s)) with (mode s).
  destruct (isAutoMode (mode s)); [|reflexivity].
  now rewrite startAutoMode_after_load.
Qed.

(** When the check of the inventory file at the top of [main] has
    passed, neither the start-up logic nor the handler of the port's
    [open] event exits, at start-up or in any later state.  The start-up
    logic calls [startAutoMode] whatever the mode, and the [open]
    handler calls it again in auto, inventory and read-tag mode: the
    app-start command is then sent twice and two handshake timeouts
    are pending, while in any other mode it is sent once.  No scan is
    on yet and the handshake state is 1. *)
Theorem start_up_sends_the_handshake_again_when_the_port_opens :
  forall (m : string) (period : Z) (dbg : bool) (clock : string)
         (inventoryFilePath text1 text2 : option string),
    missingInventoryFile (String.eqb m Constants.MODE_INVENTORY) inventoryFilePath
    = false ->
    (exists s1 s2 : State,
        startUp inventoryFilePath text1 (initialState m period dbg clock)
        = Some (Returned tt s1) /\
        onOpen inventoryFilePath text2 s1 = Some (Returned tt s2) /\
        portWrites s1 = [withCrc startApp] /\ timeoutHandles s1 = [1%nat] /\
        autoModeState s2 = 1 /\ isScanning s2 = false /\
        if isAutoMode m
        then portWrites s2 = [withCrc startApp; withCrc startApp]
             /\ timeoutHandles s2 = [1%nat; 2%nat]
        else portWrites s2 = [withCrc startApp] /\ timeoutHandles s2 = [1%nat]) /\
    (forall (ops : list Op) (text : option string),
        exists o o' : Outcome State unit,
          startUp inventoryFilePath text
            (runOps ops (initialState m period dbg clock)) = Some o /\
          onOpen inventoryFilePath text
            (runOps ops (initialState m period dbg clock)) = Some o').
Proof.
  intros m period dbg clock inventoryFilePath text1 text2 Hfile.
  split.
  - destruct (startUp_state inventoryFilePath text1
                (initialState m period dbg clock) Hfile) as [inv1 Hstart].
    match type of Hstart with
    | _ = Some (Returned tt ?x) => set (s1 := x) in *
    end.
    destruct (onOpen_state inventoryFilePath text2 s1 Hfile) as [inv2 Hopen].
    exists s1. eexists. split; [exact Hstart|]. split; [exact Hopen|].
    split; [reflexivity|]. split; [reflexivity|].
    change (mode s1) with m. destruct (isAutoMode m); repeat split; reflexivity.
  - intros ops text.
    assert (Hlater : missingInventoryFile
                       (inventoryMode (runOps ops (initialState m period dbg clock)))
                       inventoryFilePath = false).
    { rewrite (proj1 (runOps_fixed ops (initialState m period dbg clock))).
      exact Hfile. }
    destruct (startUp_state inventoryFilePath text _ Hlater) as [inv Hstart].
    destruct (onOpen_state inventoryFilePath text _ Hlater) as [inv' Hopen].
    eexists _, _. split; [exact Hstart|exact Hopen].
Qed.

Lemma start_up_witness :
  missingInventoryFile (String.eqb "inventory" Constants.MODE_INVENTORY)
    (Some "work/inventory.csv") = false /\
  exists s1 s2 : State,
    startUp (Some "work/inventory.csv") (Some good_csv)
      (initialState "inventory" 5 true example_clock) = Some (Returned tt s1) /\
    onOpen (Some "work/inventory.csv") (Some good_csv) s1 = Some (Returned tt s2) /\
    portWrites s2 = [withCrc startApp; withCrc startApp] /\
    timeoutHandles s2 = [1%nat; 2%nat].
Proof.
  assert (Hfile : missingInventoryFile
                    (String.eqb "inventory" Constants.MODE_INVENTORY)
                    (Some "work/inventory.csv") = false) by reflexivity.
  split; [exact Hfile|].
  destruct (proj1 (start_up_sends_the_handshake_again_when_the_port_opens
                     "inventory" 5 true example_clock (Some "work/inventory.csv")
                     (Some good_csv) (Some good_csv) Hfile))
    as (s1 & s2 & Hstart & Hopen & _ & _ & _ & _ & Hwrites & Hhandles).
  exists s1, s2. now repeat split.
Defined.

(** * The page of [web-app/app.js] *)

(** ** A batch of updates *)

Lemma applyUpdate_map (update : Update) (rows : list Row) :
  List.NoDup (map r_epc rows) ->
  applyUpdate update rows = map (updateRow update) rows.
Proof.
  induction rows as [|r rows IH]; intros Hnd; [reflexivity|].
  cbn [map] in Hnd. apply List.NoDup_cons_iff in Hnd as [Hnotin Hnd].
  cbn [applyUpdate map]. unfold updateRow at 1.
  destruct (String.eqb_spec (r_epc r) (u_epc update)) as [Heq|Hne].
  - f_equal. symmetry. rewrite <- (map_id rows) at 2. apply map_ext_in.
    intros r' Hin. unfold updateRow.
    destruct (String.eqb_spec (r_epc r') (u_epc update)) as [Heq'|]; [|reflexivity].
    exfalso. apply Hnotin. rewrite Heq, <- Heq'. now apply in_map.
  - f_equal. now apply IH.
Qed.

Lemma updateRow_fields (update : Update) (r : Row) :
  r_epc (updateRow update r) = r_epc r /\
  r_item (updateRow update r) = r_item r /\
  r_id (updateRow update r) = r_id r.
Proof.
  unfold updateRow. destruct (String.eqb (r_epc r) (u_epc update));
    now repeat split.
Qed.

Lemma updateRows_fields (updates : list Update) :
  forall r : Row,
    r_epc (fold_left (fun r u => updateRow u r) updates r) = r_epc r /\
    r_item (fold_left (fun r u => updateRow u r) updates r) = r_item r /\
    r_id (fold_left (fun r u => updateRow u r) updates r) = r_id r.
Proof.
  induction updates as [|u updates IH]; intros r; [now repeat split|].
  cbn [fold_left]. destruct (IH (updateRow u r)) as (-> & -> & ->).
  apply updateRow_fields.
Qed.

Lemma applyUpdates_map (updates : list Update) :
  forall rows : list Row,
    List.NoDup (map r_epc rows) ->
    fold_left (fun rows u => applyUpdate u rows) updates rows =
    map (fun r => fold_left (fun r u => updateRow u r) updates r) rows.
Proof.
  induction updates as [|u updates IH]; intros rows Hnd; cbn [fold_left].
  - now rewrite map_id.
  - rewrite (applyUpdate_map u rows Hnd), IH.
    + now rewrite map_map.
    + rewrite map_map.
      erewrite map_ext; [exact Hnd|].
      intros r. apply updateRow_fields.
Qed.

Lemma updateRows_none (updates : list Update) :
  forall r : Row,
    (forall u, In u updates -> u_epc u <> r_epc r) ->
    fold_left (fun r u => updateRow u r) updates r = r.
Proof.
  induction updates as [|u updates IH]; intros r Hnone; [reflexivity|].
  cbn [fold_left].
  assert (Hr : updateRow u r = r).
  { unfold updateRow. destruct (String.eqb_spec (r_epc r) (u_epc u)) as [Heq|];
      [|reflexivity].
    exfalso. apply (Hnone u); [now left|now symmetry]. }
  rewrite Hr. apply IH. intros u' Hin. apply Hnone. now right.
Qed.

Lemma updateRows_one (updates : list Update) :
  forall (r : Row) (u : Update),
    List.NoDup (map u_epc updates) -> In u updates -> u_epc u = r_epc r ->
    fold_left (fun r u => updateRow u r) updates r =
    withScan (u_count u) (Some (u_timestamp u)) r.
Proof.
  induction updates as [|u0 updates IH]; intros r u Hnd Hin Hepc; [destruct Hin|].
  cbn [map] in Hnd. apply List.NoDup_cons_iff in Hnd as [Hnotin Hnd].
  cbn [fold_left]. destruct Hin as [->|Hin].
  - unfold updateRow at 2. rewrite Hepc, String.eqb_refl.
    apply updateRows_none. intros u' Hin' Heq. apply Hnotin.
    cbn [r_epc withScan] in Heq. rewrite Hepc, <- Heq. now apply in_map.
  - assert (Hr : updateRow u0 r = r).
    { unfold updateRow.
      destruct (String.eqb_spec (r_epc r) (u_epc u0)) as [Heq|]; [|reflexivity].
      exfalso. apply Hnotin. rewrite <- Heq, <- Hepc. now apply in_map. }
    rewrite Hr. now apply IH.
Qed.

(** ** The item summary *)

Lemma scannedOf_cons (name : string) (r : Row) (rows : list Row) :
  scannedOf name (r :: rows) =
  (if String.eqb (r_item r) name && (r_count r >? 0) then 1 else 0)
  + scannedOf name rows.
Proof.
  unfold scannedOf. cbn [List.filter].
  destruct (String.eqb (r_item r) name && (r_count r >? 0)); cbn [length]; lia.
Qed.

Lemma summaryTurn_counts (m : JsMap.t Summary) (r : Row) :
  ((0 <? r_count r) = true -> r_timestamp r <> None) ->
  exists m' : JsMap.t Summary,
    summaryTurn (Some m) r = Some m' /\
    (forall name,
        summaryCount m' name =
        summaryCount m name
        + (if String.eqb (r_item r) name && (r_count r >? 0) then 1 else 0)) /\
    (forall name,
        In name (JsMap.keys m') <-> In name (JsMap.keys m) \/ name = r_item r).
Proof.
  intros Hstamp. unfold summaryTurn.
  set (cur := match JsMap.get (r_item r) m with
              | Some entry => entry
              | None => {| s_count := 0; s_lastScanned := None |}
              end).
  assert (Hcur : s_count cur = summaryCount m (r_item r)).
  { subst cur. unfold summaryCount. now destruct (JsMap.get (r_item r) m). }
  assert (Hset : forall entry : Summary,
             (forall name,
                 summaryCount (JsMap.set (r_item r) entry m) name =
                 if String.eqb name (r_item r) then s_count entry
                 else summaryCount m name) /\
             (forall name,
                 In name (JsMap.keys (JsMap.set (r_item r) entry m)) <->
                 In name (JsMap.keys m) \/ name = r_item r)).
  { intros entry. split; intros name.
    - unfold summaryCount. rewrite get_set.
      now destruct (String.eqb name (r_item r)).
    - destruct (in_dec string_dec (r_item r) (JsMap.keys m)) as [Hin|Hnotin].
      + rewrite keys_set_present by exact Hin. split; [now left|].
        intros [H| ->]; assumption.
      + rewrite set_absent by exact Hnotin. unfold JsMap.keys.
        rewrite map_app, in_app_iff. cbn [map fst In]. split.
        * intros [H|[H|[]]]; [now left|now right].
        * intros [H|H]; [now left|right; now left]. }
  assert (Hadd : forall (entry : Summary) (k : Z),
             s_count entry = s_count cur + k ->
             forall name,
               summaryCount (JsMap.set (r_item r) entry m) name =
               summaryCount m name + (if String.eqb (r_item r) name then k else 0)).
  { intros entry k Hk name. rewrite (proj1 (Hset entry)).
    rewrite (String.eqb_sym name (r_item r)).
    destruct (String.eqb_spec (r_item r) name) as [<-|]; lia. }
  destruct (r_count r >? 0) eqn:Hpos.
  - assert (Hsome : r_timestamp r <> None).
    { apply Hstamp. apply Z.ltb_lt. apply Z.gtb_lt in Hpos. exact Hpos. }
    destruct (negb (truthy (s_lastScanned cur))) eqn:Hfalsy.
    + eexists. split; [reflexivity|]. split; [|apply Hset].
      intros name. rewrite (Hadd _ 1) by reflexivity.
      now rewrite andb_true_r.
    + destruct (r_timestamp r) as [stamp|]; [|contradiction].
      destruct (s_lastScanned cur) as [last|]; [|discriminate].
      eexists. split; [reflexivity|]. split; [|apply Hset].
      intros name. rewrite (Hadd _ 1) by reflexivity.
      now rewrite andb_true_r.
  - eexists. split; [reflexivity|]. split; [|apply Hset].
    intros name. rewrite (Hadd cur 0) by lia. rewrite andb_false_r.
    destruct (String.eqb (r_item r) name); reflexivity.
Qed.

Lemma summarise_counts (rows : list Row) :
  forall m : JsMap.t Summary,
    Forall (fun r => (0 <? r_count r) = true -> r_timestamp r <> None) rows ->
    exists m' : JsMap.t Summary,
      fold_left summaryTurn rows (Some m) = Some m' /\
      (forall name, summaryCount m' name = summaryCount m name + scannedOf name rows) /\
      (forall name,
          In name (JsMap.keys m') <->
          In name (JsMap.keys m) \/ In name (map r_item rows)).
Proof.
  induction rows as [|r rows IH]; intros m Hall.
  - exists m. split; [reflexivity|]. split.
    + intros name. unfold scannedOf. cbn. lia.
    + intros name. cbn [map In]. tauto.
  - apply Forall_cons_iff in Hall as [Hr Hall]. cbn [fold_left].
    destruct (summaryTurn_counts m r Hr) as (m1 & -> & Hc1 & Hk1).
    destruct (IH m1 Hall) as (m' & Hfold & Hc & Hk).
    exists m'. split; [exact Hfold|]. split.
    + intros name. rewrite Hc, Hc1, scannedOf_cons. lia.
    + intros name. rewrite Hk, Hk1. cbn [map In]. split.
      * intros [[H|H]|H]; [now left|right; left; now symmetry|right; now right].
      * intros [H|[H|H]]; [left; now left|left; right; now symmetry|now right].
Qed.

Lemma updates_rows (updates : list Update) (rows : list Row) :
  List.NoDup (map r_epc rows) ->
  fold_left (fun rows u => applyUpdate u rows) updates
    (map (withScan 0 None) rows)
  = map (shownRow updates) rows.
Proof.
  intros Hrows. rewrite applyUpdates_map by (now rewrite map_map).
  now rewrite map_map.
Qed.

Lemma shownRow_spec (updates : list Update) (r : Row) :
  List.NoDup (map u_epc updates) ->
  (exists u : Update,
      In u updates /\ u_epc u = r_epc r /\
      shownRow updates r = withScan (u_count u) (Some (u_timestamp u)) r)
  \/ ((forall u : Update, In u updates -> u_epc u <> r_epc r) /\
      shownRow updates r = withScan 0 None r).
Proof.
  intros Hupdates. unfold shownRow.
  destruct (in_dec string_dec (r_epc r) (map u_epc updates)) as [Hin|Hnotin].
  - left. apply in_map_iff in Hin as (u & Hu & Hin). exists u.
    split; [exact Hin|]. split; [exact Hu|].
    now rewrite (updateRows_one updates (withScan 0 None r) u Hupdates Hin Hu).
  - right. assert (Hnone : forall u, In u updates -> u_epc u <> r_epc r).
    { intros u Hin Heq. apply Hnotin. rewrite <- Heq. now apply in_map. }
    split; [exact Hnone|]. now apply updateRows_none.
Qed.

Lemma shownRow_fields (updates : list Update) (r : Row) :
  r_id (shownRow updates r) = r_id r /\
  r_epc (shownRow updates r) = r_epc r /\
  r_item (shownRow updates r) = r_item r.
Proof.
  unfold shownRow.
  destruct (updateRows_fields updates (withScan 0 None r)) as (-> & -> & ->).
  now repeat split.
Qed.

(** The handler on a batch stays within the model. *)
Lemma onMessage_updates (updates : list Update) (p : Page) :
  List.NoDup (map r_epc (p_inventoryData p)) ->
  List.NoDup (map u_epc updates) ->
  exists itemSummary : JsMap.t Summary,
    onMessage (Updates updates) p =
    Some {| p_inventoryData := map (shownRow updates) (p_inventoryData p);
            p_itemSummary := itemSummary;
            p_lastScannedEpc := p_lastScannedEpc p;
            p_readTagVisible := false |} /\
    (forall name : string,
        summaryCount itemSummary name
        = scannedOf name (map (shownRow updates) (p_inventoryData p))) /\
    (forall name : string,
        In name (JsMap.keys itemSummary) <->
        In name (map r_item (p_inventoryData p))).
Proof.
  intros Hrows Hupdates.
  assert (Hok : Forall (fun r => (0 <? r_count r) = true -> r_timestamp r <> None)
                  (map (shownRow updates) (p_inventoryData p))).
  { apply List.Forall_forall. intros r' Hin.
    apply in_map_iff in Hin as (r & <- & Hin).
    destruct (shownRow_spec updates r Hupdates) as [(u & _ & _ & ->)|[_ ->]];
      cbn [r_count r_timestamp withScan]; [discriminate|].
    intros H. discriminate H. }
  destruct (summarise_counts _ JsMap.empty Hok) as (summary & Hsum & Hcount & Hkeys).
  exists summary. split; [|split].
  - unfold onMessage. cbv zeta. rewrite (updates_rows updates _ Hrows).
    unfold summarise. now rewrite Hsum.
  - intros name. rewrite Hcount. unfold summaryCount.
    cbn [JsMap.get JsMap.empty]. lia.
  - intros name. rewrite Hkeys. cbn [JsMap.keys JsMap.empty map In].
    rewrite map_map.
    assert (Hitems : map (fun r => r_item (shownRow updates r)) (p_inventoryData p)
                     = map r_item (p_inventoryData p)).
    { apply map_ext. intros r. apply shownRow_fields. }
    rewrite Hitems. tauto.
Qed.

(** The page after a batch of updates.  When the page's items have
    distinct EPCs and so have the records of the batch (as the records
    of a flush have), the handler stays within the model, hides the
    read-tag field and keeps the items with their id, EPC and name in
    their order; every item shows the count and timestamp of the
    batch's record for its EPC, and count 0 with no timestamp when the
    batch has none: what the page shows is the last batch only.  The
    summary has one entry for each item name of the page, and its count
    is the number of items of that name the batch has a positive count
    for. *)
Theorem page_shows_the_last_batch_only :
  forall (updates : list Update) (p : Page),
    List.NoDup (map r_epc (p_inventoryData p)) ->
    List.NoDup (map u_epc updates) ->
    exists p' : Page,
      onMessage (Updates updates) p = Some p' /\
      p_readTagVisible p' = false /\
      p_lastScannedEpc p' = p_lastScannedEpc p /\
      map (fun r => (r_id r, r_epc r, r_item r)) (p_inventoryData p') =
      map (fun r => (r_id r, r_epc r, r_item r)) (p_inventoryData p) /\
      (forall r : Row,
          In r (p_inventoryData p') ->
          (exists u : Update,
              In u updates /\ u_epc u = r_epc r /\
              r_count r = u_count u /\ r_timestamp r = Some (u_timestamp u))
          \/ ((forall u : Update, In u updates -> u_epc u <> r_epc r) /\
              r_count r = 0 /\ r_timestamp r = None)) /\
      (forall name : string,
          summaryCount (p_itemSummary p') name
          = scannedOf name (p_inventoryData p')) /\
      (forall name : string,
          In name (JsMap.keys (p_itemSummary p')) <->
          In name (map r_item (p_inventoryData p))).
Proof.
  intros updates p Hrows Hupdates.
  destruct (onMessage_updates updates p Hrows Hupdates)
    as (summary & Hpage & Hcount & Hkeys).
  eexists. split; [exact Hpage|].
  cbn [p_readTagVisible p_lastScannedEpc p_inventoryData p_itemSummary].
  split; [reflexivity|]. split; [reflexivity|]. split.
  { rewrite map_map. apply map_ext. intros r.
    destruct (shownRow_fields updates r) as (-> & -> & ->). reflexivity. }
  split; [|split; [exact Hcount|exact Hkeys]].
  intros r' Hin. apply in_map_iff in Hin as (r & <- & Hin).
  destruct (shownRow_spec updates r Hupdates) as [(u & Hu & Hepc & ->)|[Hnone ->]].
  - left. exists u. now repeat split.
  - right. now repeat split.
Qed.

Lemma page_witness :
  List.NoDup (map r_epc (p_inventoryData example_page)) /\
  List.NoDup (map u_epc (inventoryUpdates filtered_scan)) /\
  exists p' : Page,
    onMessage (Updates (inventoryUpdates filtered_scan)) example_page = Some p' /\
    map r_count (p_inventoryData p') = [1; 0] /\
    summaryCount (p_itemSummary p') "soldering-iron" = 1 /\
    summaryCount (p_itemSummary p') "pliers" = 0.
Proof.
  assert (Hrows : List.NoDup (map r_epc (p_inventoryData example_page))).
  { repeat constructor; cbn; intuition discriminate. }
  assert (Hupdates : List.NoDup (map u_epc (inventoryUpdates filtered_scan))).
  { vm_compute. repeat constructor. intros []. }
  split; [exact Hrows|]. split; [exact Hupdates|].
  destruct (page_shows_the_last_batch_only _ _ Hrows Hupdates)
    as (p' & Hp' & _).
  exists p'. split; [exact Hp'|].
  assert (E : Some p' =
              onMessage (Updates (inventoryUpdates filtered_scan)) example_page)
    by (now rewrite Hp').
  vm_compute in E. injection E as ->. by_computation.
Defined.

(** ** From the reads of a window to the page *)

(** End to end.  A window of accepted tag-read frames is counted, the
    flush sends its batch to the open subscribers, and a page whose
    items have distinct EPCs handles the batch: every item of the page
    that the server's index knows then shows exactly the number of its
    reads in the window, and every other item shows 0. *)
Theorem page_shows_the_reads_of_the_window :
  forall (frames : list (list byte)) (s : State) (p : Page),
    String.eqb (mode s) Constants.MODE_READ_TAG = false ->
    isScanning s = true ->
    scannedTagsRefresh s = JsMap.empty ->
    Forall (fun f => isTagRead f = true) frames ->
    List.NoDup (map r_epc (p_inventoryData p)) ->
    inventoryUpdates (handleAll frames s) <> [] ->
    exists p' : Page,
      wsClients (stateOf (logScannedTags (handleAll frames s))) =
      map (sendIfOpen (MsgUpdates (inventoryUpdates (handleAll frames s))))
        (wsClients s) /\
      onMessage (parsed (MsgUpdates (inventoryUpdates (handleAll frames s)))) p
      = Some p' /\
      map r_epc (p_inventoryData p') = map r_epc (p_inventoryData p) /\
      forall r : Row,
        In r (p_inventoryData p') ->
        r_count r =
        if bool_decide (is_Some (inventoryData s !! r_epc r))
        then occurrences (r_epc r) (map identifierOf frames) else 0.
Proof.
  intros frames s p Hmode Hscan Hempty Hall Hrows Hsome.
  destruct (handleAll_counting frames s Hmode Hscan Hall) as ((_ & Hws) & _).
  destruct (window_records frames s Hmode Hscan Hempty Hall)
    as (Hnd & Hrecords & Hknown).
  set (updates := inventoryUpdates (handleAll frames s)) in *.
  destruct (onMessage_updates updates p Hrows Hnd) as (summary & Hpage & _).
  eexists. split; [|split; [exact Hpage|]].
  { rewrite logScannedTags_state. cbn [stateOf]. unfold afterFlush.
    fold updates. destruct updates; [contradiction|]. cbn [wsClients set_wsClients
      set_scannedTagsRefresh]. now rewrite Hws. }
  cbn [p_inventoryData]. split.
  { rewrite map_map. apply map_ext. intros r. apply shownRow_fields. }
  intros r' Hin. apply in_map_iff in Hin as (r & <- & Hin).
  destruct (shownRow_fields updates r) as (_ & -> & _).
  destruct (shownRow_spec updates r Hnd) as [(u & Hu & Hepc & ->)|[Hnone ->]];
    cbn [r_count withScan].
  - destruct (Hrecords u Hu) as (Hcount & it & Hit & _).
    rewrite Hepc in Hcount, Hit. rewrite Hit.
    rewrite bool_decide_eq_true_2 by (now exists it). exact Hcount.
  - destruct (inventoryData s !! r_epc r) as [it|] eqn:Hit.
    + rewrite bool_decide_eq_true_2 by (now exists it).
      pose proof (occurrences_nonneg (r_epc r) (map identifierOf frames)) as Hge.
      destruct (Z.eq_dec (occurrences (r_epc r) (map identifierOf frames)) 0)
        as [->|Hpos]; [reflexivity|].
      destruct (Hknown (r_epc r) it Hit) as (u & Hu & Hepc & _); [lia|].
      exfalso. exact (Hnone u Hu Hepc).
    + rewrite bool_decide_eq_false_2; [reflexivity|]. intros [x Hx]. discriminate.
Qed.

Lemma page_of_a_window_witness :
  String.eqb (mode inventory_scan) Constants.MODE_READ_TAG = false /\
  isScanning inventory_scan = true /\
  scannedTagsRefresh inventory_scan = JsMap.empty /\
  Forall (fun f => isTagRead f = true) [tag_frame_A; tag_frame_B; tag_frame_A] /\
  List.NoDup (map r_epc (p_inventoryData example_page)) /\
  exists p' : Page,
    onMessage
      (parsed (MsgUpdates
                 (inventoryUpdates
                    (handleAll [tag_frame_A; tag_frame_B; tag_frame_A]
                       inventory_scan)))) example_page = Some p' /\
    map r_count (p_inventoryData p') = [2; 0].
Proof.
  assert (Hmode : String.eqb (mode inventory_scan) Constants.MODE_READ_TAG = false)
    by (vm_compute; reflexivity).
  assert (Hscan : isScanning inventory_scan = true) by (vm_compute; reflexivity).
  assert (Hempty : scannedTagsRefresh inventory_scan = JsMap.empty)
    by (vm_compute; reflexivity).
  assert (Hall : Forall (fun f => isTagRead f = true)
                   [tag_frame_A; tag_frame_B; tag_frame_A])
    by (repeat constructor).
  assert (Hrows : List.NoDup (map r_epc (p_inventoryData example_page))).
  { repeat constructor; cbn; intuition discriminate. }
  assert (Hsome : inventoryUpdates
                    (handleAll [tag_frame_A; tag_frame_B; tag_frame_A]
                       inventory_scan) <> []).
  { intros H. vm_compute in H. discriminate H. }
  split; [exact Hmode|]. split; [exact Hscan|]. split; [exact Hempty|].
  split; [exact Hall|]. split; [exact Hrows|].
  destruct (page_shows_the_reads_of_the_window _ _ example_page
              Hmode Hscan Hempty Hall Hrows Hsome) as (p' & _ & Hp' & _).
  exists p'. split; [exact Hp'|].
  assert (E : Some p' =
              onMessage
                (parsed (MsgUpdates
                           (inventoryUpdates
                              (handleAll [tag_frame_A; tag_frame_B; tag_frame_A]
                                 inventory_scan)))) example_page)
    by (now rewrite Hp').
  vm_compute in E. injection E as ->. reflexivity.
Defined.

(** ** A read-tag session, up to the page *)

Lemma deliver_nothing (c : Client) : deliver [] c = c.
Proof.
  unfold deliver. destruct (readyState c =? 1); [|reflexivity].
  rewrite app_nil_r. now destruct c.
Qed.

Lemma deliver_more (msg : Message) (msgs : list Message) (c : Client) :
  deliver msgs (sendIfOpen msg c) = deliver (msg :: msgs) c.
Proof.
  unfold deliver, sendIfOpen. destruct (readyState c =? 1) eqn:Hopen.
  - cbn [readyState received]. rewrite Hopen. now rewrite <- app_assoc.
  - now rewrite Hopen.
Qed.

(** What the subscribers are sent during a read-tag session. *)
Lemma handleAll_read_tag_clients (frames : list (list byte)) :
  forall s : State,
    mode s = Constants.MODE_READ_TAG -> isScanning s = true ->
    Forall (fun frame => isTagRead frame = true) frames ->
    wsClients (handleAll frames s) =
    map (deliver (map MsgEpc
                    (reportsFrom (readTagScans s) (map identifierOf frames))))
      (wsClients s).
Proof.
  induction frames as [|frame frames IH]; intros s Hmode Hscan Hall.
  - cbn [handleAll fold_left map reportsFrom].
    rewrite <- (map_id (wsClients s)) at 1. apply map_ext.
    intros c. now rewrite deliver_nothing.
  - apply Forall_cons_iff in Hall as [Hframe Hall]. cbn [handleAll fold_left map].
    rewrite (parseResponse_tag_read frame s Hframe Hscan), Hmode.
    change (String.eqb Constants.MODE_READ_TAG Constants.MODE_READ_TAG) with true.
    cbv iota. rewrite readTagObserve_state. cbn [stateOf].
    change (fold_left (fun s0 frame0 => stateOf (parseResponse frame0 s0)) frames)
      with (handleAll frames).
    rewrite IH by (assumption || reflexivity).
    cbn [wsClients readTagScans set_wsClients set_readTagScans reportsFrom map].
    rewrite map_map. apply map_ext. intros c. apply deliver_more.
Qed.

Lemma reportsFrom_snoc (obs : list string) :
  forall (scans : JsMap.t Z) (x : string),
    reportsFrom scans (obs ++ [x]) =
    (reportsFrom scans obs
     ++ [mostFrequent
           (fold_left (fun scans ident => observe ident scans) (obs ++ [x]) scans)])%list.
Proof.
  induction obs as [|y obs IH]; intros scans x; [reflexivity|].
  cbn [app reportsFrom fold_left]. now rewrite IH.
Qed.

Lemma onMessages_reports (reports : list string) :
  forall p : Page,
    onMessages (map MsgEpc reports) p =
    Some {| p_inventoryData := p_inventoryData p;
            p_itemSummary := p_itemSummary p;
            p_lastScannedEpc := lastShown reports (p_lastScannedEpc p);
            p_readTagVisible :=
              p_readTagVisible p || existsb (fun r => truthy (Some r)) reports |}.
Proof.
  unfold onMessages, lastShown.
  induction reports as [|report reports IH]; intros p.
  - cbn [map fold_left existsb]. rewrite orb_false_r. now destruct p.
  - cbn [map fold_left existsb parsed onMessage].
    destruct (truthy (Some report)).
    + rewrite IH. cbn [p_inventoryData p_itemSummary p_lastScannedEpc
                        p_readTagVisible orb]. now rewrite orb_true_r.
    + rewrite IH. reflexivity.
Qed.

(** A read-tag session end to end.  After the web client's [read-tag]
    command, every accepted tag-read frame sends each open subscriber
    the identifier most frequent so far and nothing else; a page that
    handles these messages shows the last of them that is not empty and
    leaves its inventory table alone.  So at the end it shows the most
    frequent identifier of the session when that is not the empty
    identifier; an empty identifier is sent by the server but never
    shown. *)
Theorem read_tag_session_up_to_the_page :
  forall (frames : list (list byte)) (frame : list byte) (s : State) (p : Page),
    Forall (fun f => isTagRead f = true) (frames ++ [frame]) ->
    exists (reports : list string) (p' : Page),
      wsClients (handleAll (frames ++ [frame]) (stateOf (wsReadTag s))) =
      map (deliver (map MsgEpc reports)) (wsClients s) /\
      onMessages (map MsgEpc reports) p = Some p' /\
      p_inventoryData p' = p_inventoryData p /\
      p_lastScannedEpc p' = lastShown reports (p_lastScannedEpc p) /\
      (mostFrequent (tableOf (map identifierOf (frames ++ [frame]))) <> EmptyString ->
       p_lastScannedEpc p' =
       mostFrequent (tableOf (map identifierOf (frames ++ [frame]))) /\
       p_readTagVisible p' = true).
Proof.
  intros frames frame s p Hall.
  assert (Hlast : reportsFrom JsMap.empty (map identifierOf (frames ++ [frame]))
                  = (reportsFrom JsMap.empty (map identifierOf frames)
                     ++ [mostFrequent
                           (tableOf (map identifierOf (frames ++ [frame])))])%list).
  { rewrite map_app. cbn [map]. now rewrite reportsFrom_snoc. }
  rewrite wsReadTag_state. cbn [stateOf]. rewrite afterSend_scanStart.
  match goal with
  | |- context [handleAll _ ?s0] =>
      pose proof (handleAll_read_tag_clients (frames ++ [frame]) s0
                    eq_refl eq_refl Hall) as Hclients
  end.
  cbn [readTagScans wsClients set_refreshIntervalId set_nextHandle set_timers
       set_scannedTagsRefresh set_scannedTagsCumulative set_isScanning
       set_portWrites set_readTagScans set_mode] in Hclients.
  set (reported := mostFrequent (tableOf (map identifierOf (frames ++ [frame]))))
    in *.
  exists (reportsFrom JsMap.empty (map identifierOf (frames ++ [frame]))).
  eexists. split; [exact Hclients|].
  split; [apply onMessages_reports|].
  cbn [p_inventoryData p_lastScannedEpc p_readTagVisible].
  split; [reflexivity|]. split; [reflexivity|].
  intros Hshown. rewrite Hlast.
  assert (Htruthy : truthy (Some reported) = true)
    by (destruct reported; [contradiction|reflexivity]).
  split.
  - unfold lastShown. rewrite fold_left_app. cbn [fold_left]. now rewrite Htruthy.
  - rewrite existsb_app. cbn [existsb]. rewrite Htruthy.
    now rewrite orb_true_r, orb_true_r.
Qed.

Lemma read_tag_page_witness :
  Forall (fun f => isTagRead f = true) ([tag_frame_A; tag_frame_A] ++ [tag_frame_B]) /\
  exists (reports : list string) (p' : Page),
    onMessages (map MsgEpc reports) example_page = Some p' /\
    p_lastScannedEpc p' = "AAAAAAAA" /\ p_readTagVisible p' = true.
Proof.
  assert (Hall : Forall (fun f => isTagRead f = true)
                   ([tag_frame_A; tag_frame_A] ++ [tag_frame_B]))
    by (repeat constructor).
  split; [exact Hall|].
  destruct (read_tag_session_up_to_the_page [tag_frame_A; tag_frame_A] tag_frame_B
              (initialState "auto" 5 true example_clock) example_page Hall)
    as (reports & p' & _ & Hp' & _ & _ & Hshown).
  exists reports, p'. split; [exact Hp'|].
  assert (Hne : mostFrequent
                  (tableOf (map identifierOf
                              ([tag_frame_A; tag_frame_A] ++ [tag_frame_B])))
                <> EmptyString).
  { intros H. vm_compute in H. discriminate H. }
  destruct (Hshown Hne) as [-> ->]. split; [vm_compute|]; reflexivity.
Defined.

(** ** The page's inventory comes from the index *)

Lemma keyedByEpc_runOps (ops : list Op) (s : State) :
  keyedByEpc s -> keyedByEpc (runOps ops s).
Proof.
  revert s. apply runOps_invariant; try (intros v s H; exact H).
  - intros data s H. unfold keyedByEpc.
    replace (inventoryData (afterSend data s)) with (inventoryData s); [exact H|].
    unfold afterSend.
    destruct (String.prefix Constants.HEX_SCAN_START (toHex data)); [reflexivity|].
    destruct (String.prefix Constants.HEX_SCAN_STOP (toHex data) && isScanning s);
      [|reflexivity].
    unfold afterFlush. destruct (inventoryUpdates _); reflexivity.
  - intros ident s H. rewrite countObserve_state. cbn [stateOf].
    destruct (counted s ident); exact H.
  - intros s H. unfold afterFlush. destruct (inventoryUpdates s); exact H.
  - intros s H. exact H.
  - intros h t s _ _ H. exact H.
  - intros csvData s _ key it Hget.
    now destruct (parseInventoryData_entries csvData s key it Hget).
Qed.

Lemma index_values (inv : gmap string Item) :
  (forall key it, inv !! key = Some it -> epc it = key) ->
  map epc (map snd (map_to_list inv)) = map fst (map_to_list inv).
Proof.
  intros Hkeyed. rewrite map_map. apply map_ext_in.
  intros [key it] Hin. cbn [fst snd]. apply Hkeyed.
  apply elem_of_map_to_list. now apply list_elem_of_In.
Qed.

(** The page's inventory after an [initialInventory] message.  In any
    state the server reaches from start-up, the items of the message
    are the entries of the index, each under its own EPC; so the page
    that handles it has one item for every entry of the index and no
    other, no two with the same EPC, all with count 0 and no
    timestamp, and an empty summary. *)
Theorem page_starts_from_the_index :
  forall (ops : list Op) (m : string) (period : Z) (dbg : bool) (clock : string)
         (items : list Item) (p : Page),
    initialInventoryOf (runOps ops (initialState m period dbg clock)) items ->
    exists p' : Page,
      onMessage (InitialInventory items) p = Some p' /\
      List.NoDup (map r_epc (p_inventoryData p')) /\
      p_itemSummary p' = JsMap.empty /\
      (forall r : Row,
          In r (p_inventoryData p') ->
          r_count r = 0 /\ r_timestamp r = None /\
          inventoryData (runOps ops (initialState m period dbg clock)) !! r_epc r
          = Some {| id := r_id r; epc := r_epc r; item := r_item r |}) /\
      (forall (key : string) (it : Item),
          inventoryData (runOps ops (initialState m period dbg clock)) !! key
          = Some it ->
          exists r : Row,
            In r (p_inventoryData p') /\ r_epc r = key /\
            r_id r = id it /\ r_item r = item it).
Proof.
  intros ops m period dbg clock items p Hitems.
  set (s := runOps ops (initialState m period dbg clock)) in *.
  assert (Hkeyed : keyedByEpc s).
  { apply keyedByEpc_runOps. intros key it Hget. cbn in Hget.
    now rewrite lookup_empty in Hget. }
  unfold initialInventoryOf in Hitems.
  assert (Hepcs : List.NoDup (map epc items)).
  { apply (Permutation_NoDup (Permutation_sym (Permutation_map epc Hitems))).
    rewrite (index_values _ Hkeyed). apply NoDup_ListNoDup.
    exact (NoDup_fst_map_to_list (inventoryData s)). }
  assert (Hentry : forall it, In it items <-> inventoryData s !! epc it = Some it).
  { intros it. split.
    - intros Hin. apply (Permutation_in _ Hitems) in Hin.
      apply in_map_iff in Hin as ([key it'] & Heq & Hin). cbn [snd] in Heq.
      subst it'. apply list_elem_of_In, elem_of_map_to_list in Hin.
      now rewrite (Hkeyed key it Hin).
    - intros Hget. apply (Permutation_in _ (Permutation_sym Hitems)).
      apply in_map_iff. exists (epc it, it). split; [reflexivity|].
      now apply list_elem_of_In, elem_of_map_to_list. }
  eexists. split; [reflexivity|]. cbn [p_inventoryData p_itemSummary].
  split; [|split; [reflexivity|split]].
  - rewrite map_map. exact Hepcs.
  - intros r Hin. apply in_map_iff in Hin as (it & <- & Hin).
    cbn [rowOfItem r_count r_timestamp r_epc r_id r_item].
    split; [reflexivity|]. split; [reflexivity|].
    apply Hentry in Hin. rewrite Hin. now destruct it.
  - intros key it Hget. exists (rowOfItem it).
    pose proof (Hkeyed key it Hget) as Hepc. subst key.
    split; [|now repeat split]. apply in_map. now apply Hentry.
Qed.

Lemma page_starts_witness :
  initialInventoryOf
    (runOps [OpParseInventory good_csv] (initialState "inventory" 5 true example_clock))
    [{| id := Some 9; epc := "E28069150000401F7AB919BB"; item := "soldering-iron" |}] /\
  exists p' : Page,
    onMessage
      (InitialInventory
         [{| id := Some 9; epc := "E28069150000401F7AB919BB";
             item := "soldering-iron" |}]) example_page = Some p' /\
    List.NoDup (map r_epc (p_inventoryData p')) /\
    p_itemSummary p' = JsMap.empty.
Proof.
  assert (Hitems : initialInventoryOf
                     (runOps [OpParseInventory good_csv]
                        (initialState "inventory" 5 true example_clock))
                     [{| id := Some 9; epc := "E28069150000401F7AB919BB";
                         item := "soldering-iron" |}]).
  { unfold initialInventoryOf. vm_compute. apply Permutation_refl. }
  split; [exact Hitems|].
  destruct (page_starts_from_the_index _ _ _ _ _ _ example_page Hitems)
    as (p' & Hp' & Hnd & Hsummary & _).
  exists p'. now repeat split.
Defined.

(** * The CRC as an error-detecting code *)

(** The bits of the register after one input bit. *)
Lemma bit_step_testbit (reg : Z) (bit : bool) (n : Z) :
  0 <= n ->
  Z.testbit (CrcReference.bit_step reg bit) n =
  xorb (if n =? 0 then bit else (n <? 16) && Z.testbit reg (n - 1))
       (Z.testbit reg 15 && Z.testbit 0x1021 n).
Proof.
  intros Hn. unfold CrcReference.bit_step.
  assert (Hmerged : Z.testbit (Z.lor ((2 * reg) mod 2 ^ 16) (Z.b2z bit)) n =
                    if n =? 0 then bit else (n <? 16) && Z.testbit reg (n - 1)).
  { rewrite Z.lor_spec. destruct (Z.eqb_spec n 0) as [->|Hpos].
    - rewrite Z.mod_pow2_bits_low by lia.
      now rewrite Z.testbit_even_0, Z.b2z_bit0.
    - assert (Hbit : Z.testbit (Z.b2z bit) n = false).
      { destruct bit; [|apply Z.testbit_0_l]. change (Z.b2z true) with (2 ^ 0).
        rewrite Z.pow2_bits_eqb by lia. apply Z.eqb_neq. lia. }
      rewrite Hbit, orb_false_r.
      destruct (Z.ltb_spec n 16).
      + rewrite Z.mod_pow2_bits_low by lia.
        replace n with (Z.succ (n - 1)) at 1 by lia.
        now rewrite Z.double_bits_succ.
      + now rewrite Z.mod_pow2_bits_high by lia. }
  destruct (Z.testbit reg 15); cbn [andb].
  - now rewrite Z.lxor_spec, Hmerged.
  - now rewrite Hmerged, xorb_false_r.
Qed.

(** One input bit is a linear map of the register and the bit. *)
Lemma bit_step_linear (reg reg' : Z) (bit bit' : bool) :
  CrcReference.bit_step (Z.lxor reg reg') (xorb bit bit') =
  Z.lxor (CrcReference.bit_step reg bit) (CrcReference.bit_step reg' bit').
Proof.
  apply Z.bits_inj'. intros n Hn.
  rewrite Z.lxor_spec, !bit_step_testbit, !Z.lxor_spec by exact Hn.
  destruct (n =? 0), (n <? 16), bit, bit', (Z.testbit reg 15),
    (Z.testbit reg' 15), (Z.testbit reg (n - 1)), (Z.testbit reg' (n - 1)),
    (Z.testbit 0x1021 n); reflexivity.
Qed.

(** For a given input bit, the register after the bit determines the
    register before it. *)
Lemma bit_step_injective (reg reg' : Z) (bit : bool) :
  0 <= reg < 2 ^ 16 -> 0 <= reg' < 2 ^ 16 ->
  CrcReference.bit_step reg bit = CrcReference.bit_step reg' bit ->
  reg = reg'.
Proof.
  intros Hreg Hreg' Heq.
  assert (Hbits : forall n, 0 <= n ->
             xorb (if n =? 0 then bit else (n <? 16) && Z.testbit reg (n - 1))
                  (Z.testbit reg 15 && Z.testbit 0x1021 n)
             = xorb (if n =? 0 then bit else (n <? 16) && Z.testbit reg' (n - 1))
                    (Z.testbit reg' 15 && Z.testbit 0x1021 n)).
  { intros n Hn. rewrite <- !bit_step_testbit by exact Hn. now rewrite Heq. }
  assert (H15 : Z.testbit reg 15 = Z.testbit reg' 15).
  { specialize (Hbits 0 ltac:(lia)).
    change (0 =? 0) with true in Hbits.
    change (Z.testbit 0x1021 0) with true in Hbits. cbv iota in Hbits.
    destruct bit, (Z.testbit reg 15), (Z.testbit reg' 15);
      (reflexivity || (cbn in Hbits; discriminate Hbits)). }
  apply Z.bits_inj'. intros n Hn.
  destruct (Z.lt_ge_cases n 15) as [Hlow|Hhigh].
  - specialize (Hbits (n + 1) ltac:(lia)).
    destruct (Z.eqb_spec (n + 1) 0); [lia|].
    destruct (Z.ltb_spec (n + 1) 16); [|lia].
    replace (n + 1 - 1) with n in Hbits by lia. rewrite <- H15 in Hbits.
    cbn [andb] in Hbits.
    destruct (Z.testbit reg n), (Z.testbit reg' n),
      (Z.testbit reg 15 && Z.testbit 0x1021 (n + 1));
      (reflexivity || discriminate Hbits).
  - destruct (Z.eq_dec n 15) as [->|Hne]; [exact H15|].
    now rewrite !high_bits_of_small by lia.
Qed.

Lemma byte_step_injective (reg reg' : Z) (b : byte) :
  0 <= reg < 2 ^ 16 -> 0 <= reg' < 2 ^ 16 ->
  CrcReference.byte_step reg b = CrcReference.byte_step reg' b -> reg = reg'.
Proof.
  unfold CrcReference.byte_step.
  generalize (CrcReference.bits_msb_first b). intros bits. revert reg reg'.
  induction bits as [|bit bits IH]; intros reg reg' Hreg Hreg' Heq; [exact Heq|].
  cbn [fold_left] in Heq. apply IH in Heq; try apply bit_step_range.
  now apply (bit_step_injective reg reg' bit).
Qed.

Lemma crc_tail_injective (post : list byte) :
  forall reg reg' : Z,
    0 <= reg < 2 ^ 16 -> 0 <= reg' < 2 ^ 16 ->
    fold_left CrcReference.byte_step post reg
    = fold_left CrcReference.byte_step post reg' ->
    reg = reg'.
Proof.
  induction post as [|b post IH]; intros reg reg' Hreg Hreg' Heq; [exact Heq|].
  cbn [fold_left] in Heq. apply IH in Heq; try apply byte_step_range.
  now apply (byte_step_injective reg reg' b).
Qed.

(** Eight input bits shifted into the zero register leave zero only
    when they are all zero. *)
Lemma eight_bits_into_zero (d7 d6 d5 d4 d3 d2 d1 d0 : bool) :
  fold_left CrcReference.bit_step [d7; d6; d5; d4; d3; d2; d1; d0] 0 = 0 ->
  [d7; d6; d5; d4; d3; d2; d1; d0]
  = [false; false; false; false; false; false; false; false].
Proof.
  destruct d7, d6, d5, d4, d3, d2, d1, d0; intros H;
    (reflexivity || (vm_compute in H; discriminate H)).
Qed.

Lemma byteZ_injective (b b' : byte) : byteZ b = byteZ b' -> b = b'.
Proof.
  unfold byteZ. intros H. apply N2Z.inj in H.
  pose proof (Byte.of_to_N b) as Hb. rewrite H, Byte.of_to_N in Hb.
  now injection Hb.
Qed.

(** For a given register, the register after a byte determines the
    byte. *)
Lemma byte_step_byte (reg : Z) (b b' : byte) :
  CrcReference.byte_step reg b = CrcReference.byte_step reg b' -> b = b'.
Proof.
  intros Heq. apply (f_equal (Z.lxor (CrcReference.byte_step reg b))) in Heq.
  rewrite Z.lxor_nilpotent in Heq. symmetry in Heq.
  unfold CrcReference.byte_step, CrcReference.bits_msb_first in Heq.
  cbn [map fold_left] in Heq.
  rewrite <- !bit_step_linear, Z.lxor_nilpotent in Heq.
  apply (eight_bits_into_zero
           (xorb (Z.testbit (byteZ b) 7) (Z.testbit (byteZ b') 7))
           (xorb (Z.testbit (byteZ b) 6) (Z.testbit (byteZ b') 6))
           (xorb (Z.testbit (byteZ b) 5) (Z.testbit (byteZ b') 5))
           (xorb (Z.testbit (byteZ b) 4) (Z.testbit (byteZ b') 4))
           (xorb (Z.testbit (byteZ b) 3) (Z.testbit (byteZ b') 3))
           (xorb (Z.testbit (byteZ b) 2) (Z.testbit (byteZ b') 2))
           (xorb (Z.testbit (byteZ b) 1) (Z.testbit (byteZ b') 1))
           (xorb (Z.testbit (byteZ b) 0) (Z.testbit (byteZ b') 0))) in Heq.
  injection Heq as H7 H6 H5 H4 H3 H2 H1 H0.
  apply byteZ_injective. apply Z.bits_inj'. intros n Hn.
  pose proof (byteZ_range b) as Hb. pose proof (byteZ_range b') as Hb'.
  destruct (Z.lt_ge_cases n 8) as [Hlow|Hhigh].
  - assert (Hcases : n = 0 \/ n = 1 \/ n = 2 \/ n = 3 \/ n = 4 \/ n = 5
                     \/ n = 6 \/ n = 7) by lia.
    repeat destruct Hcases as [->|Hcases]; try subst n;
      now apply xorb_eq.
  - rewrite <- (Z.mod_small (byteZ b) (2 ^ 8)), <- (Z.mod_small (byteZ b') (2 ^ 8))
      by (change (2 ^ 8) with 256; lia).
    now rewrite !Z.mod_pow2_bits_high by lia.
Qed.

(** The CRC detects a corrupted byte: two buffers that differ in
    exactly one byte never have the same CRC, wherever the byte stands
    and whatever the rest is.  So a command of [sendWithCrc] with one
    byte altered on the way no longer matches the two CRC bytes that
    follow it. *)
Theorem crc_detects_a_corrupted_byte :
  forall (pre post : list byte) (b b' : byte),
    b <> b' ->
    CRC.calculate (pre ++ b :: post) <> CRC.calculate (pre ++ b' :: post).
Proof.
  intros pre post b b' Hne Heq. apply Hne.
  rewrite !calculate_reference in Heq. unfold CrcReference.crc16 in Heq.
  rewrite !fold_left_app in Heq. cbn [fold_left] in Heq.
  apply crc_tail_injective in Heq; try apply byte_step_range.
  exact (byte_step_byte _ b b' Heq).
Qed.

Lemma crc_detection_witness :
  Byte.x21 <> Byte.x22 /\
  CRC.calculate (fromHex "ff00" ++ Byte.x21 :: fromHex "0000")
  <> CRC.calculate (fromHex "ff00" ++ Byte.x22 :: fromHex "0000").
Proof.
  assert (Hne : Byte.x21 <> Byte.x22) by discriminate.
  split; [exact Hne|].
  exact (crc_detects_a_corrupted_byte (fromHex "ff00") (fromHex "0000") _ _ Hne).
Defined.
